(** * A shallow embedding of the MOBI/PalmDOC reader (src/src/MobiBook.cpp)

    The C++ functions are rendered as Rocq functions over byte lists.
    Three conventions hold throughout.

    - A C [assert] is kept where the source has it.  Every function takes
      the flag [ndebug]: with [ndebug = true] (the macro NDEBUG defined,
      a release build) an assertion does nothing, with [ndebug = false]
      a failed assertion ends the run in [AssertionFailed].
    - An access outside the object a pointer was derived from (a read past
      what a buffer holds, a write past the end of the destination, an
      unconfigured dictionary slot) ends the run in [Undefined].
    - Loops whose trip count the source does not bound syntactically take
      a fuel argument; running out of it is [OutOfFuel]. *)

From Stdlib Require Import ZArith NArith List Lia Bool Arith.
From Stdlib Require Import Strings.Byte.
Import ListNotations.
Local Open Scope Z_scope.

(** ** Outcomes *)

Inductive outcome (A : Type) : Type :=
| Done (a : A)
| AssertionFailed
| Undefined
| OutOfFuel.
Arguments Done {A} a.
Arguments AssertionFailed {A}.
Arguments Undefined {A}.
Arguments OutOfFuel {A}.

Definition bind {A B : Type} (m : outcome A) (k : A -> outcome B) : outcome B :=
  match m with
  | Done a => k a
  | AssertionFailed => AssertionFailed
  | Undefined => Undefined
  | OutOfFuel => OutOfFuel
  end.

Notation "x <- m ;; k" := (bind m (fun x => k))
  (at level 61, m at next level, right associativity).
Notation "' p <- m ;; k" := (bind m (fun x => match x with p => k end))
  (at level 61, p pattern, m at next level, right associativity).
Notation "m ;;; k" := (bind m (fun _ => k))
  (at level 61, right associativity).

(** [assert(cond)] of <assert.h>. *)
Definition assert (ndebug cond : bool) : outcome unit :=
  if ndebug then Done tt else if cond then Done tt else AssertionFailed.

(** A read of element [i] of an array; outside the array it is undefined. *)
Definition load {A : Type} (l : list A) (i : nat) : outcome A :=
  match nth_error l i with
  | Some a => Done a
  | None => Undefined
  end.

(** ** Bytes and integers *)

(** The value of a byte as an unsigned integer. *)
Definition val (b : byte) : Z := Z.of_N (Byte.to_N b).

(** Conversion of an integer to [uint8]: the low eight bits. *)
Definition u8 (z : Z) : byte :=
  match Byte.of_N (Z.to_N (z mod 256)) with
  | Some b => b
  | None => x00
  end.

Definition wrap (bits z : Z) : Z := z mod 2 ^ bits.
Definition u16 (z : Z) : Z := wrap 16 z.
Definition u32 (z : Z) : Z := wrap 32 z.

(** ** PalmDOC decompression (MobiBook.cpp, lines 171-225) *)

(** What a decompressor returns: the number of bytes written, here
    together with the bytes themselves (the written prefix of [dst]), or
    [(size_t)-1].  The terminating zero of lines 221-222 lies after the
    counted bytes and is not part of [Count]. *)
Inductive Uncompressed : Type :=
| Count (out : list byte)
| MinusOne.

(** The loop state: [src] as an index into the source, [dst] as the bytes
    written so far ([dst - dstOrig] is their number). *)
Record PalmdocState : Type := mkPalmdocState {
  srcPos : nat;
  written : list byte
}.

Inductive Iteration : Type :=
| Continue (st : PalmdocState)
| Return (r : Uncompressed).

(** Lines 189-192: [while (c > 0) { *dst++ = *src++; --c; }].  The source
    pointer is not compared with [srcEnd] here: the bytes are taken from
    the object [src] points into, also those after [srcEnd]. *)
Fixpoint copyLiterals (src : list byte) (c : nat) (st : PalmdocState)
  : outcome PalmdocState :=
  match c with
  | O => Done st
  | S c' =>
      b <- load src (srcPos st) ;;
      copyLiterals src c' (mkPalmdocState (S (srcPos st)) (written st ++ [b]))
  end.

(** Lines 212-215: [while (n > 0) { *dst++ = *dstBack++; --n; }] with
    [dstBack = dst - back].  Both pointers advance together, so the byte
    read is always [back] positions before the one written.  A read before
    [dstOrig], a read of a byte not yet written ([back = 0]) and a write at
    or after [dstEnd] are outside what the buffer holds. *)
Fixpoint copyBack (dstLen n back : nat) (out : list byte) : outcome (list byte) :=
  match n with
  | O => Done out
  | S n' =>
      if (length out <? back)%nat then Undefined
      else if (dstLen <=? length out)%nat then Undefined
      else
        b <- load out (length out - back) ;;
        copyBack dstLen n' back (out ++ [b])
  end.

Section Palmdoc.
Variable ndebug : bool.
(** [src] is the object the source pointer points into and [srcLen] the
    length passed with it: [srcEnd = src + srcLen]. *)
Variable src : list byte.
Variable srcLen : nat.
Variable dstLen : nat.

(** One trip through the body of [while (src < srcEnd)], lines 178-217. *)
Definition PalmdocBody (st : PalmdocState) : outcome Iteration :=
  let dstLeft := (dstLen - length (written st))%nat in
  assert ndebug (0 <? dstLeft)%nat ;;;
  if (dstLeft =? 0)%nat then Done (Return MinusOne) else
  b <- load src (srcPos st) ;;
  let c := val b in
  let st1 := mkPalmdocState (S (srcPos st)) (written st) in
  if (1 <=? c) && (c <=? 8) then
    assert ndebug (Z.to_nat c <=? dstLeft)%nat ;;;
    if (dstLeft <? Z.to_nat c)%nat then Done (Return MinusOne) else
    st2 <- copyLiterals src (Z.to_nat c) st1 ;;
    Done (Continue st2)
  else if c <? 128 then
    assert ndebug (negb (c =? 0)) ;;;
    Done (Continue (mkPalmdocState (S (srcPos st)) (written st ++ [u8 c])))
  else if 192 <=? c then
    assert ndebug (2 <=? dstLeft)%nat ;;;
    if (dstLeft <? 2)%nat then Done (Return MinusOne) else
    Done (Continue (mkPalmdocState (S (srcPos st))
                      (written st ++ [x20; u8 (Z.lxor c 128)])))
  else
    assert ndebug ((128 <=? c) && (c <? 192)) ;;;
    assert ndebug (S (srcPos st) <? srcLen)%nat ;;;
    if (S (srcPos st) <? srcLen)%nat then
      b2 <- load src (S (srcPos st)) ;;
      let w := Z.lor (Z.shiftl c 8) (val b2) in
      let back := Z.to_nat (Z.land (Z.shiftr w 3) 2047) in
      let n := Z.to_nat (Z.land w 7 + 3) in
      assert ndebug (back <=? length (written st))%nat ;;;
      assert ndebug (n <=? dstLeft)%nat ;;;
      out <- copyBack dstLen n back (written st) ;;
      Done (Continue (mkPalmdocState (S (S (srcPos st))) out))
    else
      Done (Continue st1).

(** The loop of line 177 and the return of line 224. *)
Fixpoint PalmdocLoop (fuel : nat) (st : PalmdocState) : outcome Uncompressed :=
  match fuel with
  | O => OutOfFuel
  | S fuel' =>
      if (srcPos st <? srcLen)%nat then
        it <- PalmdocBody st ;;
        match it with
        | Continue st' => PalmdocLoop fuel' st'
        | Return r => Done r
        end
      else Done (Count (written st))
  end.

(** Every trip consumes at least one source byte, so [S srcLen] trips are
    enough (shown below: [PalmdocUncompress_terminates]). *)
Definition PalmdocUncompress : outcome Uncompressed :=
  PalmdocLoop (S srcLen) (mkPalmdocState 0 []).
End Palmdoc.

(** ** Byte order (BaseUtil.h, lines 60-71; MobiBook.cpp, lines 158-167) *)

Definition LOBYTE (w : Z) : Z := Z.land w 255.
Definition HIBYTE (w : Z) : Z := Z.land (Z.shiftr (u16 w) 8) 255.
Definition LOWORD (l : Z) : Z := u16 l.
Definition HIWORD (l : Z) : Z := Z.land (Z.shiftr l 16) 65535.
Definition MAKEWORD (a b : Z) : Z :=
  u16 (Z.lor (LOBYTE a) (Z.shiftl (u16 (LOBYTE b)) 8)).
Definition MAKELONG (a b : Z) : Z := Z.lor (u16 a) (Z.shiftl (u16 b) 16).
Definition BEtoHs (x : Z) : Z := MAKEWORD (HIBYTE x) (LOBYTE x).
Definition BEtoHl (x : Z) : Z := MAKELONG (BEtoHs (HIWORD x)) (BEtoHs (LOWORD x)).

(** A range of an object; a range that leaves the object is undefined. *)
Definition slice {A : Type} (l : list A) (off n : nat) : outcome (list A) :=
  if (off + n <=? length l)%nat then Done (firstn n (skipn off l)) else Undefined.

(** Overwriting a range in place. *)
Definition store {A : Type} (l : list A) (off : nat) (bs : list A) : list A :=
  firstn off l ++ bs ++ skipn (off + length bs) l.

(** The host is little-endian ("our native format", line 158): a [uint16]
    or [uint32] lvalue at an address is the little-endian value there. *)
Definition nativeU16 (mem : list byte) (off : nat) : outcome Z :=
  bs <- slice mem off 2 ;;
  match bs with
  | [b0; b1] => Done (Z.lor (val b0) (Z.shiftl (val b1) 8))
  | _ => Undefined
  end.

Definition nativeU32 (mem : list byte) (off : nat) : outcome Z :=
  bs <- slice mem off 4 ;;
  match bs with
  | [b0; b1; b2; b3] =>
      Done (Z.lor (Z.lor (val b0) (Z.shiftl (val b1) 8))
                  (Z.lor (Z.shiftl (val b2) 16) (Z.shiftl (val b3) 24)))
  | _ => Undefined
  end.

Definition bytesU16 (v : Z) : list byte := [u8 v; u8 (Z.shiftr v 8)].
Definition bytesU32 (v : Z) : list byte :=
  [u8 v; u8 (Z.shiftr v 8); u8 (Z.shiftr v 16); u8 (Z.shiftr v 24)].

(** [SwapU16(field)] and [SwapU32(field)] on a field that lives in a
    buffer: the buffer itself changes. *)
Definition SwapU16 (mem : list byte) (off : nat) : outcome (list byte) :=
  v <- nativeU16 mem off ;;
  Done (store mem off (bytesU16 (BEtoHs v))).

Definition SwapU32 (mem : list byte) (off : nat) : outcome (list byte) :=
  v <- nativeU32 mem off ;;
  Done (store mem off (bytesU32 (BEtoHl v))).

(** Lines 310-315. *)
Definition ReadBeU16 (d : list byte) (off : nat) : outcome Z :=
  v <- nativeU16 d off ;;
  Done (BEtoHs v).

(** <string.h>: [strncmp] compares at most [n] characters and stops after
    a NUL; only its sign matters to the callers. *)
Fixpoint strncmp (s1 s2 : list byte) (n : nat) : outcome Z :=
  match n with
  | O => Done 0
  | S n' =>
      match s1, s2 with
      | c1 :: t1, c2 :: t2 =>
          if val c1 =? val c2
          then if val c1 =? 0 then Done 0 else strncmp t1 t2 n'
          else Done (val c1 - val c2)
      | _, _ => Undefined
      end
  end.

(** A C string literal: the characters and the terminating NUL. *)
Definition literal (cs : list byte) : list byte := cs ++ [x00].

(** The C string that starts at [p]: the bytes before the first NUL.  A
    string that is not terminated inside the object is undefined. *)
Fixpoint cstringFrom (rest : list byte) : outcome (list byte) :=
  match rest with
  | [] => Undefined
  | b :: rest' =>
      if val b =? 0 then Done []
      else s <- cstringFrom rest' ;; Done (b :: s)
  end.

Definition cstring (mem : list byte) (p : nat) : outcome (list byte) :=
  if (p <=? length mem)%nat then cstringFrom (skipn p mem) else Undefined.

(** Shifts of 32-bit operands: a count outside 0..31 is undefined. *)
Definition shiftr32 (x s : Z) : outcome Z :=
  if (0 <=? s) && (s <? 32) then Done (Z.shiftr x s) else Undefined.

(** [1 << s] in [int]. *)
Definition shl1 (s : Z) : outcome Z :=
  if (0 <=? s) && (s <? 31) then Done (Z.shiftl 1 s) else Undefined.

(** ** The bit reader *)

(** Modelled from the spec: the bit reader of BitReader.h, which is not
    among the sources.  Spec 4.2: built over a byte slice, it tracks a bit
    cursor from 0 to 8*len; [BitsLeft] is the number of bits from the
    cursor to the end; [Peek n] returns the next [n] bits, most
    significant first, zero-padded at the end of the buffer; [Eat n]
    advances the cursor by [n] bits.  The slice is kept as a range
    [brBase, brBase + brLen) of the object it points into, so that a slice
    that leaves the object is seen when its bytes are read. *)
Record BitReader : Type := mkBitReader {
  brData : list byte;
  brBase : nat;
  brLen : nat;
  brPos : nat
}.

Definition BitsLeft (br : BitReader) : nat := (8 * brLen br - brPos br)%nat.

Definition bitAt (br : BitReader) (i : nat) : outcome Z :=
  if (i <? 8 * brLen br)%nat then
    b <- load (brData br) (brBase br + i / 8) ;;
    Done (if Z.testbit (val b) (7 - Z.of_nat (i mod 8)) then 1 else 0)
  else Done 0.

Fixpoint peekBits (br : BitReader) (i n : nat) (acc : Z) : outcome Z :=
  match n with
  | O => Done acc
  | S n' =>
      bit <- bitAt br i ;;
      peekBits br (S i) n' (2 * acc + bit)
  end.

Definition Peek (br : BitReader) (n : nat) : outcome Z :=
  peekBits br (brPos br) n 0.

Definition Eat (br : BitReader) (n : nat) : BitReader :=
  mkBitReader (brData br) (brBase br) (brLen br) (brPos br + n).

(** ** HUFF/CDIC decompression (MobiBook.cpp, lines 227-476) *)

Definition kHuffHeaderLen : Z := 24.
Definition kCdicHeaderLen : Z := 16.
Definition kCacheDataLen : Z := 256 * 4.
Definition kBaseTableDataLen : Z := 64 * 4.
Definition kHuffRecordMinLen : Z :=
  kHuffHeaderLen + kCacheDataLen + kBaseTableDataLen.
Definition kHuffRecordLen : Z :=
  kHuffHeaderLen + 2 * kCacheDataLen + 2 * kBaseTableDataLen.
Definition kCdicsMax : Z := 32.

Definition HUFF : list byte := [x48; x55; x46; x46].
Definition CDIC : list byte := [x43; x44; x49; x43].

(** The decompressor object.  [huffmanData] is NULL or the duplicated HUFF
    record, [cacheTable] and [baseTable] point into it at the offsets that
    [SetHuffData] has checked to be 24 and 24 + 1024.  [dicts] holds the
    configured dictionaries: [dictsCount] is its length and [dictSize[i]]
    the length of [dicts[i]]; the slots from [dictsCount] on were never
    written. *)
Record HuffDicDecompressor : Type := mkHuffDic {
  huffmanData : option (list byte);
  dicts : list (list byte);
  code_length : Z
}.

(** Lines 296-300. *)
Definition newHuffDic : HuffDicDecompressor := mkHuffDic None [] 0.

Definition dictsCount (hd : HuffDicDecompressor) : Z :=
  Z.of_nat (length (dicts hd)).

Definition cacheTable (hd : HuffDicDecompressor) (i : Z) : outcome Z :=
  match huffmanData hd with
  | None => Undefined
  | Some m => nativeU32 m (Z.to_nat (kHuffHeaderLen + 4 * i))
  end.

Definition baseTable (hd : HuffDicDecompressor) (i : Z) : outcome Z :=
  match huffmanData hd with
  | None => Undefined
  | Some m =>
      nativeU32 m (Z.to_nat (kHuffHeaderLen + kCacheDataLen + 4 * i))
  end.

Section HuffDic.
Variable ndebug : bool.

(** Lines 317-356.  [Decompress] is the function called at line 335, on
    the range [p, p + symLen) of the dictionary and with [dstLeft] bytes
    of room; [out] is what has been written to [dst] so far. *)
Definition DecodeOne
    (Decompress : list byte -> nat -> nat -> nat -> outcome Uncompressed)
    (hd : HuffDicDecompressor) (code : Z) (out : list byte) (dstLeft : nat)
  : outcome (bool * list byte * nat) :=
  d <- shiftr32 code (code_length hd) ;;
  let dict := u16 d in
  if dictsCount hd <? dict then Done (false, out, dstLeft) else
  m <- shl1 (code_length hd) ;;
  let code := Z.land code (u32 (m - 1)) in
  dic <- load (dicts hd) (Z.to_nat dict) ;;
  offset <- ReadBeU16 dic (Z.to_nat (code * 2)) ;;
  if u32 (Z.of_nat (length dic)) <? offset then Done (false, out, dstLeft) else
  symLen <- ReadBeU16 dic (Z.to_nat offset) ;;
  let p := Z.to_nat (offset + 2) in
  if Z.land symLen 32768 =? 0 then
    res <- Decompress dic p (Z.to_nat symLen) dstLeft ;;
    match res with
    | MinusOne => Done (false, out, dstLeft)
    | Count bytes =>
        assert ndebug (length bytes <=? dstLeft)%nat ;;;
        Done (true, out ++ bytes, (dstLeft - length bytes)%nat)
    end
  else
    let symLen := Z.land symLen 32767 in
    if 127 <? symLen then Done (false, out, dstLeft)
    else if Z.of_nat dstLeft <? symLen then Done (false, out, dstLeft)
    else
      bytes <- slice dic p (Z.to_nat symLen) ;;
      Done (true, out ++ bytes, (dstLeft - Z.to_nat symLen)%nat).

(** Lines 390-400, the [do ... while (baseVal > code)] scan of the base
    table.  [codeLen] grows by one per trip and the scan ends at 33 at
    the latest.  The result is the final [codeLen], or [None] for the
    [return -1] of line 398. *)
Fixpoint baseScan (fuel : nat) (hd : HuffDicDecompressor) (bits codeLen : Z)
  : outcome (option Z) :=
  match fuel with
  | O => OutOfFuel
  | S fuel' =>
      baseVal <- baseTable hd (codeLen * 2) ;;
      code <- shiftr32 bits (u32 (32 - (codeLen + 1))) ;;
      let codeLen := codeLen + 1 in
      if 32 <? codeLen then Done None
      else if code <? baseVal then baseScan fuel' hd bits codeLen
      else Done (Some codeLen)
  end.

(** Lines 366-412: the [for (;;)] loop of [Decompress] and its return.
    One unit of fuel is spent per trip and per nested call. *)
Fixpoint DecompressLoop (fuel : nat) (hd : HuffDicDecompressor)
    (br : BitReader) (bitsConsumed : Z) (out : list byte) (dstLeft : nat)
  : outcome Uncompressed :=
  match fuel with
  | O => OutOfFuel
  | S fuel' =>
      if Z.of_nat (BitsLeft br) <? bitsConsumed then Done MinusOne else
      let br := Eat br (Z.to_nat bitsConsumed) in
      if (BitsLeft br =? 0)%nat then Done (Count out) else
      bits <- Peek br 32 ;;
      if (BitsLeft br <? 8)%nat && (bits =? 0) then Done (Count out) else
      v <- cacheTable hd (Z.shiftr bits 24) ;;
      let codeLen := Z.land v 31 in
      if codeLen =? 0 then Done MinusOne else
      let isTerminal := negb (Z.land v 128 =? 0) in
      found <-
        (if isTerminal then
           s <- shiftr32 bits (32 - codeLen) ;;
           Done (Some (u32 (Z.shiftr v 8 - s), codeLen))
         else
           r <- baseScan 34 hd bits (codeLen - 1) ;;
           match r with
           | None => Done None
           | Some codeLen =>
               b <- baseTable hd (1 + (codeLen - 1) * 2) ;;
               s <- shiftr32 bits (32 - codeLen) ;;
               Done (Some (u32 (b - s), codeLen))
           end) ;;
      match found with
      | None => Done MinusOne
      | Some (code, codeLen) =>
          r <- DecodeOne
                 (fun d p n size =>
                    DecompressLoop fuel' hd (mkBitReader d p n 0) 0 [] size)
                 hd code out dstLeft ;;
          match r with
          | (true, out', dstLeft') =>
              DecompressLoop fuel' hd br codeLen out' dstLeft'
          | (false, _, _) => Done MinusOne
          end
      end
  end.

(** Lines 358-413. *)
Definition Decompress (fuel : nat) (hd : HuffDicDecompressor)
    (src : list byte) (srcSize dstSize : nat) : outcome Uncompressed :=
  DecompressLoop fuel hd (mkBitReader src 0 srcSize 0) 0 [] dstSize.

(** Lines 443-445 and 447-449: [n] table entries byte-swapped in place. *)
Fixpoint swapTable (mem : list byte) (off n : nat) : outcome (list byte) :=
  match n with
  | O => Done mem
  | S n' =>
      mem' <- SwapU32 mem off ;;
      swapTable mem' (off + 4) n'
  end.

(** Lines 415-451. *)
Definition SetHuffData (hd : HuffDicDecompressor) (huffData : list byte)
  : outcome (bool * HuffDicDecompressor) :=
  let huffDataLen := Z.of_nat (length huffData) in
  assert ndebug (kHuffRecordLen =? huffDataLen) ;;;
  if huffDataLen <? kHuffRecordMinLen then Done (false, hd) else
  m <- SwapU32 huffData 4 ;;
  m <- SwapU32 m 8 ;;
  m <- SwapU32 m 12 ;;
  cmp <- strncmp (literal HUFF) m 4 ;;
  if cmp =? 0 then Done (false, hd) else
  hdrLen <- nativeU32 m 4 ;;
  cacheOffset <- nativeU32 m 8 ;;
  baseTableOffset <- nativeU32 m 12 ;;
  assert ndebug (hdrLen =? kHuffHeaderLen) ;;;
  if negb (hdrLen =? kHuffHeaderLen) then Done (false, hd) else
  if negb (cacheOffset =? kHuffHeaderLen) then Done (false, hd) else
  if negb (baseTableOffset =? u32 (cacheOffset + kCacheDataLen))
  then Done (false, hd) else
  assert ndebug (match huffmanData hd with None => true | Some _ => false end) ;;;
  m <- swapTable m (Z.to_nat cacheOffset) 256 ;;
  m <- swapTable m (Z.to_nat baseTableOffset) 64 ;;
  Done (true, mkHuffDic (Some m) (dicts hd) (code_length hd)).

(** Lines 453-476, for [cdicData] pointing to the start of [mem], of
    which the record is the first [cdicDataLen] bytes.  Lines 456-457
    swap two fields of the header where they lie; the result carries
    [mem] after that. *)
Definition AddCdicDataIn (hd : HuffDicDecompressor) (mem : list byte)
    (cdicDataLen : Z) : outcome ((bool * HuffDicDecompressor) * list byte) :=
  m <- SwapU32 mem 4 ;;
  m <- SwapU32 m 12 ;;
  r <- (hdrLen <- nativeU32 m 4 ;;
        codeLen <- nativeU32 m 12 ;;
        assert ndebug ((0 =? code_length hd) || (codeLen =? code_length hd)) ;;;
        let hd := mkHuffDic (huffmanData hd) (dicts hd) codeLen in
        cmp <- strncmp (literal CDIC) m 4 ;;
        if cmp =? 0 then Done (false, hd) else
        assert ndebug (hdrLen =? kCdicHeaderLen) ;;;
        if negb (hdrLen =? kCdicHeaderLen) then Done (false, hd) else
        let size := u32 (cdicDataLen - hdrLen) in
        maxSize <- shl1 (code_length hd) ;;
        if size <=? maxSize then Done (false, hd) else
        d <- slice m (Z.to_nat hdrLen) (Z.to_nat size) ;;
        if kCdicsMax <=? dictsCount hd then Undefined else
        Done (true, mkHuffDic (huffmanData hd) (dicts hd ++ [d])
                      (code_length hd))) ;;
  Done (r, m).

(** [AddCdicData] on a record that is an object of its own. *)
Definition AddCdicData (hd : HuffDicDecompressor) (cdicData : list byte)
  : outcome (bool * HuffDicDecompressor) :=
  r <- AddCdicDataIn hd cdicData (u32 (Z.of_nat (length cdicData))) ;;
  Done (fst r).
End HuffDic.

(** ** The book (MobiBook.cpp, lines 478-1018) *)

(** The opened file: its bytes, and which reads fail ([fseek] or [fread]
    reporting an error).  A read that reaches past the end of the file is
    short and counts as failed, as the callers treat it.  Allocation
    ([malloc], [calloc], [strdup]) is taken to succeed, and a read that
    fails is taken to leave the read buffers below as they were. *)
Record File : Type := mkFile {
  contents : list byte;
  ioError : nat -> nat -> bool
}.

Definition fread (f : File) (off n : nat) : option (list byte) :=
  if ioError f off n then None
  else if (off + n <=? length (contents f))%nat
       then Some (firstn n (skipn off (contents f)))
       else None.

(** The extension strings returned by [ImageType]: ".jpg", ".png", ".gif"
    and ".bin". *)
Inductive Extension : Type := jpg | png | gif | bin.

(** [ImageData] (declared in MobiBook.h, used at lines 805-809 and
    833-835).  A slot as [calloc] leaves it has [data = NULL], [len = 0]. *)
Record ImageData : Type := mkImageData {
  data : option (list byte);
  len : Z;
  type : option Extension
}.

Definition emptyImage : ImageData := mkImageData None 0 None.

(** The read buffers of the book (lines 871-882; the members [bufStatic],
    [bufDynamic] and [bufDynamicSize] are declared in MobiBook.h).
    [readRecord] reads every record to the start of one of them and hands
    its caller that buffer, so behind the record's last byte a caller finds
    what the records read earlier left there.  [bufStatic] and
    [bufDynamic] list the bytes stored so far, from the start of the
    buffer.  Further on the buffer holds nothing yet (the constructor at
    lines 495-502 leaves the array as it is, [malloc] returns fresh
    memory), and a read there is undefined like one past the buffer's
    end.  [bufStaticSize] is [sizeof(bufStatic)]. *)
Record ReadBuffer : Type := mkReadBuffer {
  bufStaticSize : N;
  bufStatic : list byte;
  bufDynamic : list byte;
  bufDynamicSize : N
}.

(** The length of the array [bufStatic].  Its declaration is in
    MobiBook.h, which is not among the sources; line 563 names 64K as the
    bound on the size of a record, and that is the length a new book is
    given here.  The functions below take the length from the book, so
    what is proved of an arbitrary book holds for every length. *)
Definition kBufStaticSize : N := 64 * 1024.

(** Lines 871-882: the buffers after the call.  The buffer the call
    returns is [bufStatic] for a size up to [bufStaticSize] and
    [bufDynamic], as large as asked for or larger, otherwise. *)
Definition getBufForRecordData (size : nat) (rb : ReadBuffer) : ReadBuffer :=
  if (N.of_nat size <=? bufStaticSize rb)%N then rb
  else if (N.of_nat size <=? bufDynamicSize rb)%N then rb
  else mkReadBuffer (bufStaticSize rb) (bufStatic rb) [] (N.of_nat size).

(** What is stored in the buffer that holds a record of [size] bytes, and
    the buffers with [mem] stored there instead. *)
Definition bufferOf (size : nat) (rb : ReadBuffer) : list byte :=
  if (N.of_nat size <=? bufStaticSize rb)%N then bufStatic rb
  else bufDynamic rb.

Definition set_bufferOf (size : nat) (mem : list byte) (rb : ReadBuffer)
  : ReadBuffer :=
  if (N.of_nat size <=? bufStaticSize rb)%N
  then mkReadBuffer (bufStaticSize rb) mem (bufDynamic rb) (bufDynamicSize rb)
  else mkReadBuffer (bufStaticSize rb) (bufStatic rb) mem (bufDynamicSize rb).

(** Lines 888 and 897: [fread] stores the record [d] at the start of the
    buffer chosen for it; what the buffer held behind it stays. *)
Definition freadInto (d : list byte) (rb : ReadBuffer) : ReadBuffer :=
  let size := length d in
  let rb := getBufForRecordData size rb in
  set_bufferOf size (d ++ skipn size (bufferOf size rb)) rb.

(** What is stored fits the buffers (shown below to be kept by every
    read). *)
Definition buffersFit (rb : ReadBuffer) : Prop :=
  (N.of_nat (length (bufStatic rb)) <= bufStaticSize rb)%N
  /\ (N.of_nat (length (bufDynamic rb)) <= bufDynamicSize rb)%N.

(** The fields of [MobiBook] that MobiBook.cpp reads and writes (the class
    is declared in MobiBook.h).  [recHeaders] holds the [offset] fields of
    the [numRecords + 1] record headers.  [coverImage] is signed: line 500
    initialises it to -1 and line 842 tests it for [>= 0].  [images] is
    NULL ([None]) or the array of line 817. *)
Record MobiBook : Type := mkMobiBook {
  numRecords : Z;
  recHeaders : list Z;
  firstRecData : list byte;
  isMobi : bool;
  docRecCount : Z;
  compressionType : Z;
  docUncompressedSize : Z;
  doc : list byte;
  multibyte : bool;
  trailersCount : Z;
  imageFirstRec : Z;
  imagesCount : Z;
  images : option (list ImageData);
  coverImage : Z;
  huffDic : option HuffDicDecompressor;
  textEncoding : Z;
  locale : Z;
  title : list byte;
  author : list byte;
  publisher : list byte;
  readBuf : ReadBuffer
}.

Definition set_numRecords (v : Z) (b : MobiBook) : MobiBook :=
  mkMobiBook v (recHeaders b) (firstRecData b) (isMobi b) (docRecCount b)
    (compressionType b) (docUncompressedSize b) (doc b) (multibyte b)
    (trailersCount b) (imageFirstRec b) (imagesCount b) (images b)
    (coverImage b) (huffDic b) (textEncoding b) (locale b) (title b)
    (author b) (publisher b)
    (readBuf b).

Definition set_recHeaders (v : list Z) (b : MobiBook) : MobiBook :=
  mkMobiBook (numRecords b) v (firstRecData b) (isMobi b) (docRecCount b)
    (compressionType b) (docUncompressedSize b) (doc b) (multibyte b)
    (trailersCount b) (imageFirstRec b) (imagesCount b) (images b)
    (coverImage b) (huffDic b) (textEncoding b) (locale b) (title b)
    (author b) (publisher b)
    (readBuf b).

Definition set_firstRecData (v : list byte) (b : MobiBook) : MobiBook :=
  mkMobiBook (numRecords b) (recHeaders b) v (isMobi b) (docRecCount b)
    (compressionType b) (docUncompressedSize b) (doc b) (multibyte b)
    (trailersCount b) (imageFirstRec b) (imagesCount b) (images b)
    (coverImage b) (huffDic b) (textEncoding b) (locale b) (title b)
    (author b) (publisher b)
    (readBuf b).

Definition set_isMobi (v : bool) (b : MobiBook) : MobiBook :=
  mkMobiBook (numRecords b) (recHeaders b) (firstRecData b) v
    (docRecCount b) (compressionType b) (docUncompressedSize b) (doc b)
    (multibyte b) (trailersCount b) (imageFirstRec b) (imagesCount b)
    (images b) (coverImage b) (huffDic b) (textEncoding b) (locale b)
    (title b) (author b) (publisher b)
    (readBuf b).

Definition set_docRecCount (v : Z) (b : MobiBook) : MobiBook :=
  mkMobiBook (numRecords b) (recHeaders b) (firstRecData b) (isMobi b) v
    (compressionType b) (docUncompressedSize b) (doc b) (multibyte b)
    (trailersCount b) (imageFirstRec b) (imagesCount b) (images b)
    (coverImage b) (huffDic b) (textEncoding b) (locale b) (title b)
    (author b) (publisher b)
    (readBuf b).

Definition set_compressionType (v : Z) (b : MobiBook) : MobiBook :=
  mkMobiBook (numRecords b) (recHeaders b) (firstRecData b) (isMobi b)
    (docRecCount b) v (docUncompressedSize b) (doc b) (multibyte b)
    (trailersCount b) (imageFirstRec b) (imagesCount b) (images b)
    (coverImage b) (huffDic b) (textEncoding b) (locale b) (title b)
    (author b) (publisher b)
    (readBuf b).

Definition set_docUncompressedSize (v : Z) (b : MobiBook) : MobiBook :=
  mkMobiBook (numRecords b) (recHeaders b) (firstRecData b) (isMobi b)
    (docRecCount b) (compressionType b) v (doc b) (multibyte b)
    (trailersCount b) (imageFirstRec b) (imagesCount b) (images b)
    (coverImage b) (huffDic b) (textEncoding b) (locale b) (title b)
    (author b) (publisher b)
    (readBuf b).

Definition set_doc (v : list byte) (b : MobiBook) : MobiBook :=
  mkMobiBook (numRecords b) (recHeaders b) (firstRecData b) (isMobi b)
    (docRecCount b) (compressionType b) (docUncompressedSize b) v
    (multibyte b) (trailersCount b) (imageFirstRec b) (imagesCount b)
    (images b) (coverImage b) (huffDic b) (textEncoding b) (locale b)
    (title b) (author b) (publisher b)
    (readBuf b).

Definition set_multibyte (v : bool) (b : MobiBook) : MobiBook :=
  mkMobiBook (numRecords b) (recHeaders b) (firstRecData b) (isMobi b)
    (docRecCount b) (compressionType b) (docUncompressedSize b) (doc b) v
    (trailersCount b) (imageFirstRec b) (imagesCount b) (images b)
    (coverImage b) (huffDic b) (textEncoding b) (locale b) (title b)
    (author b) (publisher b)
    (readBuf b).

Definition set_trailersCount (v : Z) (b : MobiBook) : MobiBook :=
  mkMobiBook (numRecords b) (recHeaders b) (firstRecData b) (isMobi b)
    (docRecCount b) (compressionType b) (docUncompressedSize b) (doc b)
    (multibyte b) v (imageFirstRec b) (imagesCount b) (images b)
    (coverImage b) (huffDic b) (textEncoding b) (locale b) (title b)
    (author b) (publisher b)
    (readBuf b).

Definition set_imageFirstRec (v : Z) (b : MobiBook) : MobiBook :=
  mkMobiBook (numRecords b) (recHeaders b) (firstRecData b) (isMobi b)
    (docRecCount b) (compressionType b) (docUncompressedSize b) (doc b)
    (multibyte b) (trailersCount b) v (imagesCount b) (images b)
    (coverImage b) (huffDic b) (textEncoding b) (locale b) (title b)
    (author b) (publisher b)
    (readBuf b).

Definition set_imagesCount (v : Z) (b : MobiBook) : MobiBook :=
  mkMobiBook (numRecords b) (recHeaders b) (firstRecData b) (isMobi b)
    (docRecCount b) (compressionType b) (docUncompressedSize b) (doc b)
    (multibyte b) (trailersCount b) (imageFirstRec b) v (images b)
    (coverImage b) (huffDic b) (textEncoding b) (locale b) (title b)
    (author b) (publisher b)
    (readBuf b).

Definition set_images (v : option (list ImageData)) (b : MobiBook) : MobiBook :=
  mkMobiBook (numRecords b) (recHeaders b) (firstRecData b) (isMobi b)
    (docRecCount b) (compressionType b) (docUncompressedSize b) (doc b)
    (multibyte b) (trailersCount b) (imageFirstRec b) (imagesCount b) v
    (coverImage b) (huffDic b) (textEncoding b) (locale b) (title b)
    (author b) (publisher b)
    (readBuf b).

Definition set_coverImage (v : Z) (b : MobiBook) : MobiBook :=
  mkMobiBook (numRecords b) (recHeaders b) (firstRecData b) (isMobi b)
    (docRecCount b) (compressionType b) (docUncompressedSize b) (doc b)
    (multibyte b) (trailersCount b) (imageFirstRec b) (imagesCount b)
    (images b) v (huffDic b) (textEncoding b) (locale b) (title b)
    (author b) (publisher b)
    (readBuf b).

Definition set_huffDic (v : option HuffDicDecompressor) (b : MobiBook) : MobiBook :=
  mkMobiBook (numRecords b) (recHeaders b) (firstRecData b) (isMobi b)
    (docRecCount b) (compressionType b) (docUncompressedSize b) (doc b)
    (multibyte b) (trailersCount b) (imageFirstRec b) (imagesCount b)
    (images b) (coverImage b) v (textEncoding b) (locale b) (title b)
    (author b) (publisher b)
    (readBuf b).

Definition set_textEncoding (v : Z) (b : MobiBook) : MobiBook :=
  mkMobiBook (numRecords b) (recHeaders b) (firstRecData b) (isMobi b)
    (docRecCount b) (compressionType b) (docUncompressedSize b) (doc b)
    (multibyte b) (trailersCount b) (imageFirstRec b) (imagesCount b)
    (images b) (coverImage b) (huffDic b) v (locale b) (title b) (author b)
    (publisher b)
    (readBuf b).

Definition set_locale (v : Z) (b : MobiBook) : MobiBook :=
  mkMobiBook (numRecords b) (recHeaders b) (firstRecData b) (isMobi b)
    (docRecCount b) (compressionType b) (docUncompressedSize b) (doc b)
    (multibyte b) (trailersCount b) (imageFirstRec b) (imagesCount b)
    (images b) (coverImage b) (huffDic b) (textEncoding b) v (title b)
    (author b) (publisher b)
    (readBuf b).

Definition set_title (v : list byte) (b : MobiBook) : MobiBook :=
  mkMobiBook (numRecords b) (recHeaders b) (firstRecData b) (isMobi b)
    (docRecCount b) (compressionType b) (docUncompressedSize b) (doc b)
    (multibyte b) (trailersCount b) (imageFirstRec b) (imagesCount b)
    (images b) (coverImage b) (huffDic b) (textEncoding b) (locale b) v
    (author b) (publisher b)
    (readBuf b).

Definition set_author (v : list byte) (b : MobiBook) : MobiBook :=
  mkMobiBook (numRecords b) (recHeaders b) (firstRecData b) (isMobi b)
    (docRecCount b) (compressionType b) (docUncompressedSize b) (doc b)
    (multibyte b) (trailersCount b) (imageFirstRec b) (imagesCount b)
    (images b) (coverImage b) (huffDic b) (textEncoding b) (locale b)
    (title b) v (publisher b)
    (readBuf b).

Definition set_publisher (v : list byte) (b : MobiBook) : MobiBook :=
  mkMobiBook (numRecords b) (recHeaders b) (firstRecData b) (isMobi b)
    (docRecCount b) (compressionType b) (docUncompressedSize b) (doc b)
    (multibyte b) (trailersCount b) (imageFirstRec b) (imagesCount b)
    (images b) (coverImage b) (huffDic b) (textEncoding b) (locale b)
    (title b) (author b) v
    (readBuf b).

Definition set_readBuf (v : ReadBuffer) (b : MobiBook) : MobiBook :=
  mkMobiBook (numRecords b) (recHeaders b) (firstRecData b) (isMobi b)
    (docRecCount b) (compressionType b) (docUncompressedSize b) (doc b)
    (multibyte b) (trailersCount b) (imageFirstRec b) (imagesCount b)
    (images b) (coverImage b) (huffDic b) (textEncoding b) (locale b)
    (title b) (author b) (publisher b) v.

(** Lines 495-502.  [images], [huffDic] and [bufDynamic] are NULL and
    [coverImage] is -1. *)
Definition newMobiBook : MobiBook :=
  mkMobiBook 0 [] [] false 0 0 0 [] false 0 0 0 None (-1) None 65001 0 [] [] []
    (mkReadBuffer kBufStaticSize [] [] 0).

Definition COMPRESSION_NONE : Z := 1.
Definition COMPRESSION_PALM : Z := 2.
Definition COMPRESSION_HUFF : Z := 17480.
Definition ENCRYPTION_NONE : Z := 0.
Definition kPalmDocHeaderLen : Z := 16.

Definition MOBI_TYPE_CREATOR : list byte :=
  [x42; x4f; x4f; x4b; x4d; x4f; x42; x49].
Definition PALMDOC_TYPE_CREATOR : list byte :=
  [x54; x45; x58; x74; x52; x45; x41; x64].
Definition MOBI : list byte := [x4d; x4f; x42; x49].
Definition EXTH : list byte := [x45; x58; x54; x48].

(** Modelled from the spec: the layout of [PdbHeader] and
    [PdbRecordHeader], declared in MobiBook.h, which is not among the
    sources.  Spec 4.3 and 6: a fixed 78-byte header whose bytes 60..67
    hold the type and creator and which holds the 16-bit [numRecords] at a
    fixed offset (76, its last two bytes, in the PalmDB format); then
    8-byte record headers that start with the 32-bit [offset]. *)
Definition kPdbHeaderLen : nat := 78.
Definition kPdbRecordHeaderLen : nat := 8.
Definition pdbTypeOffset : nat := 60.
Definition pdbNumRecordsOffset : nat := 76.

(** Lines 488-493. *)
Definition IsValidCompression (comprType : Z) : bool :=
  (COMPRESSION_NONE =? comprType) || (COMPRESSION_PALM =? comprType)
  || (COMPRESSION_HUFF =? comprType).

(** Lines 552-554: the record offsets, each byte-swapped in place. *)
Fixpoint swapOffsets (raw : list byte) (i n : nat) : outcome (list Z) :=
  match n with
  | O => Done []
  | S n' =>
      raw' <- SwapU32 raw (kPdbRecordHeaderLen * i) ;;
      off <- nativeU32 raw' (kPdbRecordHeaderLen * i) ;;
      rest <- swapOffsets raw' (S i) n' ;;
      Done (off :: rest)
  end.

(** Lines 558-565. *)
Fixpoint offsetsValid (offs : list Z) : bool :=
  match offs with
  | o1 :: ((o2 :: _) as rest) => if o2 <? o1 then false else offsetsValid rest
  | _ => true
  end.

(** Lines 864-868. *)
Definition getRecordSize (b : MobiBook) (recNo : Z) : outcome Z :=
  next <- load (recHeaders b) (Z.to_nat (recNo + 1)) ;;
  this <- load (recHeaders b) (Z.to_nat recNo) ;;
  Done (u32 (next - this)).

(** Lines 884-902.  The result is NULL ([None]) or the record's bytes;
    [sizeOut] is their number.  The pointer the call returns is the read
    buffer the bytes went to: [readInto] gives the book after the call
    and [recordBuffer] what that pointer points at, the record followed by
    what the buffer held before. *)
Definition readRecord (f : File) (b : MobiBook) (recNo : Z)
  : outcome (option (list byte)) :=
  off <- load (recHeaders b) (Z.to_nat recNo) ;;
  toRead <- getRecordSize b recNo ;;
  Done (fread f (Z.to_nat off) (Z.to_nat toRead)).

Definition readInto (d : list byte) (b : MobiBook) : MobiBook :=
  set_readBuf (freadInto d (readBuf b)) b.

Definition recordBuffer (size : nat) (b : MobiBook) : list byte :=
  bufferOf size (readBuf b).

(** A function that is handed the pointer changed the buffer to [mem]. *)
Definition set_recordBuffer (size : nat) (mem : list byte) (b : MobiBook)
  : MobiBook :=
  set_readBuf (set_bufferOf size mem (readBuf b)) b.

(** Lines 746-756.  The callers pass [len > 0]. *)
Definition GetUpToFour (s : list byte) : outcome Z :=
  match s with
  | [] => Undefined
  | b0 :: rest =>
      Done (fold_left (fun v b => Z.lor (u32 (Z.shiftl v 8)) (val b))
                      (firstn 3 rest) (val b0))
  end.

Definition EOF_REC : Z := 3918400778.
Definition FLIS_REC : Z := 1179404627.
Definition FCIS_REC : Z := 1178814803.
Definition FDST_REC : Z := 1178882900.
Definition DATP_REC : Z := 1145132112.
Definition SRCS_REC : Z := 1397900115.
Definition VIDE_REC : Z := 1447642181.

(** Lines 758-761. *)
Definition IsEofRecord (d : list byte) : outcome bool :=
  if (length d =? 4)%nat then sig <- GetUpToFour d ;; Done (EOF_REC =? sig)
  else Done false.

(** Lines 763-774. *)
Definition KnownNonImageRec (d : list byte) : outcome bool :=
  sig <- GetUpToFour d ;;
  Done ((FLIS_REC =? sig) || (FCIS_REC =? sig) || (FDST_REC =? sig)
        || (DATP_REC =? sig) || (SRCS_REC =? sig) || (VIDE_REC =? sig)).

Definition JPG_MAGIC : list byte := [xff; xd8; xff; xe0].
Definition PNG_MAGIC : list byte := [x89; x50; x4e; x47].
Definition GIF_MAGIC : list byte := [x47; x49; x46; x38].

(** Lines 779-788, for [data] pointing to the start of [d]; [dataLen] is
    not used.  [strncmp] looks at up to four bytes also of a record that
    has fewer, so [d] is the buffer the record lies in.  The result is
    [None] where [strncmp] reads on behind what is stored in [d]. *)
Definition ImageType (d : list byte) : option Extension :=
  let TYPE magic :=
    match strncmp d (literal magic) 4 with
    | Done r => Some (r =? 0)
    | _ => None
    end in
  match TYPE JPG_MAGIC with
  | None => None
  | Some true => Some jpg
  | Some false =>
      match TYPE PNG_MAGIC with
      | None => None
      | Some true => Some png
      | Some false =>
          match TYPE GIF_MAGIC with
          | None => None
          | Some true => Some gif
          | Some false => Some bin
          end
      end
  end.

(** Lines 828-836.  The result is NULL ([None]) or [&images[i]], given as
    the index [i]. *)
Definition getImage (b : MobiBook) (imgRecIndex : Z) : outcome (option nat) :=
  if (imagesCount b <? imgRecIndex) || (imgRecIndex <? 1) then Done None else
  let imgRecIndex := imgRecIndex - 1 in
  match images b with
  | None => Undefined
  | Some arr =>
      img <- load arr (Z.to_nat imgRecIndex) ;;
      if (match data img with None => true | Some _ => false end)
         || (0 =? len img)
      then Done None
      else Done (Some (Z.to_nat imgRecIndex))
  end.

(** Lines 849-858: the scan of the first [maxImageNo] slots. *)
Fixpoint largestOf (arr : list ImageData) (i n : nat) (coverImg : nat) (size : Z)
  : outcome (nat * Z) :=
  match n with
  | O => Done (coverImg, size)
  | S n' =>
      img <- load arr i ;;
      match data img with
      | None => largestOf arr (S i) n' coverImg size
      | Some _ =>
          let s := len img in
          if size <? s then largestOf arr (S i) n' i s
          else largestOf arr (S i) n' coverImg size
      end
  end.

(** Lines 840-862.  The result is NULL ([None]) or [&images[i]], given as
    the index [i].  Forming [&images[i]] for an [i] outside the array (or
    on a NULL [images]) is undefined. *)
Definition getCover (b : MobiBook) : outcome (option nat) :=
  if 0 <=? coverImage b then
    match images b with
    | None => Undefined
    | Some arr =>
        if coverImage b <? Z.of_nat (length arr)
        then Done (Some (Z.to_nat (coverImage b)))
        else Undefined
    end
  else
    let maxImageNo := Z.min (imagesCount b) 2 in
    r <- (if maxImageNo =? 0 then Done (0%nat, 0)
          else match images b with
               | None => Undefined
               | Some arr => largestOf arr 0 (Z.to_nat maxImageNo) 0 0
               end) ;;
    let '(coverImg, size) := r in
    if size =? 0 then Done None else Done (Some coverImg).

(** How [parseHeader] leaves one of its stages: it goes on with the book
    as it is now, or returns. *)
Inductive Stage : Type :=
| Go (b : MobiBook)
| ReturnTrue (b : MobiBook)
| ReturnFalse.

(** Offsets of the [MobiHeader] fields used below (lines 93-141). *)
Definition mobi_hdrLen : nat := 4.
Definition mobi_textEncoding : nat := 12.
Definition mobi_fullNameOffset : nat := 68.
Definition mobi_fullNameLen : nat := 72.
Definition mobi_locale : nat := 76.
Definition mobi_imageFirstRec : nat := 92.
Definition mobi_huffmanFirstRec : nat := 96.
Definition mobi_huffmanRecCount : nat := 100.
Definition mobi_exhtFlags : nat := 112.
Definition mobi_firstContentRecord : nat := 176.
Definition mobi_lastContentRecord : nat := 178.
Definition mobi_extraDataFlags : nat := 226.

(** The 32-bit fields swapped at lines 617-631, in that order. *)
Definition mobiSwapped32 : list nat :=
  [4; 8; 12; 20; 64; 68; 72; 76; 88; 92; 96; 100; 104; 108; 112]%nat.

Fixpoint swapFields32 (mem : list byte) (base : nat) (offs : list nat)
  : outcome (list byte) :=
  match offs with
  | [] => Done mem
  | o :: offs' =>
      mem' <- SwapU32 mem (base + o) ;;
      swapFields32 mem' base offs'
  end.

(** Lines 662-666: [while (flags > 1)], at most 16 trips for a [uint16]. *)
Fixpoint countTrailers (trips : nat) (flags count : Z) : Z :=
  match trips with
  | O => count
  | S trips' =>
      if 1 <? flags then
        countTrailers trips' (Z.shiftr flags 1)
          (if negb (0 =? Z.land flags 2) then count + 1 else count)
      else count
  end.

(** Conversion of a [uint32] to [int] (line 697). *)
Definition toInt (v : Z) : Z := if v <? 2 ^ 31 then v else v - 2 ^ 32.

(** Lines 682-707: the loop over the EXTH records.  [rec->data] is the
    field at offset 8 of the record; lines 689, 692 and 700 take the C
    string that starts there, line 695 its first four bytes. *)
Fixpoint exthRecords (n : nat) (currRecPos : nat) (b : MobiBook)
  : outcome MobiBook :=
  match n with
  | O => Done b
  | S n' =>
      mem <- SwapU32 (firstRecData b) (currRecPos + 4) ;;
      mem <- SwapU32 mem currRecPos ;;
      recType <- nativeU32 mem currRecPos ;;
      recLen <- nativeU32 mem (currRecPos + 4) ;;
      let b := set_firstRecData mem b in
      b <- (if recType =? 100 then
              s <- cstring mem (currRecPos + 8) ;;
              Done (set_author (author b ++ s) b)
            else if recType =? 101 then
              s <- cstring mem (currRecPos + 8) ;;
              Done (set_publisher (publisher b ++ s) b)
            else if recType =? 201 then
              v <- nativeU32 mem (currRecPos + 8) ;;
              Done (set_coverImage (toInt (BEtoHl v)) b)
            else if recType =? 503 then
              s <- cstring mem (currRecPos + 8) ;;
              Done (set_title s b)
            else Done b) ;;
      exthRecords n' (currRecPos + Z.to_nat recLen) b
  end.

Section Book.
Variable ndebug : bool.
(** The width of [size_t] in bits. *)
Variable size_bits : Z.
Variable f : File.

Definition size_t (z : Z) : Z := wrap size_bits z.

(** Lines 792-811.  The result is that of the C function and the book
    with the slot filled, if it is.  [IsEofRecord], [KnownNonImageRec] and
    [memdup] stay inside the [imgDataLen] bytes of the record;
    [ImageType] is handed the read buffer. *)
Definition loadImage (b : MobiBook) (imageNo : Z) : outcome (bool * MobiBook) :=
  let imageRec := imageFirstRec b + imageNo in
  r <- readRecord f b imageRec ;;
  match r with
  | None => Done (true, b)
  | Some imgData =>
      let imgDataLen := length imgData in
      let b := readInto imgData b in
      if (imgDataLen =? 0)%nat then Done (true, b) else
      eof <- IsEofRecord imgData ;;
      if eof then Done (false, b) else
      known <- KnownNonImageRec imgData ;;
      if known then Done (true, b) else
      match images b with
      | None => Undefined
      | Some arr =>
          if (Z.to_nat imageNo <? length arr)%nat then
            match ImageType (recordBuffer imgDataLen b) with
            | None => Undefined
            | Some ext =>
                let img := mkImageData (Some imgData)
                             (Z.of_nat imgDataLen) (Some ext) in
                Done (true, set_images
                              (Some (store arr (Z.to_nat imageNo) [img])) b)
            end
          else Undefined
      end
  end.

(** Lines 818-821: the slots [i, i + n). *)
Fixpoint loadImagesFrom (n : nat) (i : Z) (b : MobiBook) : outcome MobiBook :=
  match n with
  | O => Done b
  | S n' =>
      r <- loadImage b i ;;
      let '(more, b') := r in
      if more then loadImagesFrom n' (i + 1) b' else Done b'
  end.

(** Lines 813-822. *)
Definition loadImages (b : MobiBook) : outcome MobiBook :=
  if 0 =? imagesCount b then Done b else
  let n := Z.to_nat (imagesCount b) in
  loadImagesFrom n 0 (set_images (Some (repeat emptyImage n)) b).

(** Lines 523-565: the PalmDB header and the record table. *)
Definition parsePdbHeader (b : MobiBook) : outcome Stage :=
  match fread f 0 kPdbHeaderLen with
  | None => Done ReturnFalse
  | Some pdbHeader =>
      isM <- strncmp (skipn pdbTypeOffset pdbHeader)
               (literal MOBI_TYPE_CREATOR) 8 ;;
      known <- (if isM =? 0 then Done (Some true)
                else
                  isP <- strncmp (skipn pdbTypeOffset pdbHeader)
                           (literal PALMDOC_TYPE_CREATOR) 8 ;;
                  Done (if isP =? 0 then Some false else None)) ;;
      match known with
      | None => Done ReturnFalse
      | Some mobi =>
          pdbHeader <- SwapU16 pdbHeader pdbNumRecordsOffset ;;
          n <- nativeU16 pdbHeader pdbNumRecordsOffset ;;
          if n <? 1 then Done ReturnFalse else
          match fread f kPdbHeaderLen (kPdbRecordHeaderLen * Z.to_nat n) with
          | None => Done ReturnFalse
          | Some raw =>
              offs <- swapOffsets raw 0 (Z.to_nat n) ;;
              let fileSize := Z.of_nat (length (contents f)) in
              let offs := (offs ++ [u32 fileSize])%list in
              if negb (offsetsValid offs) then Done ReturnFalse else
              Done (Go (set_recHeaders offs
                          (set_numRecords n (set_isMobi mobi b))))
          end
      end
  end.

(** Lines 567-610: record 0 and the PalmDOC header.  [recLeft] after
    line 581 is the second component.  [firstRecData] is a copy of the
    [recLeft] bytes of the record (line 575), an object of its own. *)
Definition parsePalmDocHeader (b : MobiBook) : outcome (Stage * Z) :=
  r <- readRecord f b 0 ;;
  match r with
  | None => Done (ReturnFalse, 0)
  | Some buf =>
      let b := readInto buf b in
      assert ndebug (match firstRecData b with [] => true | _ => false end) ;;;
      let recLeft := size_t (Z.of_nat (length buf) - kPalmDocHeaderLen) in
      mem <- SwapU16 buf 0 ;;
      mem <- SwapU32 mem 4 ;;
      mem <- SwapU16 mem 8 ;;
      mem <- SwapU16 mem 10 ;;
      compression <- nativeU16 mem 0 ;;
      if negb (IsValidCompression compression) then Done (ReturnFalse, 0) else
      encrypted <- (if isMobi b then
                      encrType <- nativeU16 mem 12 ;;
                      Done (negb (encrType =? ENCRYPTION_NONE))
                    else Done false) ;;
      if encrypted : bool then Done (ReturnFalse, 0) else
      recordsCount <- nativeU16 mem 8 ;;
      uncompressedDocSize <- nativeU32 mem 4 ;;
      let b := set_compressionType compression
                 (set_docUncompressedSize uncompressedDocSize
                    (set_docRecCount recordsCount
                       (set_firstRecData mem b))) in
      if 0 =? recLeft then
        assert ndebug (negb (isMobi b)) ;;;
        Done (ReturnTrue b, recLeft)
      else if recLeft <? 8 then Done (ReturnFalse, recLeft)
      else Done (Go b, recLeft)
  end.

(** Lines 612-667: the MOBI header, which starts at offset 16 of record
    0.  The fields are swapped in [firstRecData] itself and read from
    there.  The result carries [currRecPos] after line 654. *)
Definition parseMobiHeader (b : MobiBook) (recLeft : Z) : outcome (Stage * nat) :=
  let base := Z.to_nat kPalmDocHeaderLen in
  cmp <- strncmp (literal MOBI) (skipn base (firstRecData b)) 4 ;;
  if negb (cmp =? 0) then Done (ReturnFalse, O) else
  mem <- swapFields32 (firstRecData b) base mobiSwapped32 ;;
  mem <- SwapU16 mem (base + mobi_firstContentRecord) ;;
  mem <- SwapU16 mem (base + mobi_lastContentRecord) ;;
  loc <- nativeU32 mem (base + mobi_locale) ;;
  fullNameOffset <- nativeU32 mem (base + mobi_fullNameOffset) ;;
  fullNameLen <- nativeU32 mem (base + mobi_fullNameLen) ;;
  name <- slice mem (Z.to_nat fullNameOffset) (Z.to_nat fullNameLen) ;;
  enc <- nativeU32 mem (base + mobi_textEncoding) ;;
  let b := set_textEncoding enc
             (set_title (title b ++ name)
                (set_locale loc (set_firstRecData mem b))) in
  first <- nativeU32 mem (base + mobi_imageFirstRec) ;;
  last <- nativeU16 mem (base + mobi_lastContentRecord) ;;
  let b := if first <? numRecords b then
             set_imagesCount (if 0 =? first then 0 else u32 (last - first + 1))
               (set_imageFirstRec first b)
           else b in
  hdrLen <- nativeU32 mem (base + mobi_hdrLen) ;;
  if recLeft <? hdrLen then Done (ReturnFalse, O) else
  let currRecPos := (base + Z.to_nat hdrLen)%nat in
  if 228 <=? hdrLen then
    mem <- SwapU16 mem (base + mobi_extraDataFlags) ;;
    flags <- nativeU16 mem (base + mobi_extraDataFlags) ;;
    Done (Go (set_trailersCount (countTrailers 16 flags (trailersCount b))
                (set_multibyte (negb (Z.land flags 1 =? 0))
                   (set_firstRecData mem b))),
          currRecPos)
  else Done (Go b, currRecPos).

(** Lines 669-708: the EXTH header and its records. *)
Definition parseExth (b : MobiBook) (currRecPos : nat) : outcome Stage :=
  let base := Z.to_nat kPalmDocHeaderLen in
  flags <- nativeU32 (firstRecData b) (base + mobi_exhtFlags) ;;
  if Z.land flags 64 =? 0 then Done (Go b) else
  cmp <- strncmp (literal EXTH) (skipn currRecPos (firstRecData b)) 4 ;;
  if negb (cmp =? 0) then Done ReturnFalse else
  mem <- SwapU32 (firstRecData b) (currRecPos + 4) ;;
  mem <- SwapU32 mem (currRecPos + 8) ;;
  recCount <- nativeU32 mem (currRecPos + 8) ;;
  b <- exthRecords (Z.to_nat recCount) (currRecPos + 12)
         (set_firstRecData mem b) ;;
  Done (Go b).

(** Lines 725-731.  [AddCdicData] is handed the read buffer. *)
Fixpoint addCdics (n : nat) (recNo : Z) (b : MobiBook) (hd : HuffDicDecompressor)
  : outcome (option (HuffDicDecompressor * MobiBook)) :=
  match n with
  | O => Done (Some (hd, b))
  | S n' =>
      r <- readRecord f b recNo ;;
      match r with
      | None => Done None
      | Some recData =>
          let recSize := length recData in
          let b := readInto recData b in
          a <- AddCdicDataIn ndebug hd (recordBuffer recSize b)
                 (u32 (Z.of_nat recSize)) ;;
          let '(ok, hd', mem) := a in
          let b := set_recordBuffer recSize mem b in
          if ok : bool then addCdics n' (recNo + 1) b hd' else Done None
      end
  end.

(** The fields that lines 425-427 swap: [hdrLen], [cacheOffset] and
    [baseTableOffset] of [HuffHeader]. *)
Definition huffSwapped32 : list nat := [4; 8; 12]%nat.

(** Lines 711-732.  [SetHuffData] is handed the read buffer; it looks at
    nothing behind the record (line 421 comes first and line 438 copies
    the record), and where it returns true it has swapped the three
    fields of the header in the buffer itself. *)
Definition loadHuffDic (b : MobiBook) : outcome Stage :=
  let base := Z.to_nat kPalmDocHeaderLen in
  compression <- nativeU16 (firstRecData b) 0 ;;
  if negb (compression =? COMPRESSION_HUFF) then Done (Go b) else
  assert ndebug (isMobi b) ;;;
  huffmanFirstRec <- nativeU32 (firstRecData b) (base + mobi_huffmanFirstRec) ;;
  r <- readRecord f b huffmanFirstRec ;;
  match r with
  | None => Done ReturnFalse
  | Some recData =>
      let recSize := length recData in
      let b := readInto recData b in
      huffmanRecCount <-
        nativeU32 (firstRecData b) (base + mobi_huffmanRecCount) ;;
      let cdicsCount := u32 (huffmanRecCount - 1) in
      assert ndebug (cdicsCount <=? kCdicsMax) ;;;
      if kCdicsMax <? cdicsCount then Done ReturnFalse else
      assert ndebug (match huffDic b with None => true | Some _ => false end) ;;;
      s <- SetHuffData ndebug newHuffDic recData ;;
      let '(ok, hd) := s in
      if negb ok then Done ReturnFalse else
      mem <- swapFields32 (recordBuffer recSize b) 0 huffSwapped32 ;;
      let b := set_recordBuffer recSize mem b in
      d <- addCdics (Z.to_nat cdicsCount) (huffmanFirstRec + 1) b hd ;;
      match d with
      | None => Done ReturnFalse
      | Some (hd', b) => Done (Go (set_huffDic (Some hd') b))
      end
  end.

(** Lines 520-732: everything [parseHeader] does before it loads the
    images. *)
Definition headerStages (b : MobiBook) : outcome Stage :=
  s <- parsePdbHeader b ;;
  match s with
  | Go b =>
      s <- parsePalmDocHeader b ;;
      match s with
      | (Go b, recLeft) =>
          s <- parseMobiHeader b recLeft ;;
          match s with
          | (Go b, currRecPos) =>
              s <- parseExth b currRecPos ;;
              match s with
              | Go b => loadHuffDic b
              | s => Done s
              end
          | (s, _) => Done s
          end
      | (s, _) => Done s
      end
  | s => Done s
  end.

(** Lines 520-736.  [None] is [return false]. *)
Definition parseHeader (b : MobiBook) : outcome (option MobiBook) :=
  s <- headerStages b ;;
  match s with
  | ReturnFalse => Done None
  | ReturnTrue b => Done (Some b)
  | Go b =>
      b <- loadImages b ;;
      Done (Some b)
  end.
End Book.

Section Document.
Variable ndebug : bool.
Variable size_bits : Z.
Variable f : File.

Let size_t := size_t size_bits.

(** Lines 910-916: the four bytes before [newLen], as a 7-bit-per-byte
    number that restarts at a byte with the high bit set. *)
Fixpoint trailerValue (recData : list byte) (newLen : Z) (j trips : nat) (n : Z)
  : outcome Z :=
  match trips with
  | O => Done n
  | S trips' =>
      v <- load recData (Z.to_nat (size_t (newLen - 4 + Z.of_nat j))) ;;
      let n := if negb (0 =? Z.land (val v) 128) then 0 else n in
      trailerValue recData newLen (S j) trips'
        (u32 (Z.lor (Z.shiftl n 7) (Z.land (val v) 127)))
  end.

(** Lines 908-919. *)
Fixpoint stripTrailers (trips : nat) (recData : list byte) (newLen : Z)
  : outcome Z :=
  match trips with
  | O => Done newLen
  | S trips' =>
      assert ndebug (4 <? newLen) ;;;
      n <- trailerValue recData newLen 0 4 0 ;;
      assert ndebug (n <? newLen) ;;;
      stripTrailers trips' recData (size_t (newLen - n))
  end.

(** Lines 921-928. *)
Definition stripMultibyte (recData : list byte) (newLen : Z) : outcome Z :=
  assert ndebug (0 <? newLen) ;;;
  if 0 <? newLen then
    v <- load recData (Z.to_nat (size_t (newLen - 1))) ;;
    let n := Z.land (val v) 3 + 1 in
    assert ndebug (n <=? newLen) ;;;
    Done (size_t (newLen - n))
  else Done newLen.

(** Lines 905-930. *)
Definition ExtraDataSize (recData : list byte) (recLen trailersCount : Z)
    (multibyte : bool) : outcome Z :=
  newLen <- stripTrailers (Z.to_nat trailersCount) recData recLen ;;
  newLen <- (if multibyte then stripMultibyte recData newLen
             else Done newLen) ;;
  Done (size_t (recLen - newLen)).

(** [sizeof(buf)] at lines 948 and 959. *)
Definition bufSize : nat := Z.to_nat 6000.

(** Lines 934-974.  [fuel] bounds the HUFF/CDIC decoder.  [recData] is
    the read buffer: [ExtraDataSize], [append] and the two decoders are
    handed the buffer and a length, and what they read behind the record
    is what the buffer holds there. *)
Definition loadDocRecordIntoBuffer (fuel : nat) (b : MobiBook) (recNo : Z)
  : outcome (bool * MobiBook) :=
  r <- readRecord f b recNo ;;
  match r with
  | None => Done (false, b)
  | Some record =>
      let b := readInto record b in
      let recData := recordBuffer (length record) b in
      extraSize <- ExtraDataSize recData (Z.of_nat (length record))
                     (trailersCount b) (multibyte b) ;;
      let recSize := size_t (Z.of_nat (length record) - extraSize) in
      if COMPRESSION_NONE =? compressionType b then
        bytes <- slice recData 0 (Z.to_nat recSize) ;;
        Done (true, set_doc (doc b ++ bytes) b)
      else if COMPRESSION_PALM =? compressionType b then
        r <- PalmdocUncompress ndebug recData (Z.to_nat recSize) bufSize ;;
        match r with
        | MinusOne => Done (false, b)
        | Count bytes => Done (true, set_doc (doc b ++ bytes) b)
        end
      else if COMPRESSION_HUFF =? compressionType b then
        assert ndebug (match huffDic b with Some _ => true | None => false end) ;;;
        match huffDic b with
        | None => Done (false, b)
        | Some hd =>
            r <- Decompress ndebug fuel hd recData (Z.to_nat recSize) bufSize ;;
            match r with
            | MinusOne => Done (false, b)
            | Count bytes => Done (true, set_doc (doc b ++ bytes) b)
            end
        end
      else
        assert ndebug false ;;;
        Done (false, b)
  end.

(** Lines 986-989: the records [i, i + n). *)
Fixpoint loadDocRecords (fuel : nat) (n : nat) (i : Z) (b : MobiBook)
  : outcome (bool * MobiBook) :=
  match n with
  | O => Done (true, b)
  | S n' =>
      r <- loadDocRecordIntoBuffer fuel b i ;;
      let '(ok, b') := r in
      if ok then loadDocRecords fuel n' (i + 1) b' else Done (false, b')
  end.

(** Lines 981-1000. *)
Definition loadDocument (fuel : nat) (b : MobiBook) : outcome (bool * MobiBook) :=
  assert ndebug (0 <? docUncompressedSize b) ;;;
  r <- loadDocRecords fuel (Z.to_nat (docRecCount b)) 1 b ;;
  let '(ok, b') := r in
  if negb ok then Done (false, b') else
  assert ndebug (docUncompressedSize b' =? Z.of_nat (length (doc b'))) ;;;
  Done (true, b').

(** Lines 1002-1018, for a file that [fopen] opens.  [None] is NULL. *)
Definition createFromFile (fuel : nat) : outcome (option MobiBook) :=
  p <- parseHeader ndebug size_bits f newMobiBook ;;
  match p with
  | None => Done None
  | Some mb =>
      r <- loadDocument fuel mb ;;
      let '(ok, mb') := r in
      if ok : bool then Done (Some mb') else Done None
  end.
End Document.

(** * The PalmDOC decoding table of the specification *)

(** The five rows of the table of spec 4.4, chosen by the source byte. *)
Inductive Action : Type :=
| EmitNul
| CopyLiterals (c : nat)
| EmitLiteral (c : Z)
| BackReference (c : Z)
| SpaceThen (c : Z).

Definition decodingTable (c : Z) : Action :=
  if c =? 0 then EmitNul
  else if c <=? 8 then CopyLiterals (Z.to_nat c)
  else if c <=? 127 then EmitLiteral c
  else if c <=? 191 then BackReference c
  else SpaceThen c.

(** A copy of [n] bytes from [back] bytes before the end of [out] that may
    run into the bytes it writes: byte [j] of the copy is byte [j mod back]
    of the last [back] bytes of [out]. *)
Definition overlappingCopy (out : list byte) (back n : nat) : list byte :=
  map (fun j => nth (length out - back + j mod back) out x00) (seq 0 n).

(** What a row does, given the source bytes [rest] that follow [c] and the
    output [out] so far: how many bytes of [rest] it takes and the output
    after it.  [None] where the table does not say (a run or a pair cut
    short by the end of the source, a distance that is zero or reaches
    before the first output byte). *)
Definition perform (a : Action) (rest out : list byte) : option (nat * list byte) :=
  match a with
  | EmitNul => Some (O, out ++ [x00])
  | CopyLiterals c =>
      if (c <=? length rest)%nat then Some (c, out ++ firstn c rest) else None
  | EmitLiteral c => Some (O, out ++ [u8 c])
  | BackReference c =>
      match rest with
      | [] => None
      | b :: _ =>
          let w := 256 * c + val b in
          let back := Z.to_nat (Z.land (Z.shiftr w 3) 2047) in
          let n := Z.to_nat (Z.land w 7 + 3) in
          if (1 <=? back)%nat && (back <=? length out)%nat
          then Some (1%nat, out ++ overlappingCopy out back n)
          else None
      end
  | SpaceThen c => Some (O, out ++ [x20; u8 (Z.lxor c 128)])
  end.


(** [palmdoc_uncompress(src)] as spec 4.4 describes it, the table applied
    byte by byte: the row of the first byte is performed on the bytes
    after it, the bytes it takes are passed over, and so on until the
    source is used up; there is no output where a row has none.  A row
    starts at every trip, so as many trips as the source has bytes are
    enough (shown below: [tableDecode_trips]). *)
Fixpoint tableDecode (trips : nat) (rest out : list byte) : option (list byte) :=
  match rest with
  | [] => Some out
  | c :: rest' =>
      match trips with
      | O => None
      | S trips' =>
          match perform (decodingTable (val c)) rest' out with
          | Some (k, out') => tableDecode trips' (skipn k rest') out'
          | None => None
          end
      end
  end.



(** * The error conditions of the PalmDOC decompressor *)


(** The destination is exhausted at a state: no byte is free, or the
    literal run or the space pair that starts here needs more bytes than
    are free. *)
Definition destinationExhausted (src : list byte) (dstLen : nat)
    (st : PalmdocState) : bool :=
  let free := (dstLen - length (written st))%nat in
  (free =? 0)%nat
  || match nth_error src (srcPos st) with
     | Some b =>
         ((1 <=? val b) && (val b <=? 8) && (free <? Z.to_nat (val b))%nat)
         || ((192 <=? val b) && (free <? 2)%nat)
     | None => false
     end.




(** * Cover selection as the specification words it *)

(** A slot holds a loaded image. *)
Definition loaded (img : ImageData) : bool :=
  match data img with
  | Some _ => true
  | None => false
  end.

(** The larger, by byte length, of the first two slots that hold an image
    (the first of them if they are equally long); nothing if neither
    does. *)
Definition largerOfFirstTwo (arr : list ImageData) : option nat :=
  let size img := if loaded img then len img else 0 in
  match arr with
  | [] => None
  | [a] => if 0 <? size a then Some 0%nat else None
  | a :: b :: _ =>
      if size a <? size b then Some 1%nat
      else if 0 <? size a then Some 0%nat
      else None
  end.

(** Spec 4.7: if an EXTH 201 cover index exists and points at a loaded
    image, that image is the cover; otherwise the cover is the larger of
    the first two loaded images; if neither exists, no cover. *)
Definition specifiedCover (b : MobiBook) : option nat :=
  let arr := match images b with Some arr => arr | None => [] end in
  let pointsAtLoaded :=
    (0 <=? coverImage b)
    && match nth_error arr (Z.to_nat (coverImage b)) with
       | Some img => loaded img
       | None => false
       end in
  if pointsAtLoaded then Some (Z.to_nat (coverImage b))
  else largerOfFirstTwo arr.

(** What [loadImages] leaves behind: an array of [imagesCount] slots, each
    empty or holding the bytes of a record that is not empty. *)
Definition slotWellFormed (img : ImageData) : Prop :=
  match data img with
  | None => len img = 0
  | Some d => len img = Z.of_nat (length d) /\ d <> []
  end.

Definition imagesWellFormed (b : MobiBook) : Prop :=
  match images b with
  | None => imagesCount b = 0
  | Some arr =>
      Z.of_nat (length arr) = imagesCount b /\ Forall slotWellFormed arr
  end.

(** The read of the record of image slot [k] fails, or the record has
    length zero. *)
Definition imageUnreadable (f : File) (b : MobiBook) (k : nat) : Prop :=
  readRecord f b (imageFirstRec b + Z.of_nat k) = Done None
  \/ readRecord f b (imageFirstRec b + Z.of_nat k) = Done (Some []).

(** Slot [k] of the image array, if there is an array and it has one. *)
Definition imageSlot (b : MobiBook) (k : nat) : option ImageData :=
  match images b with
  | Some arr => nth_error arr k
  | None => None
  end.

(** * Concrete files *)

Definition zeros (n : nat) : list byte := repeat x00 n.
Definition be16 (v : Z) : list byte := [u8 (Z.shiftr v 8); u8 v].
Definition be32 (v : Z) : list byte :=
  [u8 (Z.shiftr v 24); u8 (Z.shiftr v 16); u8 (Z.shiftr v 8); u8 v].

(** No read fails. *)
Definition noError : nat -> nat -> bool := fun _ _ => false.

Definition patch (mem : list byte) (fields : list (nat * list byte)) : list byte :=
  fold_left (fun m fld => store m (fst fld) (snd fld)) fields mem.

Fixpoint recordHeaders (start : nat) (records : list (list byte)) : list byte :=
  match records with
  | [] => []
  | r :: rest =>
      be32 (Z.of_nat start) ++ zeros 4 ++ recordHeaders (start + length r) rest
  end.

(** A PalmDB file with the given type and creator and the given records. *)
Definition pdbFile (typeCreator : list byte) (records : list (list byte))
  : list byte :=
  let n := length records in
  zeros 60 ++ typeCreator ++ zeros 8 ++ be16 (Z.of_nat n)
  ++ recordHeaders (kPdbHeaderLen + kPdbRecordHeaderLen * n) records
  ++ concat records.

Definition palmDocHeader (compression size recordsCount : Z) : list byte :=
  be16 compression ++ zeros 2 ++ be32 size ++ be16 recordsCount
  ++ be16 4096 ++ zeros 4.

(** A 232-byte MOBI header, UTF-8, locale 1033. *)
Definition mobiHeader (fullNameOffset fullNameLen imageFirstRec exthFlags
                       lastContentRecord extraDataFlags : Z) : list byte :=
  patch (zeros 232)
    [(0, MOBI); (4, be32 232); (8, be32 2); (12, be32 65001);
     (68, be32 fullNameOffset); (72, be32 fullNameLen); (76, be32 1033);
     (92, be32 imageFirstRec); (112, be32 exthFlags);
     (176, be16 1); (178, be16 lastContentRecord);
     (226, be16 extraDataFlags)]%nat.

Definition exthRecord (type : Z) (payload : list byte) : list byte :=
  be32 type ++ be32 (8 + Z.of_nat (length payload)) ++ payload.

Definition exth (records : list (list byte)) : list byte :=
  EXTH ++ be32 (12 + Z.of_nat (length (concat records)))
  ++ be32 (Z.of_nat (length records)) ++ concat records.

(** Record 0 of a MOBI file with uncompressed text: the two headers, the
    EXTH block if there are EXTH records, and the full name. *)
Definition mobiRecord0 (size recordsCount imageFirstRec lastContentRecord
                        extraDataFlags : Z)
    (exthRecords : list (list byte)) (fullName : list byte) : list byte :=
  let ex := match exthRecords with [] => [] | _ => exth exthRecords end in
  palmDocHeader COMPRESSION_NONE size recordsCount
  ++ mobiHeader (16 + 232 + Z.of_nat (length ex)) (Z.of_nat (length fullName))
       imageFirstRec (match exthRecords with [] => 0 | _ => 64 end)
       lastContentRecord extraDataFlags
  ++ ex ++ fullName.

Definition Hello : list byte := [x48; x65; x6c; x6c; x6f].
Definition Title : list byte := [x54; x69; x74; x6c; x65].
Definition jpegBytes : list byte := JPG_MAGIC ++ [x00; x10; x4a; x46].
Definition flisBytes : list byte := [x46; x4c; x49; x53; x00; x00; x00; x08].

(** A PalmDOC file that declares 100 bytes of text and holds the five
    bytes "Hello" in its one text record. *)
Definition shortBodyFile : File :=
  mkFile (pdbFile PALMDOC_TYPE_CREATOR
            [palmDocHeader COMPRESSION_NONE 100 1; Hello]) noError.

(** A MOBI file whose one EXTH record is an author (type 100) with the
    four payload bytes 'A', NUL, 'B', 'C'. *)
Definition nulAuthorFile : File :=
  mkFile (pdbFile MOBI_TYPE_CREATOR
            [mobiRecord0 5 1 2 1 0
               [exthRecord 100 [x41; x00; x42; x43]] Title;
             Hello]) noError.

(** A MOBI file whose one EXTH record is an author (type 100) with the
    payload "A", followed at once by the full name "Title". *)
Definition unterminatedAuthorFile : File :=
  mkFile (pdbFile MOBI_TYPE_CREATOR
            [mobiRecord0 5 1 2 1 0 [exthRecord 100 [x41]] (Title ++ [x00]);
             Hello]) noError.

(** Scenario 3 of spec 8: author "Jane Doe", publisher "ACME Press",
    title "Real Title" and cover index 2, with three image records. *)
Definition scenario3File : File :=
  mkFile (pdbFile MOBI_TYPE_CREATOR
            [mobiRecord0 5 1 2 4 0
               [exthRecord 100 [x4a; x61; x6e; x65; x20; x44; x6f; x65];
                exthRecord 101
                  [x41; x43; x4d; x45; x20; x50; x72; x65; x73; x73];
                exthRecord 503
                  [x52; x65; x61; x6c; x20; x54; x69; x74; x6c; x65];
                exthRecord 201 (be32 2)] Title;
             Hello; jpegBytes; jpegBytes ++ [x01]; jpegBytes ++ [x02; x03]])
         noError.

(** A MOBI file with two image records, a JPEG and an FLIS marker, and an
    EXTH 201 record that names the second as the cover. *)
Definition markerCoverFile : File :=
  mkFile (pdbFile MOBI_TYPE_CREATOR
            [mobiRecord0 5 1 2 3 0 [exthRecord 201 (be32 1)] Title;
             Hello; jpegBytes; flisBytes]) noError.

(** A MOBI file with two image records, the first of length zero. *)
Definition emptyImageFile : File :=
  mkFile (pdbFile MOBI_TYPE_CREATOR
            [mobiRecord0 5 1 2 3 0 [] Title; Hello; []; jpegBytes]) noError.

(** The same two image records, the first a JPEG whose read fails: record
    2 starts at offset 368 of the file. *)
Definition unreadableImageFile : File :=
  mkFile (pdbFile MOBI_TYPE_CREATOR
            [mobiRecord0 5 1 2 3 0 [] Title; Hello; jpegBytes; jpegBytes])
         (fun off _ => (off =? 368)%nat).

(** A text record of four bytes whose last byte, read as a trailer size,
    is 127, and a file that holds it under trailer flags 2 (one trailer
    per record). *)
Definition longTrailerRecord : list byte := [x00; x00; x00; x7f].

Definition longTrailerFile : File :=
  mkFile (pdbFile MOBI_TYPE_CREATOR
            [mobiRecord0 4 1 2 1 2 [] Title; longTrailerRecord]) noError.

(** A HUFF record as the format has it: tag, header length 24, the two
    tables at 24 and 1048, their little-endian copies after them. *)
Definition wellFormedHuff : list byte :=
  HUFF ++ be32 24 ++ be32 24 ++ be32 1048 ++ be32 1304 ++ be32 2328
  ++ zeros 2560.

(** A one-symbol dictionary for code length 1: both index entries point
    at offset 4, where the literal symbol "A" is stored. *)
Definition oneSymbolDict : list byte :=
  be16 4 ++ be16 4 ++ be16 32769 ++ [x41; x00].

(** A CDIC record as the format has it: tag, header length 16, code
    length 1, and the dictionary. *)
Definition wellFormedCdic : list byte :=
  CDIC ++ be32 16 ++ be32 1 ++ be32 1 ++ oneSymbolDict.

(** The same records under tags that are not the required ones. *)
Definition mistaggedHuff : list byte := store wellFormedHuff 0 [x58].
Definition mistaggedCdic : list byte := store wellFormedCdic 0 [x58].

(** The records of scenario 4 of spec 8, under tags that are not the
    required ones: a HUFF record whose cache entry 0 is terminal with code
    length 8 and value 0, and a CDIC record with code length 8 whose
    symbol 0 is the literal "A". *)
Definition scenario4Huff : list byte :=
  [x58; x55; x46; x46] ++ be32 24 ++ be32 24 ++ be32 1048 ++ be32 1304
  ++ be32 2328 ++ be32 136 ++ zeros 2556.

Definition scenario4Cdic : list byte :=
  [x58; x44; x49; x43] ++ be32 16 ++ be32 1 ++ be32 8
  ++ be16 512 ++ zeros 510 ++ be16 32769 ++ [x41].

Definition scenario4Decoder : outcome (option HuffDicDecompressor) :=
  r <- SetHuffData true newHuffDic scenario4Huff ;;
  if fst r then
    r <- AddCdicData true (snd r) scenario4Cdic ;;
    Done (if fst r then Some (snd r) else None)
  else Done None.

(** The book of a file after the stages before image loading, and after
    image loading. *)
Definition stagedBook (f : File) : MobiBook :=
  match headerStages true 64 f newMobiBook with
  | Done (Go b) => b
  | _ => newMobiBook
  end.

Definition loadedBook (f : File) : MobiBook :=
  match loadImages f (stagedBook f) with
  | Done b => b
  | _ => newMobiBook
  end.

(** A book with a JPEG in slot 0, an empty slot 1 and cover index 1, and
    the same book without a cover index. *)
Definition markerCoverBook : MobiBook :=
  set_images
    (Some [mkImageData (Some jpegBytes) 8 (Some jpg); emptyImage])
    (set_imagesCount 2 (set_coverImage 1 newMobiBook)).

Definition noCoverIndexBook : MobiBook := set_coverImage (-1) markerCoverBook.

(** * Further definitions *)

(** The number a byte string denotes, most significant byte first. *)
Definition bigEndian (bs : list byte) : Z :=
  fold_left (fun acc b => 256 * acc + val b) bs 0.

(** The four-byte signatures of records that are not images (lines
    739-744). *)
Definition nonImageTags : list (list byte) :=
  [[x46; x4c; x49; x53]; [x46; x43; x49; x53]; [x46; x44; x53; x54];
   [x44; x41; x54; x50]; [x53; x52; x43; x53]; [x56; x49; x44; x45]].

(** The end-of-file marker record (line 738). *)
Definition eofRecord : list byte := [xe9; x8e; x0d; x0a].

Definition bytes_eq_dec (a b : list byte) : {a = b} + {a <> b} :=
  list_eq_dec Byte.byte_eq_dec a b.

(** The extension that goes with the first four bytes of a record. *)
Definition extensionByMagic (d : list byte) : Extension :=
  if bytes_eq_dec (firstn 4 d) JPG_MAGIC then jpg
  else if bytes_eq_dec (firstn 4 d) PNG_MAGIC then png
  else if bytes_eq_dec (firstn 4 d) GIF_MAGIC then gif
  else bin.


(** The big-endian number held in the [n] bytes at offset [off]. *)
Definition bigEndianAt (l : list byte) (off n : nat) : Z :=
  bigEndian (firstn n (skipn off l)).

(** How many of the [n] bits of [z] from bit [lo] upwards are set. *)
Definition bitsSet (lo n : nat) (z : Z) : Z :=
  Z.of_nat (length (filter (fun i => Z.testbit z (Z.of_nat i)) (seq lo n))).




(** The book after the records [recs] were read one after the other:
    only the read buffers change. *)
Definition readAll (recs : list (list byte)) (b : MobiBook) : MobiBook :=
  fold_left (fun b d => readInto d b) recs b.

(** Fields of four bytes at the offsets [offs], no two of which
    overlap. *)
Fixpoint fieldsApart (offs : list nat) : Prop :=
  match offs with
  | [] => True
  | o :: rest =>
      Forall (fun o' => (o + 4 <= o' \/ o' + 4 <= o)%nat) rest
      /\ fieldsApart rest
  end.

(** The book of a file and what is left of record 0 after the PalmDB and
    PalmDOC stages of [parseHeader]. *)
Definition palmDocStaged (f : File) : MobiBook * Z :=
  match parsePdbHeader f newMobiBook with
  | Done (Go b) =>
      match parsePalmDocHeader true 64 f b with
      | Done (Go b1, recLeft) => (b1, recLeft)
      | _ => (newMobiBook, 0)
      end
  | _ => (newMobiBook, 0)
  end.

(** The second book has the record table, the kind and the compression
    type of the first. *)
Definition keepsTable (b b' : MobiBook) : Prop :=
  numRecords b' = numRecords b
  /\ recHeaders b' = recHeaders b
  /\ isMobi b' = isMobi b
  /\ compressionType b' = compressionType b.

(** A book in the state before [loadHuffDic] whose record 0 declares
    HUFF/CDIC compression with the Huffman record at record 1, and a file
    whose record 1 is a HUFF record as the format has it. *)
Definition huffRecord0 : list byte :=
  [x48; x44] ++ zeros 110 ++ [x01; x00; x00; x00] ++ [x01; x00; x00; x00].

Definition huffFile : File :=
  mkFile (pdbFile MOBI_TYPE_CREATOR [huffRecord0; wellFormedHuff]) noError.

Definition huffBook : MobiBook :=
  set_firstRecData huffRecord0
    (set_recHeaders [94; 214; 2798]
       (set_numRecords 2 (set_isMobi true newMobiBook))).

(** A MOBI file with two image records: the six bytes "GIF89a" and the
    three bytes "GIF". *)
Definition shortImageFile : File :=
  mkFile (pdbFile MOBI_TYPE_CREATOR
            [mobiRecord0 5 1 2 3 0 [] Title; Hello;
             GIF_MAGIC ++ [x39; x61]; [x47; x49; x46]]) noError.

(** A PalmDOC file with compressed text whose one text record announces
    a run of two literal bytes and holds one, "A". *)
Definition shortRunFile : File :=
  mkFile (pdbFile PALMDOC_TYPE_CREATOR
            [palmDocHeader COMPRESSION_PALM 2 1; [x02; x41]]) noError.

(** * Basic facts *)

Lemma val_range (b : byte) : 0 <= val b < 256.
Proof.
  unfold val. pose proof (Byte.to_N_bounded b). lia.
Qed.

Lemma u8_val (b : byte) : u8 (val b) = b.
Proof.
  unfold u8. rewrite Z.mod_small by apply val_range.
  unfold val. rewrite N2Z.id, Byte.of_to_N. reflexivity.
Qed.

Lemma load_Some {A : Type} (l : list A) (i : nat) (a : A) :
  nth_error l i = Some a -> load l i = Done a.
Proof. unfold load. intros ->. reflexivity. Qed.




(** * PalmDOC decompression *)



Lemma copyLiterals_advances (src : list byte) (c : nat) (st st' : PalmdocState) :
  copyLiterals src c st = Done st' -> (srcPos st <= srcPos st')%nat.
Proof.
  revert st. induction c as [|c IH]; intros st H; simpl in H.
  - injection H as <-. lia.
  - destruct (load src (srcPos st)); simpl in H; try discriminate.
    apply IH in H. simpl in H. lia.
Qed.

Lemma copyLiterals_fuel (src : list byte) (c : nat) (st : PalmdocState) :
  copyLiterals src c st <> OutOfFuel.
Proof.
  revert st. induction c as [|c IH]; intros st; simpl.
  - discriminate.
  - destruct (load src (srcPos st)) eqn:E; simpl; try discriminate.
    + apply IH.
    + unfold load in E. destruct (nth_error src (srcPos st)); discriminate.
Qed.

Lemma copyBack_fuel (dstLen n back : nat) (out : list byte) :
  copyBack dstLen n back out <> OutOfFuel.
Proof.
  revert out. induction n as [|n IH]; intros out; simpl.
  - discriminate.
  - destruct (length out <? back)%nat; [discriminate|].
    destruct (dstLen <=? length out)%nat; [discriminate|].
    unfold load. destruct (nth_error out (length out - back)); simpl.
    + apply IH.
    + discriminate.
Qed.






Lemma assert_ndebug (cond : bool) : assert true cond = Done tt.
Proof. reflexivity. Qed.







(** ** The loop *)

Lemma PalmdocBody_advances (ndebug : bool) (src : list byte) (srcLen dstLen : nat)
    (st st' : PalmdocState) :
  PalmdocBody ndebug src srcLen dstLen st = Done (Continue st') ->
  (srcPos st < srcPos st')%nat.
Proof.
  unfold PalmdocBody, assert, load.
  destruct ndebug;
    repeat match goal with
      | |- context [if ?b then _ else _] => destruct b eqn:?
      | |- context [match nth_error ?l ?i with _ => _ end] =>
          destruct (nth_error l i) eqn:?
      | |- context [bind (copyLiterals ?a ?b ?c) _] =>
          destruct (copyLiterals a b c) eqn:?
      | |- context [bind (copyBack ?a ?b ?c ?d) _] =>
          destruct (copyBack a b c d) eqn:?
      | _ => progress cbn [bind]
      end;
    intros H; try discriminate; injection H as <-; cbn [srcPos]; try lia;
    match goal with
    | H : copyLiterals _ _ _ = Done _ |- _ =>
        apply copyLiterals_advances in H; cbn [srcPos] in H; lia
    end.
Qed.

Lemma PalmdocBody_fuel (ndebug : bool) (src : list byte) (srcLen dstLen : nat)
    (st : PalmdocState) :
  PalmdocBody ndebug src srcLen dstLen st <> OutOfFuel.
Proof.
  unfold PalmdocBody, assert, load.
  destruct ndebug;
    repeat match goal with
      | |- context [if ?b then _ else _] => destruct b eqn:?
      | |- context [match nth_error ?l ?i with _ => _ end] =>
          destruct (nth_error l i) eqn:?
      | |- context [bind (copyLiterals ?a ?b ?c) _] =>
          let E := fresh in
          pose proof (copyLiterals_fuel a b c) as E;
          destruct (copyLiterals a b c)
      | |- context [bind (copyBack ?a ?b ?c ?d) _] =>
          let E := fresh in
          pose proof (copyBack_fuel a b c d) as E;
          destruct (copyBack a b c d)
      | _ => progress cbn [bind]
      end;
    try discriminate; congruence.
Qed.

Lemma PalmdocLoop_fuel (ndebug : bool) (src : list byte) (srcLen dstLen : nat)
    (fuel : nat) (st : PalmdocState) :
  (srcLen - srcPos st < fuel)%nat ->
  PalmdocLoop ndebug src srcLen dstLen fuel st <> OutOfFuel.
Proof.
  revert st. induction fuel as [|fuel IH]; intros st H; [lia|].
  cbn [PalmdocLoop].
  destruct (Nat.ltb_spec (srcPos st) srcLen); [|discriminate].
  pose proof (PalmdocBody_fuel ndebug src srcLen dstLen st) as Hb.
  destruct (PalmdocBody ndebug src srcLen dstLen st) as [[st'|r]| | |] eqn:E;
    cbn [bind]; try discriminate; try congruence.
  apply IH. apply PalmdocBody_advances in E. lia.
Qed.

(** [PalmdocUncompress] returns: the fuel it gives its loop is enough. *)
Lemma PalmdocUncompress_terminates (ndebug : bool) (src : list byte)
    (srcLen dstLen : nat) :
  PalmdocUncompress ndebug src srcLen dstLen <> OutOfFuel.
Proof.
  unfold PalmdocUncompress. apply PalmdocLoop_fuel. cbn [srcPos]. lia.
Qed.


(** ** The whole run against the table *)

Lemma perform_takes (c : byte) (rest out : list byte) (k : nat) (out' : list byte) :
  perform (decodingTable (val c)) rest out = Some (k, out') ->
  (k <= length rest)%nat.
Proof.
  unfold decodingTable.
  destruct (Z.eqb_spec (val c) 0);
    [|destruct (Z.leb_spec (val c) 8);
      [|destruct (Z.leb_spec (val c) 127);
        [|destruct (Z.leb_spec (val c) 191)]]];
    unfold perform; intros Hp.
  - injection Hp as <- _. lia.
  - destruct (Z.to_nat (val c) <=? length rest)%nat eqn:E; [|discriminate].
    apply Nat.leb_le in E. injection Hp as <- _. exact E.
  - injection Hp as <- _. lia.
  - destruct rest as [|b t]; [discriminate|].
    cbv zeta in Hp.
    match type of Hp with
    | (if ?t then _ else _) = _ => destruct t; [|discriminate]
    end.
    injection Hp as <- _. simpl. lia.
  - injection Hp as <- _. lia.
Qed.


(** The trips never run out before the source does. *)
Lemma tableDecode_trips (trips trips' : nat) (rest out : list byte) :
  (length rest <= trips)%nat -> (length rest <= trips')%nat ->
  tableDecode trips rest out = tableDecode trips' rest out.
Proof.
  revert trips' rest out.
  induction trips as [|trips IH]; intros [|trips'] [|c rest] out H H';
    cbn [length] in *; try lia; try reflexivity.
  cbn [tableDecode].
  destruct (perform (decodingTable (val c)) rest out) as [[k o]|]; [|reflexivity].
  apply IH; rewrite length_skipn; lia.
Qed.






(** ** When the decompressor returns -1 *)

Lemma PalmdocBody_return (src : list byte) (srcLen dstLen : nat)
    (st : PalmdocState) (r : Uncompressed) :
  PalmdocBody true src srcLen dstLen st = Done (Return r) ->
  r = MinusOne /\ destinationExhausted src dstLen st = true.
Proof.
  unfold PalmdocBody, destinationExhausted, assert, load.
  cbn [bind].
  destruct (dstLen - length (written st) =? 0)%nat eqn:E0.
  - intros H. injection H as <-. split; reflexivity.
  - destruct (nth_error src (srcPos st)) as [b|]; [|discriminate].
    cbn [bind orb].
    repeat match goal with
      | |- context [if ?b then _ else _] => destruct b eqn:?
      | |- context [match nth_error ?l ?i with _ => _ end] =>
          destruct (nth_error l i) eqn:?
      | |- context [bind (copyLiterals ?a ?b ?c) _] =>
          destruct (copyLiterals a b c) eqn:?
      | |- context [bind (copyBack ?a ?b ?c ?d) _] =>
          destruct (copyBack a b c d) eqn:?
      | _ => progress cbn [bind]
      end;
      intros H; try discriminate; injection H as <-;
      split; try reflexivity;
      repeat match goal with
        | H : _ = true |- _ => rewrite H
        | H : _ = false |- _ => rewrite H
        end; cbn [andb orb]; reflexivity.
Qed.







(** A back-reference that reaches before the first output byte, or whose
    copy does not fit the destination, is only asserted (lines 210-211):
    without assertions the copy leaves the buffer. *)
Example palmdoc_unchecked_back_reference :
  PalmdocUncompress true [x80; x08] 2 16 = Undefined
  /\ PalmdocUncompress false [x80; x08] 2 16 = AssertionFailed
  /\ PalmdocUncompress true [x41; x80; x0f] 3 4 = Undefined
  /\ PalmdocUncompress false [x41; x80; x0f] 3 4 = AssertionFailed.
Proof. repeat split. Qed.

(** The pair 0x80 0x0B after "ABCDEFGH": distance 1, length 6. *)
Example palmdoc_pair_80_0B :
  PalmdocUncompress true
    [x41; x42; x43; x44; x45; x46; x47; x48; x80; x0b] 10 16
  = Done (Count [x41; x42; x43; x44; x45; x46; x47; x48;
                 x48; x48; x48; x48; x48; x48]).
Proof. reflexivity. Qed.

Example palmdoc_mid_pair :
  PalmdocUncompress true [x41; x80] 2 16 = Done (Count [x41])
  /\ PalmdocUncompress false [x41; x80] 2 16 = AssertionFailed.
Proof. split; reflexivity. Qed.

(** * HUFF/CDIC configuration and symbol decoding *)

Lemma slice_Done {A : Type} (l : list A) (off n : nat) (r : list A) :
  slice l off n = Done r ->
  (off + n <= length l)%nat /\ r = firstn n (skipn off l).
Proof.
  unfold slice.
  destruct (Nat.leb_spec (off + n) (length l)) as [Hle|Hgt]; [|discriminate].
  intros H. injection H as <-. split; [assumption | reflexivity].
Qed.

(** A swap at offset 4 or later leaves the four tag bytes alone. *)
Lemma SwapU32_tag (mem mem' : list byte) (off : nat) :
  (4 <= off)%nat -> SwapU32 mem off = Done mem' ->
  firstn 4 mem' = firstn 4 mem.
Proof.
  intros Hoff. unfold SwapU32, nativeU32.
  destruct (slice mem off 4) as [bs| | |] eqn:E; cbn [bind]; try discriminate.
  apply slice_Done in E. destruct E as [Hlen _].
  destruct bs as [|b0 [|b1 [|b2 [|b3 [|? ?]]]]]; cbn [bind]; try discriminate.
  intros H. injection H as <-. unfold store.
  rewrite firstn_app, firstn_firstn, length_firstn.
  replace (4 - Nat.min off (length mem))%nat with O by lia.
  rewrite Nat.min_l by lia. cbn [firstn]. apply app_nil_r.
Qed.

Lemma strncmp_tag (a b c d : byte) (mem : list byte) :
  val a <> 0 -> val b <> 0 -> val c <> 0 ->
  firstn 4 mem = [a; b; c; d] ->
  strncmp (literal [a; b; c; d]) mem 4 = Done 0.
Proof.
  intros Ha Hb Hc H.
  destruct mem as [|m0 [|m1 [|m2 [|m3 rest]]]]; try discriminate.
  cbn [firstn] in H. injection H as -> -> -> ->.
  cbn [literal app strncmp]. rewrite !Z.eqb_refl.
  destruct (Z.eqb_spec (val a) 0); [contradiction|].
  destruct (Z.eqb_spec (val b) 0); [contradiction|].
  destruct (Z.eqb_spec (val c) 0); [contradiction|].
  destruct (val d =? 0); reflexivity.
Qed.

(** [SetHuffData] returns false for every record that begins with "HUFF". *)
Lemma SetHuffData_rejects_HUFF (ndebug : bool) (hd hd' : HuffDicDecompressor)
    (huffData : list byte) (ok : bool) :
  firstn 4 huffData = HUFF ->
  SetHuffData ndebug hd huffData = Done (ok, hd') -> ok = false.
Proof.
  intros Htag. unfold SetHuffData.
  destruct (assert ndebug _); cbn [bind]; try discriminate.
  destruct (_ <? kHuffRecordMinLen); [intros H; injection H as <- _; reflexivity|].
  destruct (SwapU32 huffData 4) as [m1| | |] eqn:E1; cbn [bind]; try discriminate.
  destruct (SwapU32 m1 8) as [m2| | |] eqn:E2; cbn [bind]; try discriminate.
  destruct (SwapU32 m2 12) as [m3| | |] eqn:E3; cbn [bind]; try discriminate.
  apply SwapU32_tag in E1, E2, E3; try lia.
  unfold HUFF in *.
  rewrite (strncmp_tag x48 x55 x46 x46 m3)
    by (try (vm_compute; discriminate); congruence).
  cbn [bind Z.eqb]. intros H. injection H as <- _. reflexivity.
Qed.

(** [AddCdicData] written out for a record that is an object of its
    own. *)
Lemma AddCdicData_unfold (ndebug : bool) (hd : HuffDicDecompressor)
    (cdicData : list byte) :
  AddCdicData ndebug hd cdicData
  = (let cdicDataLen := u32 (Z.of_nat (length cdicData)) in
     m <- SwapU32 cdicData 4 ;;
     m <- SwapU32 m 12 ;;
     hdrLen <- nativeU32 m 4 ;;
     codeLen <- nativeU32 m 12 ;;
     assert ndebug ((0 =? code_length hd) || (codeLen =? code_length hd)) ;;;
     let hd := mkHuffDic (huffmanData hd) (dicts hd) codeLen in
     cmp <- strncmp (literal CDIC) m 4 ;;
     if cmp =? 0 then Done (false, hd) else
     assert ndebug (hdrLen =? kCdicHeaderLen) ;;;
     if negb (hdrLen =? kCdicHeaderLen) then Done (false, hd) else
     let size := u32 (cdicDataLen - hdrLen) in
     maxSize <- shl1 (code_length hd) ;;
     if size <=? maxSize then Done (false, hd) else
     d <- slice m (Z.to_nat hdrLen) (Z.to_nat size) ;;
     if kCdicsMax <=? dictsCount hd then Undefined else
     Done (true, mkHuffDic (huffmanData hd) (dicts hd ++ [d]) (code_length hd))).
Proof.
  unfold AddCdicData, AddCdicDataIn. cbv zeta.
  destruct (SwapU32 cdicData 4) as [m1| | |]; cbn [bind]; try reflexivity.
  destruct (SwapU32 m1 12) as [m2| | |]; cbn [bind]; try reflexivity.
  match goal with
  | |- bind (bind ?x _) _ = _ => destruct x as [[ok hd']| | |]; reflexivity
  end.
Qed.

(** [AddCdicData] returns false for every record that begins with "CDIC". *)
Lemma AddCdicData_rejects_CDIC (ndebug : bool) (hd hd' : HuffDicDecompressor)
    (cdicData : list byte) (ok : bool) :
  firstn 4 cdicData = CDIC ->
  AddCdicData ndebug hd cdicData = Done (ok, hd') -> ok = false.
Proof.
  intros Htag. rewrite AddCdicData_unfold. cbv zeta.
  destruct (SwapU32 cdicData 4) as [m1| | |] eqn:E1; cbn [bind]; try discriminate.
  destruct (SwapU32 m1 12) as [m2| | |] eqn:E2; cbn [bind]; try discriminate.
  destruct (nativeU32 m2 4); cbn [bind]; try discriminate.
  destruct (nativeU32 m2 12); cbn [bind]; try discriminate.
  destruct (assert ndebug _); cbn [bind]; try discriminate.
  apply SwapU32_tag in E1, E2; try lia.
  unfold CDIC in *.
  rewrite (strncmp_tag x43 x44 x49 x43 m2)
    by (try (vm_compute; discriminate); congruence).
  cbn [bind Z.eqb]. intros H. injection H as <- _. reflexivity.
Qed.

(** C4, the defect.  The tag tests of lines 428 and 462 are inverted: a
    HUFF record and a CDIC record as the format has them are rejected,
    with or without assertions, and the same records under another tag are
    accepted. *)
Theorem tag_checks_inverted :
  SetHuffData true newHuffDic wellFormedHuff = Done (false, newHuffDic)
  /\ SetHuffData false newHuffDic wellFormedHuff = Done (false, newHuffDic)
  /\ AddCdicData true newHuffDic wellFormedCdic
     = Done (false, mkHuffDic None [] 1)
  /\ AddCdicData false newHuffDic wellFormedCdic
     = Done (false, mkHuffDic None [] 1)
  /\ (exists hd, SetHuffData true newHuffDic mistaggedHuff = Done (true, hd))
  /\ AddCdicData true newHuffDic mistaggedCdic
     = Done (true, mkHuffDic None [oneSymbolDict] 1).
Proof.
  repeat split; try (vm_compute; reflexivity).
  eexists. vm_compute. reflexivity.
Qed.

(** A code whose dictionary index equals [dictsCount] passes the test of
    line 320 and reads the slot after the last configured dictionary. *)
Lemma DecodeOne_unconfigured_slot
    (ndebug : bool)
    (Decompress : list byte -> nat -> nat -> nat -> outcome Uncompressed)
    (hd : HuffDicDecompressor) (code : Z) (out : list byte) (dstLeft : nat) :
  0 <= code_length hd < 31 ->
  u16 (Z.shiftr code (code_length hd)) = dictsCount hd ->
  DecodeOne ndebug Decompress hd code out dstLeft = Undefined.
Proof.
  intros Hcl Hd. unfold DecodeOne, shiftr32, shl1.
  destruct (Z.leb_spec 0 (code_length hd)); [|lia].
  destruct (Z.ltb_spec (code_length hd) 32); [|lia].
  destruct (Z.ltb_spec (code_length hd) 31); [|lia].
  cbn [andb bind]. rewrite Hd, Z.ltb_irrefl.
  unfold load, dictsCount. rewrite Nat2Z.id.
  replace (nth_error (dicts hd) (length (dicts hd))) with (@None (list byte))
    by (symmetry; apply nth_error_None; lia).
  reflexivity.
Qed.

(** C3, the defect.  With the one dictionary of [mistaggedCdic] configured
    (code length 1), code 2 has dictionary index 1 = [dictsCount]: line 320
    lets it through and line 325 reads [dicts[1]], which was never set.
    Code 4 (index 2) is rejected, code 0 decodes "A".  And an offset equal
    to the dictionary size passes line 327, after which line 331 reads two
    bytes past the end of the dictionary. *)
Theorem DecodeOne_reads_outside_dictionaries :
  AddCdicData true newHuffDic mistaggedCdic
  = Done (true, mkHuffDic None [oneSymbolDict] 1)
  /\ (forall ndebug D out dstLeft,
         DecodeOne ndebug D (mkHuffDic None [oneSymbolDict] 1) 2 out dstLeft
         = Undefined)
  /\ (forall ndebug D out dstLeft,
         DecodeOne ndebug D (mkHuffDic None [oneSymbolDict] 1) 4 out dstLeft
         = Done (false, out, dstLeft))
  /\ (forall ndebug D,
         DecodeOne ndebug D (mkHuffDic None [oneSymbolDict] 1) 0 [] 16
         = Done (true, [x41], 15%nat))
  /\ (forall ndebug D out dstLeft,
         DecodeOne ndebug D (mkHuffDic None [be16 2] 0) 0 out dstLeft
         = Undefined).
Proof.
  repeat split; intros; reflexivity.
Qed.

(** Scenario 4 of spec 8, which no correctly tagged pair of records can
    reach: with the tags spoiled the decoder is configured, and the input
    byte 0x00 decodes through the terminal fast path to the literal "A". *)
Example scenario4 :
  exists hd, scenario4Decoder = Done (Some hd)
             /\ Decompress true 8 hd [x00] 1 16 = Done (Count [x41])
             /\ Decompress false 8 hd [x00; x00] 2 16
                = Done (Count [x41; x41]).
Proof.
  eexists. split; [vm_compute; reflexivity|].
  split; vm_compute; reflexivity.
Qed.

(** * Trailer stripping *)

Lemma wrap_small (bits z : Z) : 0 <= z < 2 ^ bits -> wrap bits z = z.
Proof. intros H. unfold wrap. apply Z.mod_small. exact H. Qed.

Lemma trailerValue_nonneg (size_bits : Z) (recData : list byte) (newLen : Z)
    (j trips : nat) (n r : Z) :
  0 <= n ->
  trailerValue size_bits recData newLen j trips n = Done r -> 0 <= r.
Proof.
  revert j n. induction trips as [|trips IH]; intros j n Hn; cbn [trailerValue].
  - intros H. injection H as <-. exact Hn.
  - destruct (load recData _); cbn [bind]; try discriminate.
    apply IH. unfold u32, wrap. apply Z.mod_pos_bound. reflexivity.
Qed.

(** With assertions compiled in, the trailer loop only ever shortens the
    visible length, and never to zero or below. *)
Lemma stripTrailers_asserted (size_bits : Z) (trips : nat) (recData : list byte)
    (newLen r : Z) :
  0 <= newLen < 2 ^ size_bits ->
  stripTrailers false size_bits trips recData newLen = Done r ->
  0 <= r <= newLen /\ (0 < newLen -> 0 < r).
Proof.
  revert newLen. induction trips as [|trips IH]; intros newLen Hr;
    cbn [stripTrailers].
  - intros H. injection H as <-. lia.
  - unfold assert at 1.
    destruct (Z.ltb_spec 4 newLen); cbn [bind]; try discriminate.
    destruct (trailerValue size_bits recData newLen 0 4 0) as [n| | |] eqn:E;
      cbn [bind]; try discriminate.
    apply trailerValue_nonneg in E; [|lia].
    unfold assert.
    destruct (Z.ltb_spec n newLen); cbn [bind]; try discriminate.
    unfold size_t. rewrite wrap_small by lia.
    intros H'. apply IH in H'; lia.
Qed.

(** With assertions compiled in, [ExtraDataSize] returns at most the
    record length: the visible length [recLen - extraSize] stays between
    zero and [recLen]. *)
Lemma ExtraDataSize_asserted (size_bits : Z) (recData : list byte)
    (recLen trailersCount : Z) (multibyte : bool) (extraSize : Z) :
  0 <= recLen < 2 ^ size_bits ->
  ExtraDataSize false size_bits recData recLen trailersCount multibyte
  = Done extraSize ->
  0 <= extraSize <= recLen.
Proof.
  intros Hr. unfold ExtraDataSize.
  destruct (stripTrailers false size_bits (Z.to_nat trailersCount) recData recLen)
    as [newLen| | |] eqn:E; cbn [bind]; try discriminate.
  apply stripTrailers_asserted in E; [|assumption].
  destruct multibyte.
  - unfold stripMultibyte, assert.
    destruct (Z.ltb_spec 0 newLen); cbn [bind]; try discriminate.
    destruct (load recData _) as [v| | |]; cbn [bind]; try discriminate.
    destruct (Z.leb_spec (Z.land (val v) 3 + 1) newLen); cbn [bind];
      try discriminate.
    assert (0 <= Z.land (val v) 3) by (apply Z.land_nonneg; right; lia).
    unfold size_t.
    rewrite (wrap_small size_bits (newLen - (Z.land (val v) 3 + 1))) by lia.
    intros H'. injection H' as <-. rewrite wrap_small by lia. lia.
  - cbn [bind]. intros H'. injection H' as <-.
    unfold size_t. rewrite wrap_small by lia. lia.
Qed.

(** C6, the defect.  Lines 917 and 925 only assert that the trailer fits;
    the subtraction itself is unguarded.  On a four-byte record whose
    trailer size reads 127, with one trailer per record, [ExtraDataSize]
    returns 127, and the visible length of line 941 wraps around to
    [2^64 - 123] (to [2^32 - 123] with a 32-bit [size_t]); a one-byte
    record 0x03 under the multibyte flag loses four bytes.  With
    assertions compiled in, the run ends at the assertion. *)
Theorem ExtraDataSize_unguarded :
  ExtraDataSize true 64 longTrailerRecord 4 1 false = Done 127
  /\ size_t 64 (4 - 127) = 2 ^ 64 - 123
  /\ ExtraDataSize true 32 longTrailerRecord 4 1 false = Done 127
  /\ size_t 32 (4 - 127) = 2 ^ 32 - 123
  /\ ExtraDataSize true 64 [x03] 1 0 true = Done 4
  /\ ExtraDataSize false 64 longTrailerRecord 4 1 false = AssertionFailed
  /\ ExtraDataSize false 64 (x00 :: longTrailerRecord) 5 1 false
     = AssertionFailed
  /\ ExtraDataSize false 64 [x03] 1 0 true = AssertionFailed.
Proof.
  repeat split; vm_compute; reflexivity.
Qed.

Lemma slice_beyond {A : Type} (l : list A) (off n : nat) :
  (length l < off + n)%nat -> slice l off n = Undefined.
Proof.
  intros H. unfold slice.
  destruct (Nat.leb_spec (off + n) (length l)); [lia | reflexivity].
Qed.

(** ** The read buffer *)

(** The buffer a record was read to begins with the record. *)
Lemma bufferOf_freadInto (d : list byte) (rb : ReadBuffer) :
  bufferOf (length d) (freadInto d rb)
  = (d ++ skipn (length d)
            (bufferOf (length d) (getBufForRecordData (length d) rb)))%list.
Proof.
  unfold freadInto, getBufForRecordData, bufferOf, set_bufferOf. cbv zeta.
  destruct (N.of_nat (length d) <=? bufStaticSize rb)%N eqn:Es.
  - rewrite Es. cbn [bufStaticSize]. rewrite Es. reflexivity.
  - destruct (N.of_nat (length d) <=? bufDynamicSize rb)%N eqn:Ed.
    + rewrite Es. cbn [bufStaticSize]. rewrite Es. reflexivity.
    + cbn [bufStaticSize]. rewrite Es. cbn [bufStaticSize]. rewrite Es.
      reflexivity.
Qed.

(** A read keeps what is stored within the buffers, and so does a change
    of the stored bytes that keeps their number. *)
Lemma freadInto_fits (d : list byte) (rb : ReadBuffer) :
  buffersFit rb -> buffersFit (freadInto d rb).
Proof.
  unfold buffersFit, freadInto, getBufForRecordData, bufferOf, set_bufferOf.
  cbv zeta. intros [Hs Hd].
  destruct (N.leb_spec (N.of_nat (length d)) (bufStaticSize rb)) as [Es|Es].
  - destruct (N.leb_spec (N.of_nat (length d)) (bufStaticSize rb)); [|lia].
    cbn [bufStatic bufDynamic bufStaticSize bufDynamicSize].
    rewrite length_app, length_skipn. split; lia.
  - destruct (N.leb_spec (N.of_nat (length d)) (bufDynamicSize rb)) as [Ed|Ed].
    + destruct (N.leb_spec (N.of_nat (length d)) (bufStaticSize rb)); [lia|].
      cbn [bufStatic bufDynamic bufStaticSize bufDynamicSize].
      rewrite length_app, length_skipn. split; lia.
    + cbn [bufStaticSize].
      destruct (N.leb_spec (N.of_nat (length d)) (bufStaticSize rb)); [lia|].
      cbn [bufStatic bufDynamic bufStaticSize bufDynamicSize].
      rewrite length_app. cbn [skipn length].
      rewrite skipn_nil. cbn [length]. split; lia.
Qed.

Lemma set_bufferOf_fits (size : nat) (mem : list byte) (rb : ReadBuffer) :
  length mem = length (bufferOf size rb) ->
  buffersFit rb -> buffersFit (set_bufferOf size mem rb).
Proof.
  unfold buffersFit, bufferOf, set_bufferOf. intros Hl [Hs Hd].
  destruct (N.of_nat size <=? bufStaticSize rb)%N;
    cbn [bufStatic bufDynamic bufStaticSize bufDynamicSize];
    rewrite ?Hl; split; assumption.
Qed.

Lemma newMobiBook_fits : buffersFit (readBuf newMobiBook).
Proof. split; vm_compute; discriminate. Qed.

Lemma recordBuffer_readInto (d : list byte) (b : MobiBook) :
  exists stale,
    recordBuffer (length d) (readInto d b) = (d ++ stale)%list.
Proof.
  unfold recordBuffer, readInto. cbn [set_readBuf readBuf].
  rewrite bufferOf_freadInto. eexists. reflexivity.
Qed.

(** Reading an empty record changes nothing. *)
Lemma readInto_nil (b : MobiBook) : readInto [] b = b.
Proof.
  destruct b as [nR rH d iM dRC cT dUS dc mb tC iFR iC im cI hD tE lc tt au pb
                 [sz st dy dz]].
  destruct sz; reflexivity.
Qed.

(** Where the wrapped length goes: the text record of [longTrailerFile]
    is appended with a length of [2^64 - 123] bytes (line 943), far past
    the four bytes that were read and past what the read buffer holds. *)
Lemma loadDocRecordIntoBuffer_long_trailer (f : File) (fuel : nat) (b : MobiBook) :
  readRecord f b 1 = Done (Some longTrailerRecord) ->
  trailersCount b = 1 -> multibyte b = false ->
  compressionType b = COMPRESSION_NONE ->
  Z.of_nat (length (recordBuffer 4 (readInto longTrailerRecord b))) < 2 ^ 63 ->
  loadDocRecordIntoBuffer true 64 f fuel b 1 = Undefined.
Proof.
  intros Hread Htc Hmb Hct Hbuf. unfold loadDocRecordIntoBuffer.
  rewrite Hread. cbn [bind]. cbv zeta.
  change (trailersCount (readInto longTrailerRecord b)) with (trailersCount b).
  change (multibyte (readInto longTrailerRecord b)) with (multibyte b).
  change (compressionType (readInto longTrailerRecord b))
    with (compressionType b).
  rewrite Htc, Hmb, Hct.
  change (length longTrailerRecord) with 4%nat.
  destruct (recordBuffer_readInto longTrailerRecord b) as [stale Hs].
  change (length longTrailerRecord) with 4%nat in Hs.
  rewrite Hs in Hbuf |- *.
  replace (ExtraDataSize true 64 (longTrailerRecord ++ stale)
             (Z.of_nat 4) 1 false)
    with (@Done Z 127) by (vm_compute; reflexivity).
  cbn [bind].
  replace (size_t 64 (Z.of_nat 4 - 127))
    with 18446744073709551493 by (vm_compute; reflexivity).
  rewrite Z.eqb_refl, slice_beyond; [reflexivity|]. lia.
Qed.

Example long_trailer_file :
  createFromFile true 64 longTrailerFile 0 = Undefined
  /\ createFromFile false 64 longTrailerFile 0 = AssertionFailed.
Proof.
  split; [|vm_compute; reflexivity].
  unfold createFromFile.
  destruct (parseHeader true 64 longTrailerFile newMobiBook)
    as [[mb|]| | |] eqn:E; vm_compute in E; try discriminate.
  injection E as <-. cbn [bind]. unfold loadDocument.
  rewrite assert_ndebug. cbn [bind docRecCount].
  change (Z.to_nat 1) with 1%nat. cbn [loadDocRecords].
  rewrite loadDocRecordIntoBuffer_long_trailer;
    [reflexivity | vm_compute; reflexivity | reflexivity | reflexivity
     | reflexivity | ].
  apply Z.ltb_lt. vm_compute. reflexivity.
Qed.

(** * The document *)

(** With assertions compiled in, a book is only returned when its text is
    as long as the PalmDOC header declares (line 990). *)
Lemma loadDocument_asserted (size_bits : Z) (f : File) (fuel : nat)
    (b b' : MobiBook) :
  loadDocument false size_bits f fuel b = Done (true, b') ->
  docUncompressedSize b' = Z.of_nat (length (doc b')).
Proof.
  unfold loadDocument.
  destruct (assert false _); cbn [bind]; try discriminate.
  destruct (loadDocRecords _ _ _ _ _ _ _) as [[ok b1]| | |]; cbn [bind];
    try discriminate.
  destruct ok; cbn [negb]; [|discriminate].
  unfold assert.
  destruct (Z.eqb_spec (docUncompressedSize b1) (Z.of_nat (length (doc b1))));
    cbn [bind]; try discriminate.
  intros H. injection H as <-. assumption.
Qed.

Lemma createFromFile_asserted (size_bits : Z) (f : File) (fuel : nat)
    (b : MobiBook) :
  createFromFile false size_bits f fuel = Done (Some b) ->
  docUncompressedSize b = Z.of_nat (length (doc b)).
Proof.
  unfold createFromFile.
  destruct (parseHeader _ _ _ _) as [[mb|]| | |]; cbn [bind]; try discriminate.
  destruct (loadDocument _ _ _ _ _) as [[ok mb']| | |] eqn:E; cbn [bind];
    try discriminate.
  destruct ok; [|discriminate].
  intros H. injection H as <-.
  eapply loadDocument_asserted. exact E.
Qed.

(** C1, the defect.  Line 990 only asserts that the text is as long as
    declared.  A PalmDOC file that declares 100 bytes and holds "Hello" is
    opened, and the book's text is those five bytes; with assertions
    compiled in, the run ends at the assertion. *)
Theorem createFromFile_short_body :
  (exists b, createFromFile true 64 shortBodyFile 0 = Done (Some b)
             /\ doc b = Hello
             /\ docUncompressedSize b = 100)
  /\ createFromFile false 64 shortBodyFile 0 = AssertionFailed.
Proof.
  split.
  - eexists. split; [vm_compute; reflexivity|]. split; reflexivity.
  - vm_compute. reflexivity.
Qed.

(** * EXTH records *)

(** C8, the defect.  Lines 689, 692 and 700 take the payload as a C
    string.  An author record with the four payload bytes 'A', NUL, 'B',
    'C' ([len] = 12) gives the author "A"; an author record with the
    payload "A" that is followed at once by the full name "Title" gives
    the author "ATitle".  Neither is the [len - 8] payload bytes. *)
Theorem author_is_read_as_C_string :
  (exists b, createFromFile true 64 nulAuthorFile 0 = Done (Some b)
             /\ author b = [x41])
  /\ (exists b, createFromFile true 64 unterminatedAuthorFile 0 = Done (Some b)
                /\ author b = x41 :: Title).
Proof.
  split; eexists; (split; [vm_compute; reflexivity | reflexivity]).
Qed.

(** A record of a type other than 100, 101, 201 and 503 changes nothing in
    the book but the byte order of its own two header fields, and the
    parser goes on [len] bytes further. *)
Lemma exthRecords_other_type (n currRecPos : nat) (b : MobiBook)
    (mem1 mem2 : list byte) (recType recLen : Z) :
  SwapU32 (firstRecData b) (currRecPos + 4) = Done mem1 ->
  SwapU32 mem1 currRecPos = Done mem2 ->
  nativeU32 mem2 currRecPos = Done recType ->
  nativeU32 mem2 (currRecPos + 4) = Done recLen ->
  recType <> 100 -> recType <> 101 -> recType <> 201 -> recType <> 503 ->
  exthRecords (S n) currRecPos b
  = exthRecords n (currRecPos + Z.to_nat recLen) (set_firstRecData mem2 b).
Proof.
  intros H1 H2 Ht Hl N100 N101 N201 N503.
  cbn [exthRecords]. rewrite H1. cbn [bind]. rewrite H2. cbn [bind].
  rewrite Ht. cbn [bind]. rewrite Hl. cbn [bind].
  destruct (Z.eqb_spec recType 100); [contradiction|].
  destruct (Z.eqb_spec recType 101); [contradiction|].
  destruct (Z.eqb_spec recType 201); [contradiction|].
  destruct (Z.eqb_spec recType 503); [contradiction|].
  reflexivity.
Qed.

(** A record of type 503 replaces the title, whatever it was, by the C
    string at its payload. *)
Lemma exthRecords_title (n currRecPos : nat) (b : MobiBook)
    (mem1 mem2 s : list byte) (recLen : Z) :
  SwapU32 (firstRecData b) (currRecPos + 4) = Done mem1 ->
  SwapU32 mem1 currRecPos = Done mem2 ->
  nativeU32 mem2 currRecPos = Done 503 ->
  nativeU32 mem2 (currRecPos + 4) = Done recLen ->
  cstring mem2 (currRecPos + 8) = Done s ->
  exthRecords (S n) currRecPos b
  = exthRecords n (currRecPos + Z.to_nat recLen)
      (set_title s (set_firstRecData mem2 b)).
Proof.
  intros H1 H2 Ht Hl Hs.
  cbn [exthRecords]. rewrite H1. cbn [bind]. rewrite H2. cbn [bind].
  rewrite Ht. cbn [bind]. rewrite Hl. cbn [bind Z.eqb Pos.eqb].
  rewrite Hs. reflexivity.
Qed.

(** Scenario 3 of spec 8 comes out as the specification says: each string
    payload is followed by the zero high byte of the next record's type. *)
Example scenario3 :
  exists b, createFromFile true 64 scenario3File 0 = Done (Some b)
            /\ author b = [x4a; x61; x6e; x65; x20; x44; x6f; x65]
            /\ publisher b = [x41; x43; x4d; x45; x20; x50; x72; x65; x73; x73]
            /\ title b = [x52; x65; x61; x6c; x20; x54; x69; x74; x6c; x65]
            /\ getCover b = Done (Some 2%nat).
Proof.
  eexists. split; [vm_compute; reflexivity|]. repeat split; reflexivity.
Qed.

(** * Images *)

Lemma slotWellFormed_len (img : ImageData) :
  slotWellFormed img ->
  if loaded img then 0 < len img else len img = 0.
Proof.
  unfold slotWellFormed, loaded. destruct (data img) as [d|].
  - intros [-> Hd]. destruct d; [contradiction | cbn [length]; lia].
  - trivial.
Qed.

Lemma Forall_firstn_skipn {A : Type} (P : A -> Prop) (l : list A) (n : nat) :
  Forall P l -> Forall P (firstn n l) /\ Forall P (skipn n l).
Proof.
  intros H. apply Forall_app. rewrite firstn_skipn. exact H.
Qed.

Lemma Forall_store {A : Type} (P : A -> Prop) (l : list A) (i : nat) (a : A) :
  Forall P l -> P a -> Forall P (store l i [a]).
Proof.
  intros Hl Ha. unfold store.
  apply Forall_app. split; [apply Forall_firstn_skipn; exact Hl|].
  apply Forall_app. split; [constructor; [exact Ha | constructor]|].
  apply Forall_firstn_skipn. exact Hl.
Qed.

Lemma length_store {A : Type} (l : list A) (i : nat) (a : A) :
  (i < length l)%nat -> length (store l i [a]) = length l.
Proof.
  intros H. unfold store.
  rewrite !length_app, length_firstn, length_skipn. cbn [length]. lia.
Qed.

(** [loadImage] keeps the image array well formed. *)
Lemma loadImage_wellFormed (f : File) (b b' : MobiBook) (imageNo : Z)
    (more : bool) :
  imagesWellFormed b ->
  loadImage f b imageNo = Done (more, b') ->
  imagesWellFormed b' /\ imagesCount b' = imagesCount b
  /\ (images b = None -> images b' = None).
Proof.
  intros Hwf. unfold loadImage.
  destruct (readRecord f b (imageFirstRec b + imageNo)) as [[imgData|]| | |];
    cbn [bind]; try discriminate.
  2: { intros H. injection H as <- <-. auto. }
  cbv zeta.
  assert (imagesWellFormed (readInto imgData b)
          /\ imagesCount (readInto imgData b) = imagesCount b
          /\ (images b = None -> images (readInto imgData b) = None)) as Hkeep
    by (split; [exact Hwf | split; [reflexivity | exact (fun H => H)]]).
  destruct (Nat.eqb_spec (length imgData) 0) as [Hz|Hnz].
  { intros H. injection H as <- <-. exact Hkeep. }
  destruct (IsEofRecord imgData) as [[|]| | |]; cbn [bind]; try discriminate.
  { intros H. injection H as <- <-. exact Hkeep. }
  destruct (KnownNonImageRec imgData) as [[|]| | |]; cbn [bind];
    try discriminate.
  { intros H. injection H as <- <-. exact Hkeep. }
  clear Hkeep. unfold imagesWellFormed in *.
  change (images (readInto imgData b)) with (images b).
  destruct (images b) as [arr|] eqn:Ei; [|discriminate].
  destruct (Nat.ltb_spec (Z.to_nat imageNo) (length arr)) as [Hi|Hi];
    [|discriminate].
  destruct (ImageType _) as [ext|]; [|discriminate].
  intros H. injection H as <- <-.
  destruct Hwf as [Hlen Hall]. destruct b. cbn in *.
  split; [|split; [reflexivity | discriminate]].
  split.
  - rewrite length_store by assumption. exact Hlen.
  - apply Forall_store; [exact Hall|].
    unfold slotWellFormed. cbn [data len]. split; [reflexivity|].
    destruct imgData; [contradiction | discriminate].
Qed.

Lemma loadImagesFrom_wellFormed (f : File) (n : nat) (i : Z)
    (b b' : MobiBook) :
  imagesWellFormed b ->
  loadImagesFrom f n i b = Done b' ->
  imagesWellFormed b' /\ imagesCount b' = imagesCount b.
Proof.
  revert i b. induction n as [|n IH]; intros i b Hwf; cbn [loadImagesFrom].
  - intros H. injection H as <-. auto.
  - destruct (loadImage f b i) as [[more b1]| | |] eqn:E; cbn [bind];
      try discriminate.
    apply loadImage_wellFormed in E; [|exact Hwf].
    destruct E as [Hwf1 [Hc1 _]].
    destruct more.
    + intros H. apply IH in H; [|exact Hwf1]. destruct H. split; congruence.
    + intros H. injection H as <-. auto.
Qed.

(** What [loadImages] leaves behind is well formed. *)
Lemma loadImages_wellFormed (f : File) (b b' : MobiBook) :
  images b = None -> 0 <= imagesCount b ->
  loadImages f b = Done b' ->
  imagesWellFormed b' /\ imagesCount b' = imagesCount b.
Proof.
  intros Hnone Hcount. unfold loadImages.
  destruct (Z.eqb_spec 0 (imagesCount b)) as [Hz|Hnz].
  - intros H. injection H as <-. split; [|reflexivity].
    unfold imagesWellFormed. rewrite Hnone. congruence.
  - intros H.
    apply loadImagesFrom_wellFormed in H.
    + destruct H as [Hwf Hc]. split; [exact Hwf|].
      rewrite Hc. destruct b; reflexivity.
    + unfold imagesWellFormed. destruct b; cbn in *.
      split.
      * rewrite repeat_length. lia.
      * apply Forall_forall. intros img Hin.
        apply repeat_spec in Hin. subst img. reflexivity.
Qed.

Lemma getImage_wellFormed (b : MobiBook) :
  imagesWellFormed b ->
  (forall arr i img,
      images b = Some arr -> nth_error arr i = Some img ->
      getImage b (Z.of_nat i + 1)
      = Done (if loaded img then Some i else None))
  /\ getImage b 0 = Done None
  /\ (forall idx, imagesCount b < idx -> getImage b idx = Done None).
Proof.
  intros Hwf. split; [|split].
  - intros arr i img Ei Hn. unfold imagesWellFormed in Hwf.
    rewrite Ei in Hwf. destruct Hwf as [Hlen Hall].
    assert (i < length arr)%nat as Hi
      by (apply nth_error_Some; congruence).
    unfold getImage.
    destruct (Z.ltb_spec (imagesCount b) (Z.of_nat i + 1)); [lia|].
    destruct (Z.ltb_spec (Z.of_nat i + 1) 1); [lia|].
    cbn [orb]. rewrite Ei.
    replace (Z.to_nat (Z.of_nat i + 1 - 1)) with i by lia.
    rewrite (load_Some _ _ _ Hn). cbn [bind].
    rewrite Forall_forall in Hall.
    pose proof (slotWellFormed_len img (Hall img (nth_error_In _ _ Hn))) as Hs.
    unfold loaded in *. destruct (data img); cbn [orb].
    + destruct (Z.eqb_spec 0 (len img)); [lia | reflexivity].
    + reflexivity.
  - unfold getImage.
    destruct (imagesCount b <? 0); reflexivity.
  - intros idx H. unfold getImage.
    destruct (Z.ltb_spec (imagesCount b) idx); [reflexivity | lia].
Qed.

(** C9.  After [loadImages], [getImage (i + 1)] returns slot [i] for every
    slot [i] that holds a loaded image, and nothing for index 0, for every
    index above [imagesCount] and for every slot that is empty. *)
Theorem getImage_roundtrip (f : File) (b b' : MobiBook) :
  images b = None -> 0 <= imagesCount b ->
  loadImages f b = Done b' ->
  (forall arr i img,
      images b' = Some arr -> nth_error arr i = Some img ->
      loaded img = true ->
      getImage b' (Z.of_nat i + 1) = Done (Some i))
  /\ getImage b' 0 = Done None
  /\ (forall idx, imagesCount b' < idx -> getImage b' idx = Done None)
  /\ (forall arr i img,
         images b' = Some arr -> nth_error arr i = Some img ->
         loaded img = false ->
         getImage b' (Z.of_nat i + 1) = Done None).
Proof.
  intros Hnone Hcount Hload.
  apply loadImages_wellFormed in Hload; try assumption.
  destruct Hload as [Hwf _].
  destruct (getImage_wellFormed b' Hwf) as [Hslot [Hzero Habove]].
  repeat split; try assumption.
  - intros arr i img Ei Hn Hl. rewrite (Hslot arr i img Ei Hn), Hl. reflexivity.
  - intros arr i img Ei Hn Hl. rewrite (Hslot arr i img Ei Hn), Hl. reflexivity.
Qed.

Lemma getImage_roundtrip_witness :
  getImage (loadedBook emptyImageFile) 2 = Done (Some 1%nat)
  /\ getImage (loadedBook emptyImageFile) 0 = Done None
  /\ getImage (loadedBook emptyImageFile) 3 = Done None
  /\ getImage (loadedBook emptyImageFile) 1 = Done None.
Proof.
  destruct (getImage_roundtrip emptyImageFile (stagedBook emptyImageFile)
              (loadedBook emptyImageFile))
    as [Hloaded [Hzero [Habove Hempty]]].
  - vm_compute. reflexivity.
  - vm_compute. discriminate.
  - vm_compute. reflexivity.
  - split; [|split; [|split]].
    + eapply (Hloaded _ 1%nat); vm_compute; reflexivity.
    + exact Hzero.
    + apply Habove. vm_compute. reflexivity.
    + eapply (Hempty _ 0%nat); vm_compute; reflexivity.
Defined.

(** * The cover *)

(** [getCover] returns the slot the specification picks only where the
    cover index, if there is one, points at a loaded image: in the book of
    [markerCoverFile] the index names the empty slot 1, and [getCover]
    returns that slot, not the JPEG in slot 0. *)
Lemma getCover_counterexample :
  exists b, createFromFile true 64 markerCoverFile 0 = Done (Some b)
            /\ getCover b = Done (Some 1%nat)
            /\ specifiedCover b = Some 0%nat.
Proof.
  eexists. split; [vm_compute; reflexivity|].
  split; vm_compute; reflexivity.
Qed.

(** C7, as amended.  In a book whose image array is as [loadImages] leaves
    it: if an EXTH 201 record supplied a cover index that lies within the
    image array, [getCover] returns the slot at that index, loaded or not;
    if no cover index was supplied, it returns the larger by byte length
    of the first two slots that hold an image (the first if they are
    equally long), and nothing if neither holds one. *)
Theorem getCover_amended (b : MobiBook) :
  imagesWellFormed b ->
  (0 <= coverImage b < imagesCount b ->
   getCover b = Done (Some (Z.to_nat (coverImage b))))
  /\ (coverImage b < 0 ->
      getCover b
      = Done (largerOfFirstTwo
                (match images b with Some arr => arr | None => [] end))).
Proof.
  intros Hwf. unfold imagesWellFormed in Hwf. unfold getCover. split.
  - intros Hc. destruct (Z.leb_spec 0 (coverImage b)); [|lia].
    destruct (images b) as [arr|]; [|lia].
    destruct Hwf as [Hlen _].
    destruct (Z.ltb_spec (coverImage b) (Z.of_nat (length arr))); [|lia].
    reflexivity.
  - intros Hc. destruct (Z.leb_spec 0 (coverImage b)); [lia|].
    destruct (images b) as [arr|].
    + destruct Hwf as [Hlen Hall]. rewrite <- Hlen.
      destruct arr as [|a [|a' rest]].
      * reflexivity.
      * apply Forall_inv in Hall. apply slotWellFormed_len in Hall.
        change (Z.min (Z.of_nat (length [a])) 2) with 1.
        change (1 =? 0) with false. change (Z.to_nat 1) with 1%nat.
        cbn [largestOf largerOfFirstTwo]. unfold load.
        cbn [nth_error bind]. unfold loaded in *.
        destruct (data a); cbn [bind];
          repeat match goal with
            | |- context [?x <? ?y] => destruct (Z.ltb_spec x y); cbn [bind]
            | |- context [?x =? ?y] => destruct (Z.eqb_spec x y); cbn [bind]
            end; try reflexivity; lia.
      * pose proof (Forall_inv Hall) as Ha.
        pose proof (Forall_inv (Forall_inv_tail Hall)) as Ha'.
        apply slotWellFormed_len in Ha, Ha'.
        replace (Z.min (Z.of_nat (length (a :: a' :: rest))) 2) with 2
          by (cbn [length]; lia).
        change (2 =? 0) with false. change (Z.to_nat 2) with 2%nat.
        cbn [largestOf largerOfFirstTwo]. unfold load.
        cbn [nth_error bind]. unfold loaded in *.
        destruct (data a), (data a'); cbn [bind];
          repeat match goal with
            | |- context [?x <? ?y] => destruct (Z.ltb_spec x y); cbn [bind]
            | |- context [?x =? ?y] => destruct (Z.eqb_spec x y); cbn [bind]
            end; try reflexivity; lia.
    + rewrite Hwf. reflexivity.
Qed.

Lemma markerCoverBook_wellFormed :
  imagesWellFormed markerCoverBook /\ imagesWellFormed noCoverIndexBook.
Proof.
  split; (split; [reflexivity|]);
    (constructor; [split; [reflexivity | discriminate]|]);
    (constructor; [reflexivity | constructor]).
Defined.

Lemma getCover_amended_witness :
  getCover markerCoverBook = Done (Some 1%nat)
  /\ getCover noCoverIndexBook = Done (Some 0%nat).
Proof.
  split.
  - apply (proj1 (getCover_amended markerCoverBook
                    (proj1 markerCoverBook_wellFormed))).
    vm_compute. split; [discriminate | reflexivity].
  - apply (proj2 (getCover_amended noCoverIndexBook
                    (proj2 markerCoverBook_wellFormed))).
    vm_compute. reflexivity.
Defined.

(** * Image loading *)

Lemma nth_error_store_other {A : Type} (l : list A) (i k : nat) (a : A) :
  (i < length l)%nat -> k <> i ->
  nth_error (store l i [a]) k = nth_error l k.
Proof.
  intros Hi Hk. unfold store. cbn [length app].
  rewrite nth_error_app, length_firstn, Nat.min_l by lia.
  destruct (Nat.ltb_spec k i).
  - rewrite nth_error_firstn. destruct (Nat.ltb_spec k i); [reflexivity | lia].
  - destruct (k - i)%nat as [|m] eqn:E; [lia|].
    cbn [nth_error]. rewrite nth_error_skipn. f_equal. lia.
Qed.

(** A slot whose record cannot be read, or is empty, is passed over. *)
Lemma loadImage_unreadable (f : File) (b : MobiBook) (k : nat) :
  imageUnreadable f b k ->
  loadImage f b (Z.of_nat k) = Done (true, b).
Proof.
  unfold imageUnreadable, loadImage. intros [-> | ->]; [reflexivity|].
  cbn [bind length Nat.eqb]. cbv zeta. rewrite readInto_nil. reflexivity.
Qed.

(** [loadImage] writes at most its own slot, and not even that one if its
    record cannot be read; it changes nothing that [readRecord] uses. *)
Lemma loadImage_slots (f : File) (b b' : MobiBook) (i : nat) (more : bool) :
  loadImage f b (Z.of_nat i) = Done (more, b') ->
  (forall k, imageUnreadable f b' k <-> imageUnreadable f b k)
  /\ (forall k, k <> i -> imageSlot b' k = imageSlot b k)
  /\ (imageUnreadable f b i -> imageSlot b' i = imageSlot b i).
Proof.
  unfold loadImage.
  destruct (readRecord f b (imageFirstRec b + Z.of_nat i))
    as [[imgData|]| | |] eqn:Er; cbn [bind]; try discriminate.
  2: { intros H. injection H as <- <-. repeat split; auto. }
  cbv zeta.
  assert ((forall k, imageUnreadable f (readInto imgData b) k
                     <-> imageUnreadable f b k)
          /\ (forall k, k <> i ->
                        imageSlot (readInto imgData b) k = imageSlot b k)
          /\ (imageUnreadable f b i ->
              imageSlot (readInto imgData b) i = imageSlot b i)) as Hkeep
    by (repeat split; auto).
  destruct (Nat.eqb_spec (length imgData) 0) as [Hz|Hnz].
  { intros H. injection H as <- <-. exact Hkeep. }
  destruct (IsEofRecord imgData) as [[|]| | |]; cbn [bind]; try discriminate.
  { intros H. injection H as <- <-. exact Hkeep. }
  destruct (KnownNonImageRec imgData) as [[|]| | |]; cbn [bind];
    try discriminate.
  { intros H. injection H as <- <-. exact Hkeep. }
  clear Hkeep. change (images (readInto imgData b)) with (images b).
  destruct (images b) as [arr|] eqn:Ei; [|discriminate].
  rewrite Nat2Z.id.
  destruct (Nat.ltb_spec i (length arr)) as [Hi|Hi]; [|discriminate].
  destruct (ImageType _) as [ext|]; [|discriminate].
  intros H. injection H as <- <-.
  split; [|split].
  - intros k. unfold imageUnreadable. destruct b; reflexivity.
  - intros k Hk. unfold imageSlot. rewrite Ei. destruct b; cbn [images].
    apply nth_error_store_other; assumption.
  - intros [Hu|Hu]; rewrite Hu in Er; [discriminate|].
    injection Er as <-. contradiction.
Qed.

Lemma loadImagesFrom_slots (f : File) (n i : nat) (b b' : MobiBook) :
  loadImagesFrom f n (Z.of_nat i) b = Done b' ->
  forall k, (k < i)%nat \/ imageUnreadable f b k ->
            imageSlot b' k = imageSlot b k.
Proof.
  revert i b. induction n as [|n IH]; intros i b; cbn [loadImagesFrom].
  - intros H. injection H as <-. reflexivity.
  - destruct (loadImage f b (Z.of_nat i)) as [[more b1]| | |] eqn:E;
      cbn [bind]; try discriminate.
    apply loadImage_slots in E. destruct E as [Hread [Hother Hown]].
    assert (forall k, (k < i)%nat \/ imageUnreadable f b k ->
                      imageSlot b1 k = imageSlot b k) as Hstep.
    { intros k Hk. destruct (Nat.eq_dec k i) as [->|Hne].
      - destruct Hk as [Hk|Hk]; [lia | apply Hown; exact Hk].
      - apply Hother. exact Hne. }
    destruct more.
    + replace (Z.of_nat i + 1) with (Z.of_nat (S i)) by lia.
      intros H k Hk. rewrite (IH _ _ H k).
      * apply Hstep. exact Hk.
      * destruct Hk as [Hk|Hk]; [left; lia | right; apply Hread; exact Hk].
    + intros H. injection H as <-. exact Hstep.
Qed.

(** C10.  A slot whose record cannot be read, or has length zero, is
    left as [calloc] made it, and the loop goes on with the next slot;
    after [loadImages] the slot is still empty.  Image loading has no way
    to make [parseHeader] return false: it returns false only when a stage
    before image loading does, and returns the book whenever those stages
    go through and [loadImages] ends. *)
Theorem unreadable_image_is_skipped (ndebug : bool) (size_bits : Z) (f : File) :
  (forall b k n,
      imageUnreadable f b k ->
      loadImage f b (Z.of_nat k) = Done (true, b)
      /\ loadImagesFrom f (S n) (Z.of_nat k) b
         = loadImagesFrom f n (Z.of_nat k + 1) b)
  /\ (forall b b' k,
         loadImages f b = Done b' ->
         (Z.of_nat k < imagesCount b) ->
         imageUnreadable f b k ->
         imageSlot b' k = Some emptyImage)
  /\ (forall b0,
         parseHeader ndebug size_bits f b0 = Done None ->
         headerStages ndebug size_bits f b0 = Done ReturnFalse)
  /\ (forall b0 b1 b2,
         headerStages ndebug size_bits f b0 = Done (Go b1) ->
         loadImages f b1 = Done b2 ->
         parseHeader ndebug size_bits f b0 = Done (Some b2)).
Proof.
  split; [|split; [|split]].
  - intros b k n Hu. pose proof (loadImage_unreadable f b k Hu) as Hl.
    split; [exact Hl|]. cbn [loadImagesFrom]. rewrite Hl. reflexivity.
  - intros b b' k Hload Hk Hu. unfold loadImages in Hload.
    destruct (Z.eqb_spec 0 (imagesCount b)) as [Hz|Hnz]; [lia|].
    apply (loadImagesFrom_slots f _ 0) with (k := k) in Hload.
    + rewrite Hload. unfold imageSlot. destruct b; cbn [images] in *.
      apply nth_error_repeat. cbn [imagesCount] in *. lia.
    + right. unfold imageUnreadable in *. destruct b; exact Hu.
  - intros b0. unfold parseHeader.
    destruct (headerStages ndebug size_bits f b0) as [[b|b|]| | |];
      cbn [bind]; try discriminate; try reflexivity.
    destruct (loadImages f b); cbn [bind]; discriminate.
  - intros b0 b1 b2 Hs Hl. unfold parseHeader. rewrite Hs. cbn [bind].
    rewrite Hl. reflexivity.
Qed.

Lemma unreadable_image_is_skipped_witness :
  loadImage unreadableImageFile (stagedBook unreadableImageFile) 0
  = Done (true, stagedBook unreadableImageFile)
  /\ imageSlot (loadedBook unreadableImageFile) 0 = Some emptyImage
  /\ imageSlot (loadedBook emptyImageFile) 0 = Some emptyImage
  /\ parseHeader true 64 unreadableImageFile newMobiBook
     = Done (Some (loadedBook unreadableImageFile)).
Proof.
  destruct (unreadable_image_is_skipped true 64 unreadableImageFile)
    as [Hskip [Hslot [_ Hok]]].
  destruct (unreadable_image_is_skipped true 64 emptyImageFile)
    as [_ [Hslot' _]].
  split; [|split; [|split]].
  - apply (Hskip (stagedBook unreadableImageFile) 0%nat 0%nat).
    left. vm_compute. reflexivity.
  - apply (Hslot (stagedBook unreadableImageFile) _ 0%nat).
    + vm_compute. reflexivity.
    + vm_compute. reflexivity.
    + left. vm_compute. reflexivity.
  - apply (Hslot' (stagedBook emptyImageFile) _ 0%nat).
    + vm_compute. reflexivity.
    + vm_compute. reflexivity.
    + right. vm_compute. reflexivity.
  - apply (Hok newMobiBook (stagedBook unreadableImageFile)).
    + vm_compute. reflexivity.
    + vm_compute. reflexivity.
Defined.

(** The files with an unreadable and an empty first image record are
    opened, with slot 0 empty and the JPEG of the second record in
    slot 1. *)
Example unreadable_image_file_opens :
  (exists b, createFromFile true 64 unreadableImageFile 0 = Done (Some b)
             /\ imageSlot b 0 = Some emptyImage
             /\ imageSlot b 1
                = Some (mkImageData (Some jpegBytes) 8 (Some jpg)))
  /\ (exists b, createFromFile true 64 emptyImageFile 0 = Done (Some b)
                /\ imageSlot b 0 = Some emptyImage
                /\ imageSlot b 1
                   = Some (mkImageData (Some jpegBytes) 8 (Some jpg))).
Proof.
  split; eexists; (split; [vm_compute; reflexivity|]);
    split; vm_compute; reflexivity.
Qed.

(** * Byte order *)

Lemma lor_shiftl_add (a b k : Z) :
  0 <= k -> 0 <= a < 2 ^ k -> Z.lor a (Z.shiftl b k) = a + b * 2 ^ k.
Proof.
  intros Hk Ha.
  assert (Z.land a (Z.shiftl b k) = 0) as Hdisj.
  { apply Z.bits_inj'. intros n Hn.
    rewrite Z.land_spec, Z.bits_0.
    destruct (Z.ltb_spec n k).
    - rewrite Z.shiftl_spec_low by lia. apply andb_false_r.
    - destruct (Z.eq_dec a 0) as [->|Hne]; [rewrite Z.bits_0; reflexivity|].
      rewrite (Z.bits_above_log2 a n); [reflexivity | lia |].
      apply Z.lt_le_trans with k; [|lia].
      apply Z.log2_lt_pow2; lia. }
  rewrite <- Z.lxor_lor by exact Hdisj.
  rewrite <- Z.add_nocarry_lxor by exact Hdisj.
  rewrite Z.shiftl_mul_pow2 by lia. reflexivity.
Qed.

Lemma land_255 (x : Z) : Z.land x 255 = x mod 256.
Proof. change 255 with (Z.ones 8). rewrite Z.land_ones by lia. reflexivity. Qed.

Lemma land_65535 (x : Z) : Z.land x 65535 = x mod 65536.
Proof. change 65535 with (Z.ones 16). rewrite Z.land_ones by lia. reflexivity. Qed.

Lemma div_mod_256 (c0 c1 : Z) :
  0 <= c0 < 256 -> (c0 + 256 * c1) mod 256 = c0 /\ (c0 + 256 * c1) / 256 = c1.
Proof.
  intros H. split.
  - symmetry. apply Z.mod_unique with c1; lia.
  - symmetry. apply Z.div_unique with c0; lia.
Qed.

Lemma BEtoHs_bytes (c0 c1 : Z) :
  0 <= c0 < 256 -> 0 <= c1 < 256 ->
  BEtoHs (c0 + 256 * c1) = c1 + 256 * c0.
Proof.
  intros H0 H1. unfold BEtoHs, MAKEWORD, HIBYTE, LOBYTE, u16, wrap.
  rewrite !land_255, Z.shiftr_div_pow2 by lia.
  change (2 ^ 16) with 65536. change (2 ^ 8) with 256.
  destruct (div_mod_256 c0 c1 H0) as [Hm Hd].
  rewrite (Z.mod_small (c0 + 256 * c1) 65536) by lia.
  rewrite Hm, Hd.
  rewrite !(Z.mod_small c1 256), !(Z.mod_small c0 256) by lia.
  rewrite (Z.mod_small c0 65536) by lia.
  rewrite lor_shiftl_add by lia. change (2 ^ 8) with 256.
  rewrite Z.mod_small by lia. lia.
Qed.

Lemma BEtoHl_bytes (c0 c1 c2 c3 : Z) :
  0 <= c0 < 256 -> 0 <= c1 < 256 -> 0 <= c2 < 256 -> 0 <= c3 < 256 ->
  BEtoHl (c0 + 256 * c1 + 65536 * c2 + 16777216 * c3)
  = c3 + 256 * c2 + 65536 * c1 + 16777216 * c0.
Proof.
  intros H0 H1 H2 H3. unfold BEtoHl, MAKELONG, HIWORD, LOWORD.
  rewrite land_65535, Z.shiftr_div_pow2 by lia. change (2 ^ 16) with 65536.
  assert ((c0 + 256 * c1 + 65536 * c2 + 16777216 * c3) / 65536 = c2 + 256 * c3)
    as -> by (symmetry; apply Z.div_unique with (c0 + 256 * c1); lia).
  assert (u16 (c0 + 256 * c1 + 65536 * c2 + 16777216 * c3) = c0 + 256 * c1)
    as ->.
  { unfold u16, wrap. change (2 ^ 16) with 65536.
    symmetry. apply Z.mod_unique with (c2 + 256 * c3); lia. }
  rewrite (Z.mod_small (c2 + 256 * c3)) by lia.
  rewrite !BEtoHs_bytes by lia.
  unfold u16, wrap. change (2 ^ 16) with 65536.
  rewrite !Z.mod_small by lia.
  rewrite lor_shiftl_add by lia. change (2 ^ 16) with 65536. lia.
Qed.

Lemma u8_mod (z : Z) (b : byte) : z mod 256 = val b -> u8 z = b.
Proof.
  intros H. unfold u8. rewrite H. unfold val.
  rewrite N2Z.id, Byte.of_to_N. reflexivity.
Qed.

Lemma nativeU16_bytes (mem : list byte) (off : nat) (b0 b1 : byte) :
  slice mem off 2 = Done [b0; b1] ->
  nativeU16 mem off = Done (val b0 + 256 * val b1).
Proof.
  intros H. unfold nativeU16. rewrite H. cbn [bind].
  pose proof (val_range b0). pose proof (val_range b1).
  rewrite lor_shiftl_add by lia. change (2 ^ 8) with 256.
  f_equal. lia.
Qed.

Lemma nativeU32_bytes (mem : list byte) (off : nat) (b0 b1 b2 b3 : byte) :
  slice mem off 4 = Done [b0; b1; b2; b3] ->
  nativeU32 mem off
  = Done (val b0 + 256 * val b1 + 65536 * val b2 + 16777216 * val b3).
Proof.
  intros H. unfold nativeU32. rewrite H. cbn [bind].
  pose proof (val_range b0). pose proof (val_range b1).
  pose proof (val_range b2). pose proof (val_range b3).
  rewrite (lor_shiftl_add (val b0)) by lia. change (2 ^ 8) with 256.
  assert (Z.lor (Z.shiftl (val b2) 16) (Z.shiftl (val b3) 24)
          = Z.shiftl (val b2 + 256 * val b3) 16) as ->.
  { rewrite (Z.shiftl_mul_pow2 (val b2)) by lia.
    rewrite lor_shiftl_add by (change (2 ^ 16) with 65536;
                               change (2 ^ 24) with 16777216; lia).
    rewrite Z.shiftl_mul_pow2 by lia.
    change (2 ^ 16) with 65536. change (2 ^ 24) with 16777216. lia. }
  rewrite lor_shiftl_add by (change (2 ^ 16) with 65536; lia).
  change (2 ^ 16) with 65536. f_equal. lia.
Qed.

Lemma length_store_within {A : Type} (l : list A) (off : nat) (bs : list A) :
  (off + length bs <= length l)%nat -> length (store l off bs) = length l.
Proof.
  intros H. unfold store.
  rewrite !length_app, length_firstn, length_skipn. lia.
Qed.

Lemma nth_error_store_outside {A : Type} (l : list A) (off : nat) (bs : list A)
    (i : nat) :
  (off + length bs <= length l)%nat ->
  (i < off \/ off + length bs <= i)%nat ->
  nth_error (store l off bs) i = nth_error l i.
Proof.
  intros Hl Hi. unfold store.
  rewrite nth_error_app, length_firstn, Nat.min_l by lia.
  destruct (Nat.ltb_spec i off).
  - rewrite nth_error_firstn. destruct (Nat.ltb_spec i off); [reflexivity | lia].
  - rewrite nth_error_app. destruct (Nat.ltb_spec (i - off) (length bs)); [lia|].
    rewrite nth_error_skipn. f_equal. lia.
Qed.

Lemma slice_store_same {A : Type} (l : list A) (off : nat) (bs : list A) :
  (off + length bs <= length l)%nat ->
  slice (store l off bs) off (length bs) = Done bs.
Proof.
  intros H. unfold slice. rewrite length_store_within by exact H.
  destruct (Nat.leb_spec (off + length bs) (length l)); [|lia].
  f_equal. unfold store.
  rewrite skipn_app, length_firstn, Nat.min_l by lia.
  rewrite skipn_all2 by (rewrite length_firstn; lia).
  replace (off - off)%nat with O by lia. cbn [skipn app].
  rewrite firstn_app, firstn_all, Nat.sub_diag. cbn [firstn].
  apply app_nil_r.
Qed.

Lemma store_slice {A : Type} (l : list A) (off : nat) (bs bs' : list A) :
  slice l off (length bs') = Done bs ->
  store (store l off bs') off bs = l.
Proof.
  intros H. apply slice_Done in H. destruct H as [Hl ->].
  unfold store at 1.
  assert (firstn off (store l off bs') = firstn off l) as ->.
  { unfold store. rewrite firstn_app, length_firstn, Nat.min_l by lia.
    rewrite Nat.sub_diag, firstn_firstn, Nat.min_id. cbn [firstn].
    apply app_nil_r. }
  rewrite length_firstn, length_skipn.
  replace (Nat.min (length bs') (length l - off)) with (length bs') by lia.
  assert (skipn (off + length bs') (store l off bs')
          = skipn (off + length bs') l) as ->.
  { unfold store. rewrite skipn_app, length_firstn, Nat.min_l by lia.
    rewrite skipn_all2 by (rewrite length_firstn; lia).
    rewrite skipn_app.
    rewrite skipn_all2 by lia.
    replace (off + length bs' - off - length bs')%nat with O by lia.
    reflexivity. }
  replace (off + length bs')%nat with (length bs' + off)%nat by lia.
  rewrite <- skipn_skipn, firstn_skipn. apply firstn_skipn.
Qed.

Lemma bytesU32_reversed (b0 b1 b2 b3 : byte) :
  bytesU32 (val b3 + 256 * val b2 + 65536 * val b1 + 16777216 * val b0)
  = [b3; b2; b1; b0].
Proof.
  pose proof (val_range b0). pose proof (val_range b1).
  pose proof (val_range b2). pose proof (val_range b3).
  unfold bytesU32. rewrite !Z.shiftr_div_pow2 by lia.
  change (2 ^ 8) with 256. change (2 ^ 16) with 65536.
  change (2 ^ 24) with 16777216.
  repeat f_equal; apply u8_mod.
  - symmetry.
    apply Z.mod_unique with (val b2 + 256 * val b1 + 65536 * val b0); lia.
  - replace ((val b3 + 256 * val b2 + 65536 * val b1 + 16777216 * val b0) / 256)
      with (val b2 + 256 * val b1 + 65536 * val b0)
      by (apply Z.div_unique with (val b3); lia).
    symmetry. apply Z.mod_unique with (val b1 + 256 * val b0); lia.
  - replace ((val b3 + 256 * val b2 + 65536 * val b1 + 16777216 * val b0)
             / 65536)
      with (val b1 + 256 * val b0)
      by (apply Z.div_unique with (val b3 + 256 * val b2); lia).
    symmetry. apply Z.mod_unique with (val b0); lia.
  - replace ((val b3 + 256 * val b2 + 65536 * val b1 + 16777216 * val b0)
             / 16777216)
      with (val b0)
      by (apply Z.div_unique with (val b3 + 256 * val b2 + 65536 * val b1);
          lia).
    apply Z.mod_small. lia.
Qed.

Lemma bytesU16_reversed (b0 b1 : byte) :
  bytesU16 (val b1 + 256 * val b0) = [b1; b0].
Proof.
  pose proof (val_range b0). pose proof (val_range b1).
  unfold bytesU16. rewrite Z.shiftr_div_pow2 by lia. change (2 ^ 8) with 256.
  destruct (div_mod_256 (val b1) (val b0)) as [Hm Hd]; [lia|].
  f_equal; [|f_equal]; apply u8_mod.
  - exact Hm.
  - rewrite Hd. apply Z.mod_small. lia.
Qed.

Lemma SwapU32_bytes (mem : list byte) (off : nat) (b0 b1 b2 b3 : byte) :
  slice mem off 4 = Done [b0; b1; b2; b3] ->
  SwapU32 mem off = Done (store mem off [b3; b2; b1; b0]).
Proof.
  intros H. unfold SwapU32. rewrite (nativeU32_bytes _ _ _ _ _ _ H).
  cbn [bind].
  pose proof (val_range b0). pose proof (val_range b1).
  pose proof (val_range b2). pose proof (val_range b3).
  rewrite BEtoHl_bytes by lia. rewrite bytesU32_reversed. reflexivity.
Qed.

Lemma SwapU16_bytes (mem : list byte) (off : nat) (b0 b1 : byte) :
  slice mem off 2 = Done [b0; b1] ->
  SwapU16 mem off = Done (store mem off [b1; b0]).
Proof.
  intros H. unfold SwapU16. rewrite (nativeU16_bytes _ _ _ _ H).
  cbn [bind].
  pose proof (val_range b0). pose proof (val_range b1).
  rewrite BEtoHs_bytes by lia. rewrite bytesU16_reversed. reflexivity.
Qed.

(** X1.  [SwapU32] on a field of a buffer reverses the field's four
    bytes in place: read natively afterwards, the field is the big-endian
    number of the bytes that were there; no other byte of the buffer
    changes; and a second swap restores the buffer. *)
Theorem SwapU32_big_endian (mem : list byte) (off : nat) (b0 b1 b2 b3 : byte) :
  slice mem off 4 = Done [b0; b1; b2; b3] ->
  exists mem',
    SwapU32 mem off = Done mem'
    /\ nativeU32 mem' off = Done (bigEndian [b0; b1; b2; b3])
    /\ length mem' = length mem
    /\ (forall i, (i < off \/ off + 4 <= i)%nat ->
                  nth_error mem' i = nth_error mem i)
    /\ SwapU32 mem' off = Done mem.
Proof.
  intros H. pose proof (slice_Done _ _ _ _ H) as [Hlen _].
  exists (store mem off [b3; b2; b1; b0]).
  assert (slice (store mem off [b3; b2; b1; b0]) off 4 = Done [b3; b2; b1; b0])
    as Hs by (apply (slice_store_same mem off [b3; b2; b1; b0]); exact Hlen).
  split; [apply SwapU32_bytes; exact H|].
  split.
  { rewrite (nativeU32_bytes _ _ _ _ _ _ Hs). f_equal.
    unfold bigEndian. cbn [fold_left]. lia. }
  split; [apply length_store_within; exact Hlen|].
  split.
  { intros i Hi. apply nth_error_store_outside; [exact Hlen | exact Hi]. }
  rewrite (SwapU32_bytes _ _ _ _ _ _ Hs). f_equal.
  apply (store_slice mem off [b0; b1; b2; b3] [b3; b2; b1; b0]). exact H.
Qed.

Lemma SwapU32_big_endian_witness :
  exists mem',
    SwapU32 [x4d; x00; x00; x01; x02; x4f] 1 = Done mem'
    /\ nativeU32 mem' 1 = Done 258
    /\ length mem' = 6%nat
    /\ (forall i, (i < 1 \/ 1 + 4 <= i)%nat ->
                  nth_error mem' i
                  = nth_error [x4d; x00; x00; x01; x02; x4f] i)
    /\ SwapU32 mem' 1 = Done [x4d; x00; x00; x01; x02; x4f].
Proof.
  exact (SwapU32_big_endian [x4d; x00; x00; x01; x02; x4f] 1
           x00 x00 x01 x02 eq_refl).
Defined.

(** X2.  [ReadBeU16] at an offset that leaves two bytes inside the object
    returns 256 times the first byte plus the second; at an offset that
    does not, it reads outside the object.  [SwapU16] exchanges the two
    bytes in place. *)
Theorem ReadBeU16_value (d : list byte) (off : nat) :
  (forall b0 b1,
      slice d off 2 = Done [b0; b1] ->
      ReadBeU16 d off = Done (256 * val b0 + val b1)
      /\ SwapU16 d off = Done (store d off [b1; b0]))
  /\ ((length d < off + 2)%nat -> ReadBeU16 d off = Undefined).
Proof.
  split.
  - intros b0 b1 H. split; [|apply SwapU16_bytes; exact H].
    unfold ReadBeU16. rewrite (nativeU16_bytes _ _ _ _ H). cbn [bind].
    pose proof (val_range b0). pose proof (val_range b1).
    rewrite BEtoHs_bytes by lia. f_equal. lia.
  - intros H. unfold ReadBeU16, nativeU16. rewrite slice_beyond by exact H.
    reflexivity.
Qed.

Lemma ReadBeU16_value_witness :
  ReadBeU16 [x00; x02; x01] 1 = Done 513
  /\ ReadBeU16 [x00; x02; x01] 2 = Undefined.
Proof.
  split.
  - apply (proj1 (ReadBeU16_value [x00; x02; x01] 1) x02 x01 eq_refl).
  - apply (proj2 (ReadBeU16_value [x00; x02; x01] 2)). simpl. lia.
Defined.

(** * PalmDOC decompression: the destination *)

Lemma copyLiterals_written (src : list byte) (c : nat) (st st' : PalmdocState) :
  copyLiterals src c st = Done st' ->
  length (written st') = (length (written st) + c)%nat.
Proof.
  revert st. induction c as [|c IH]; intros st H; cbn [copyLiterals] in H.
  - injection H as <-. lia.
  - destruct (load src (srcPos st)); cbn [bind] in H; try discriminate.
    apply IH in H. cbn [written] in H. rewrite length_app in H.
    cbn [length] in H. lia.
Qed.

Lemma copyBack_written (dstLen n back : nat) (out out' : list byte) :
  copyBack dstLen n back out = Done out' ->
  length out' = (length out + n)%nat /\ (0 < n -> length out' <= dstLen)%nat.
Proof.
  revert out. induction n as [|n IH]; intros out H; cbn [copyBack] in H.
  - injection H as <-. lia.
  - destruct (Nat.ltb_spec (length out) back); [discriminate|].
    destruct (Nat.leb_spec dstLen (length out)); [discriminate|].
    destruct (load out (length out - back)); cbn [bind] in H; try discriminate.
    apply IH in H. rewrite length_app in H. cbn [length] in H.
    destruct H as [Hlen Hroom]. split; [lia|]. intros _.
    destruct n; [lia | apply Hroom; lia].
Qed.



(** With assertions compiled in, no trip returns. *)
Lemma PalmdocBody_asserted (src : list byte) (srcLen dstLen : nat)
    (st : PalmdocState) (r : Uncompressed) :
  PalmdocBody false src srcLen dstLen st <> Done (Return r).
Proof.
  unfold PalmdocBody, assert.
  destruct (Nat.ltb_spec 0 (dstLen - length (written st))); cbn [bind];
    [|discriminate].
  destruct (Nat.eqb_spec (dstLen - length (written st)) 0); [lia|].
  destruct (load src (srcPos st)) as [b| | |]; cbn [bind]; try discriminate.
  destruct ((1 <=? val b) && (val b <=? 8)).
  { destruct (Nat.leb_spec (Z.to_nat (val b)) (dstLen - length (written st)));
      cbn [bind]; [|discriminate].
    destruct (Nat.ltb_spec (dstLen - length (written st)) (Z.to_nat (val b)));
      [lia|].
    destruct (copyLiterals src _ _); cbn [bind]; discriminate. }
  destruct (val b <? 128).
  { destruct (negb (val b =? 0)); cbn [bind]; discriminate. }
  destruct (192 <=? val b).
  { destruct (Nat.leb_spec 2 (dstLen - length (written st))); cbn [bind];
      [|discriminate].
    destruct (Nat.ltb_spec (dstLen - length (written st)) 2); [lia|].
    discriminate. }
  destruct ((128 <=? val b) && (val b <? 192)); cbn [bind]; [|discriminate].
  destruct (S (srcPos st) <? srcLen)%nat; cbn [bind]; [|discriminate].
  destruct (load src (S (srcPos st))) as [b2| | |]; cbn [bind];
    try discriminate.
  destruct (_ <=? length (written st))%nat; cbn [bind]; [|discriminate].
  destruct (_ <=? dstLen - length (written st))%nat; cbn [bind];
    [|discriminate].
  destruct (copyBack dstLen _ _ _); cbn [bind]; discriminate.
Qed.


(** A trip that goes on leaves the written bytes within the destination,
    by the guards of the source: a run of literals and a space pair are
    checked against what is left of the destination (lines 186-188 and
    197-199), and the copy of a back-reference is within the destination
    by the assertion of line 211, when assertions are compiled in. *)
Lemma assert_passed (cond : bool) : assert false cond = Done tt -> cond = true.
Proof. unfold assert. destruct cond; [reflexivity | discriminate]. Qed.

Lemma PalmdocBody_guarded (ndebug : bool) (src : list byte)
    (srcLen dstLen : nat) (st st' : PalmdocState) :
  ndebug = false
  \/ (forall b, nth_error src (srcPos st) = Some b ->
                val b < 128 \/ 192 <= val b) ->
  PalmdocBody ndebug src srcLen dstLen st = Done (Continue st') ->
  (length (written st') <= dstLen)%nat.
Proof.
  intros Hg. unfold PalmdocBody.
  destruct (assert ndebug _); cbn [bind]; try discriminate.
  destruct (Nat.eqb_spec (dstLen - length (written st)) 0) as [|Hfree];
    [discriminate|].
  unfold load.
  destruct (nth_error src (srcPos st)) as [b|] eqn:Eb; cbn [bind];
    try discriminate.
  destruct ((1 <=? val b) && (val b <=? 8)).
  { destruct (assert ndebug _); cbn [bind]; try discriminate.
    destruct (Nat.ltb_spec (dstLen - length (written st)) (Z.to_nat (val b)));
      [discriminate|].
    destruct (copyLiterals src _ _) as [st2| | |] eqn:E; cbn [bind];
      try discriminate.
    intros H'. injection H' as <-.
    apply copyLiterals_written in E. cbn [written] in E. lia. }
  destruct (Z.ltb_spec (val b) 128) as [Hlo|Hlo].
  { destruct (assert ndebug _); cbn [bind]; try discriminate.
    intros H'. injection H' as <-. cbn [written].
    rewrite length_app. cbn [length]. lia. }
  destruct (Z.leb_spec 192 (val b)) as [Hhi|Hhi].
  { destruct (assert ndebug _); cbn [bind]; try discriminate.
    destruct (Nat.ltb_spec (dstLen - length (written st)) 2); [discriminate|].
    intros H'. injection H' as <-. cbn [written].
    rewrite length_app. cbn [length]. lia. }
  destruct Hg as [->|Hg]; [|destruct (Hg b eq_refl); lia].
  destruct (assert false _); cbn [bind]; try discriminate.
  destruct (assert false _); cbn [bind]; try discriminate.
  destruct (S (srcPos st) <? srcLen)%nat.
  - destruct (nth_error src (S (srcPos st))) as [b2|]; cbn [bind];
      try discriminate.
    destruct (assert false _); cbn [bind]; try discriminate.
    destruct (assert false (_ <=? _)%nat) as [[]| | |] eqn:Ea; cbn [bind];
      try discriminate.
    apply assert_passed, Nat.leb_le in Ea.
    destruct (copyBack dstLen _ _ _) as [out| | |] eqn:E; cbn [bind];
      try discriminate.
    intros H'. injection H' as <-. cbn [written].
    apply copyBack_written in E. destruct E as [E _]. lia.
  - intros H'. injection H' as <-. cbn [written]. lia.
Qed.

Lemma PalmdocLoop_guarded (ndebug : bool) (src : list byte)
    (srcLen dstLen : nat) (fuel : nat) (st : PalmdocState) (out : list byte) :
  ndebug = false
  \/ Forall (fun b => val b < 128 \/ 192 <= val b) (firstn srcLen src) ->
  (length (written st) <= dstLen)%nat ->
  PalmdocLoop ndebug src srcLen dstLen fuel st = Done (Count out) ->
  (length out <= dstLen)%nat.
Proof.
  intros Hg. revert st.
  induction fuel as [|fuel IH]; intros st Hst; cbn [PalmdocLoop];
    [discriminate|].
  destruct (Nat.ltb_spec (srcPos st) srcLen) as [Hpos|Hpos].
  - destruct (PalmdocBody ndebug src srcLen dstLen st) as [[st'|r]| | |] eqn:E;
      cbn [bind]; try discriminate.
    + apply IH. apply (PalmdocBody_guarded ndebug src srcLen dstLen st st');
        [|exact E].
      destruct Hg as [Hg|Hg]; [left; exact Hg | right].
      intros b Hb. rewrite Forall_forall in Hg. apply Hg.
      apply nth_error_In with (n := srcPos st).
      rewrite nth_error_firstn.
      destruct (Nat.ltb_spec (srcPos st) srcLen); [exact Hb | lia].
    + destruct ndebug.
      * apply PalmdocBody_return in E. destruct E as [-> _]. discriminate.
      * apply PalmdocBody_asserted in E. contradiction.
  - intros H. injection H as <-. exact Hst.
Qed.

(** X3.  A count returned by [PalmdocUncompress] never exceeds the size
    of the destination when assertions are compiled in, or when no source
    byte is in 128..191.  (Lines 186-188 and 197-199 return -1 before a
    run or a space pair leaves the destination; the copy of a
    back-reference is only guarded by the assertion of line 211.) *)
Theorem PalmdocUncompress_count_within (ndebug : bool) (src : list byte)
    (srcLen dstLen : nat) (out : list byte) :
  ndebug = false
  \/ Forall (fun b => val b < 128 \/ 192 <= val b) (firstn srcLen src) ->
  PalmdocUncompress ndebug src srcLen dstLen = Done (Count out) ->
  (length out <= dstLen)%nat.
Proof.
  intros Hg. unfold PalmdocUncompress. apply PalmdocLoop_guarded.
  - exact Hg.
  - cbn [written length]. lia.
Qed.

Lemma PalmdocUncompress_count_within_witness :
  (length [x41; x41; x41; x41] <= 4)%nat
  /\ (length [x20; x41; x41] <= 3)%nat.
Proof.
  split.
  - apply (PalmdocUncompress_count_within false [x41; x80; x08] 3 4
             [x41; x41; x41; x41]).
    + left. reflexivity.
    + reflexivity.
  - apply (PalmdocUncompress_count_within true [xc1; x41] 2 3
             [x20; x41; x41]).
    + right. apply Forall_forall. intros b Hin. cbn [firstn In] in Hin.
      destruct Hin as [<-|[<-|[]]]; vm_compute; [right|left];
        first [discriminate | reflexivity].
    + reflexivity.
Defined.



Lemma PalmdocLoop_asserted (src : list byte) (srcLen dstLen fuel : nat)
    (st : PalmdocState) :
  PalmdocLoop false src srcLen dstLen fuel st <> Done MinusOne.
Proof.
  revert st. induction fuel as [|fuel IH]; intros st; cbn [PalmdocLoop];
    [discriminate|].
  destruct (srcPos st <? srcLen)%nat; [|discriminate].
  pose proof (PalmdocBody_asserted src srcLen dstLen st) as Hb.
  destruct (PalmdocBody false src srcLen dstLen st) as [[st'|r]| | |];
    cbn [bind]; try discriminate.
  - apply IH.
  - exfalso. apply (Hb r). reflexivity.
Qed.

(** X5.  With assertions compiled in, [PalmdocUncompress] never returns
    -1: every [return -1] (lines 181, 188, 199) follows an assertion of
    the opposite condition, so an exhausted destination ends the run at
    the assertion. *)
Theorem PalmdocUncompress_asserted_no_error (src : list byte)
    (srcLen dstLen : nat) :
  PalmdocUncompress false src srcLen dstLen <> Done MinusOne.
Proof.
  unfold PalmdocUncompress. apply PalmdocLoop_asserted.
Qed.

(** * Record signatures *)

Lemma val_inj (a b : byte) : val a = val b -> a = b.
Proof.
  intros H. rewrite <- (u8_val a), <- (u8_val b), H. reflexivity.
Qed.

Lemma bigEndian4_inj (a b c d a' b' c' d' : byte) :
  bigEndian [a; b; c; d] = bigEndian [a'; b'; c'; d'] ->
  [a; b; c; d] = [a'; b'; c'; d'].
Proof.
  unfold bigEndian. cbn [fold_left]. intros H.
  pose proof (val_range a). pose proof (val_range b).
  pose proof (val_range c). pose proof (val_range d).
  pose proof (val_range a'). pose proof (val_range b').
  pose proof (val_range c'). pose proof (val_range d').
  assert (val a = val a') by lia. assert (val b = val b') by lia.
  assert (val c = val c') by lia. assert (val d = val d') by lia.
  repeat f_equal; apply val_inj; assumption.
Qed.

Lemma bigEndian_range (bs : list byte) :
  0 <= bigEndian bs < 256 ^ Z.of_nat (length bs).
Proof.
  unfold bigEndian.
  assert (forall acc, 0 <= acc ->
            0 <= fold_left (fun acc b => 256 * acc + val b) bs acc
            < (acc + 1) * 256 ^ Z.of_nat (length bs)) as G.
  { induction bs as [|b bs IH]; intros acc Hacc; cbn [fold_left length].
    - change (256 ^ Z.of_nat 0) with 1. lia.
    - pose proof (val_range b) as Hb.
      specialize (IH (256 * acc + val b) ltac:(lia)).
      rewrite Nat2Z.inj_succ, Z.pow_succ_r by lia.
      assert (0 < 256 ^ Z.of_nat (length bs)) by (apply Z.pow_pos_nonneg; lia).
      nia. }
  specialize (G 0 ltac:(lia)). lia.
Qed.

Lemma step_u32 (v : Z) (b : byte) :
  0 <= v < 16777216 ->
  Z.lor (u32 (Z.shiftl v 8)) (val b) = 256 * v + val b.
Proof.
  intros Hv. pose proof (val_range b).
  unfold u32, wrap. rewrite Z.shiftl_mul_pow2 by lia.
  change (2 ^ 8) with 256. change (2 ^ 32) with 4294967296.
  rewrite Z.mod_small by lia.
  rewrite Z.lor_comm.
  replace (v * 256) with (Z.shiftl v 8)
    by (rewrite Z.shiftl_mul_pow2 by lia; reflexivity).
  rewrite lor_shiftl_add by (change (2 ^ 8) with 256; lia).
  change (2 ^ 8) with 256. lia.
Qed.

(** [GetUpToFour] is the big-endian number of the first four bytes, or of
    all the bytes if there are fewer. *)
Lemma GetUpToFour_bigEndian (b0 : byte) (rest : list byte) :
  GetUpToFour (b0 :: rest) = Done (bigEndian (b0 :: firstn 3 rest)).
Proof.
  unfold GetUpToFour, bigEndian. f_equal.
  pose proof (val_range b0).
  destruct rest as [|b1 [|b2 [|b3 rest]]]; cbn [firstn fold_left].
  - lia.
  - rewrite step_u32 by lia. lia.
  - pose proof (val_range b1).
    rewrite (step_u32 (val b0)) by lia.
    rewrite step_u32 by lia. lia.
  - pose proof (val_range b1). pose proof (val_range b2).
    rewrite (step_u32 (val b0)) by lia.
    rewrite (step_u32 (256 * val b0 + val b1)) by lia.
    rewrite step_u32 by lia. lia.
Qed.

(** The end-of-file record. *)
Lemma IsEofRecord_eofRecord (d : list byte) :
  IsEofRecord d = Done (if bytes_eq_dec d eofRecord then true else false).
Proof.
  unfold IsEofRecord.
  destruct (bytes_eq_dec d eofRecord) as [->|Hne]; [reflexivity|].
  destruct (Nat.eqb_spec (length d) 4) as [Hl|Hl]; [|reflexivity].
  destruct d as [|a [|b [|c [|e [|? ?]]]]]; try discriminate.
  rewrite GetUpToFour_bigEndian. cbn [firstn bind]. f_equal.
  destruct (Z.eqb_spec EOF_REC (bigEndian [a; b; c; e])) as [He|He];
    [|reflexivity].
  exfalso. apply Hne. unfold eofRecord.
  apply bigEndian4_inj. rewrite <- He. reflexivity.
Qed.

(** X6.  [IsEofRecord] holds of exactly one record: the four bytes
    E9 8E 0D 0A.  A record that starts with these bytes and goes on is not
    an end-of-file record, nor is an empty one. *)
Theorem IsEofRecord_exact (d : list byte) :
  IsEofRecord d = Done (if bytes_eq_dec d eofRecord then true else false).
Proof. exact (IsEofRecord_eofRecord d). Qed.

Lemma tag_eqb (tag : Z) (t0 t1 t2 t3 a b c e : byte) :
  tag = bigEndian [t0; t1; t2; t3] ->
  (tag =? bigEndian [a; b; c; e]) = true <-> [a; b; c; e] = [t0; t1; t2; t3].
Proof.
  intros ->. rewrite Z.eqb_eq. split.
  - intros H. symmetry in H. apply bigEndian4_inj. exact H.
  - intros H. injection H as -> -> -> ->. reflexivity.
Qed.

(** The six signatures of records that are not images. *)
Lemma KnownNonImageRec_known (d : list byte) :
  d <> [] ->
  exists known,
    KnownNonImageRec d = Done known
    /\ (known = true <-> (4 <= length d)%nat /\ In (firstn 4 d) nonImageTags).
Proof.
  intros Hd. destruct d as [|a rest]; [contradiction|].
  unfold KnownNonImageRec. rewrite GetUpToFour_bigEndian. cbn [bind].
  eexists. split; [reflexivity|].
  destruct rest as [|b [|c [|e rest]]].
  - (* one byte *)
    pose proof (bigEndian_range [a]) as R. cbn [firstn length] in *.
    change (256 ^ Z.of_nat 1) with 256 in R.
    split; [|intros [H _]; lia].
    intros H. exfalso. revert H.
    unfold FLIS_REC, FCIS_REC, FDST_REC, DATP_REC, SRCS_REC, VIDE_REC.
    repeat match goal with
      | |- context [?k =? ?v] => destruct (Z.eqb_spec k v); [lia|]
      end.
    discriminate.
  - pose proof (bigEndian_range [a; b]) as R. cbn [firstn length] in *.
    change (256 ^ Z.of_nat 2) with 65536 in R.
    split; [|intros [H _]; lia].
    intros H. exfalso. revert H.
    unfold FLIS_REC, FCIS_REC, FDST_REC, DATP_REC, SRCS_REC, VIDE_REC.
    repeat match goal with
      | |- context [?k =? ?v] => destruct (Z.eqb_spec k v); [lia|]
      end.
    discriminate.
  - pose proof (bigEndian_range [a; b; c]) as R. cbn [firstn length] in *.
    change (256 ^ Z.of_nat 3) with 16777216 in R.
    split; [|intros [H _]; lia].
    intros H. exfalso. revert H.
    unfold FLIS_REC, FCIS_REC, FDST_REC, DATP_REC, SRCS_REC, VIDE_REC.
    repeat match goal with
      | |- context [?k =? ?v] => destruct (Z.eqb_spec k v); [lia|]
      end.
    discriminate.
  - cbn [firstn length]. unfold nonImageTags. cbn [In].
    rewrite !orb_true_iff.
    rewrite (tag_eqb FLIS_REC x46 x4c x49 x53) by reflexivity.
    rewrite (tag_eqb FCIS_REC x46 x43 x49 x53) by reflexivity.
    rewrite (tag_eqb FDST_REC x46 x44 x53 x54) by reflexivity.
    rewrite (tag_eqb DATP_REC x44 x41 x54 x50) by reflexivity.
    rewrite (tag_eqb SRCS_REC x53 x52 x43 x53) by reflexivity.
    rewrite (tag_eqb VIDE_REC x56 x49 x44 x45) by reflexivity.
    split.
    + intros H. split; [lia|].
      repeat destruct H as [H|H]; rewrite H; tauto.
    + intros [_ H].
      repeat destruct H as [H|H]; try contradiction;
        rewrite <- H; tauto.
Qed.

(** X7.  [KnownNonImageRec] holds of a record exactly when the record
    has at least four bytes and begins with one of the six signatures FLIS,
    FCIS, FDST, DATP, SRCS, VIDE; a record of one to three bytes is never
    taken for one. *)
Theorem KnownNonImageRec_tags (d : list byte) :
  d <> [] ->
  exists known,
    KnownNonImageRec d = Done known
    /\ (known = true <-> (4 <= length d)%nat /\ In (firstn 4 d) nonImageTags).
Proof. exact (KnownNonImageRec_known d). Qed.

Lemma KnownNonImageRec_tags_witness :
  exists known,
    KnownNonImageRec flisBytes = Done known
    /\ (known = true
        <-> (4 <= length flisBytes)%nat /\ In (firstn 4 flisBytes) nonImageTags).
Proof.
  apply (KnownNonImageRec_tags flisBytes). discriminate.
Defined.

(** [strncmp] of data against a literal without NUL bytes, over the
    length of the literal, is zero exactly when the data begins with the
    literal; it reads nothing after the data if the data is that long. *)
Lemma strncmp_data_literal (tag data : list byte) :
  Forall (fun b => val b <> 0) tag ->
  (length tag <= length data)%nat ->
  exists r, strncmp data (literal tag) (length tag) = Done r
            /\ (r = 0 <-> firstn (length tag) data = tag).
Proof.
  intros Hnz. revert data.
  induction Hnz as [|t ts Ht Hts IH]; intros data Hlen.
  - exists 0. split; [destruct data; reflexivity|]. cbn [length firstn]. tauto.
  - destruct data as [|x xs]; [cbn [length] in Hlen; lia|].
    cbn [length] in Hlen. cbn [length literal app strncmp firstn].
    destruct (Z.eqb_spec (val x) (val t)) as [He|He].
    + apply val_inj in He. subst x.
      destruct (Z.eqb_spec (val t) 0); [contradiction|].
      destruct (IH xs ltac:(lia)) as [r [Hr Hiff]].
      exists r. split; [exact Hr|]. rewrite Hiff. split.
      * intros ->. reflexivity.
      * intros H. injection H as H. exact H.
    + exists (val x - val t). split; [reflexivity|]. split; [lia|].
      intros H. injection H as H _. subst x. contradiction.
Qed.

Lemma strncmp_literal_data (tag data : list byte) :
  Forall (fun b => val b <> 0) tag ->
  (length tag <= length data)%nat ->
  exists r, strncmp (literal tag) data (length tag) = Done r
            /\ (r = 0 <-> firstn (length tag) data = tag).
Proof.
  intros Hnz. revert data.
  induction Hnz as [|t ts Ht Hts IH]; intros data Hlen.
  - exists 0. split; [destruct data; reflexivity|]. cbn [length firstn]. tauto.
  - destruct data as [|x xs]; [cbn [length] in Hlen; lia|].
    cbn [length] in Hlen. cbn [length literal app strncmp firstn].
    destruct (Z.eqb_spec (val t) (val x)) as [He|He].
    + apply val_inj in He. subst x.
      destruct (Z.eqb_spec (val t) 0); [contradiction|].
      destruct (IH xs ltac:(lia)) as [r [Hr Hiff]].
      exists r. split; [exact Hr|]. rewrite Hiff. split.
      * intros ->. reflexivity.
      * intros H. injection H as H. exact H.
    + exists (val t - val x). split; [reflexivity|]. split; [lia|].
      intros H. injection H as H _. subst x. contradiction.
Qed.

Lemma magic_test (magic d : list byte) :
  Forall (fun b => val b <> 0) magic -> length magic = 4%nat ->
  (4 <= length d)%nat ->
  match strncmp d (literal magic) 4 with
  | Done r => Some (r =? 0)
  | _ => None
  end
  = Some (if bytes_eq_dec (firstn 4 d) magic then true else false).
Proof.
  intros Hnz Hl Hd.
  destruct (strncmp_data_literal magic d Hnz ltac:(lia)) as [r [Hr Hiff]].
  rewrite Hl in Hr, Hiff. rewrite Hr. f_equal.
  destruct (bytes_eq_dec (firstn 4 d) magic) as [He|He].
  - apply Z.eqb_eq. apply Hiff. exact He.
  - apply Z.eqb_neq. intros H0. apply He. apply Hiff. exact H0.
Qed.

(** The extension of a record of at least four bytes. *)
Lemma ImageType_magic (d : list byte) :
  (4 <= length d)%nat -> ImageType d = Some (extensionByMagic d).
Proof.
  intros Hd. unfold ImageType, extensionByMagic.
  rewrite (magic_test JPG_MAGIC d), (magic_test PNG_MAGIC d),
          (magic_test GIF_MAGIC d);
    try assumption; try reflexivity;
    try (repeat constructor; vm_compute; discriminate).
  destruct (bytes_eq_dec (firstn 4 d) JPG_MAGIC); [reflexivity|].
  destruct (bytes_eq_dec (firstn 4 d) PNG_MAGIC); [reflexivity|].
  destruct (bytes_eq_dec (firstn 4 d) GIF_MAGIC); reflexivity.
Qed.

(** X8.  For a record of at least four bytes [ImageType] is decided by
    the first four bytes alone: ".jpg" for FF D8 FF E0, ".png" for
    89 'P' 'N' 'G', ".gif" for "GIF8", and ".bin" for anything else. *)
Theorem ImageType_by_magic (d : list byte) :
  (4 <= length d)%nat -> ImageType d = Some (extensionByMagic d).
Proof. exact (ImageType_magic d). Qed.

Lemma ImageType_by_magic_witness :
  ImageType (GIF_MAGIC ++ [x39; x61]) = Some gif
  /\ ImageType flisBytes = Some bin.
Proof.
  split.
  - apply (ImageType_by_magic (GIF_MAGIC ++ [x39; x61])). simpl. lia.
  - apply (ImageType_by_magic flisBytes). simpl. lia.
Defined.

(** * The record table *)

Lemma firstn_skipn_store_outside {A : Type} (l : list A) (off : nat)
    (bs : list A) (off' n : nat) :
  (off + length bs <= length l)%nat ->
  (off' + n <= off \/ off + length bs <= off')%nat ->
  firstn n (skipn off' (store l off bs)) = firstn n (skipn off' l).
Proof.
  intros Hl Ho. apply nth_error_ext. intros i.
  rewrite !nth_error_firstn, !nth_error_skipn.
  destruct (Nat.ltb_spec i n); [|reflexivity].
  apply nth_error_store_outside; [exact Hl | lia].
Qed.

Lemma slice_four (mem : list byte) (off : nat) :
  (off + 4 <= length mem)%nat ->
  exists b0 b1 b2 b3, slice mem off 4 = Done [b0; b1; b2; b3].
Proof.
  intros H. unfold slice.
  destruct (Nat.leb_spec (off + 4) (length mem)); [|lia].
  remember (firstn 4 (skipn off mem)) as l eqn:El.
  assert (length l = 4%nat) as Hl
    by (subst l; rewrite length_firstn, length_skipn; lia).
  destruct l as [|b0 [|b1 [|b2 [|b3 [|b4 l]]]]]; try discriminate Hl.
  exists b0, b1, b2, b3. reflexivity.
Qed.

Lemma slice_two (mem : list byte) (off : nat) :
  (off + 2 <= length mem)%nat ->
  exists b0 b1, slice mem off 2 = Done [b0; b1].
Proof.
  intros H. unfold slice.
  destruct (Nat.leb_spec (off + 2) (length mem)); [|lia].
  remember (firstn 2 (skipn off mem)) as l eqn:El.
  assert (length l = 2%nat) as Hl
    by (subst l; rewrite length_firstn, length_skipn; lia).
  destruct l as [|b0 [|b1 [|b2 l]]]; try discriminate Hl.
  exists b0, b1. reflexivity.
Qed.

(** A swapped 32-bit field reads as the big-endian number of the bytes
    that were there; fields that do not overlap it are left alone. *)
Lemma SwapU32_read (mem : list byte) (off : nat) :
  (off + 4 <= length mem)%nat ->
  exists mem',
    SwapU32 mem off = Done mem'
    /\ nativeU32 mem' off = Done (bigEndianAt mem off 4)
    /\ length mem' = length mem
    /\ (forall off' n, (off' + n <= off \/ off + 4 <= off')%nat ->
          firstn n (skipn off' mem') = firstn n (skipn off' mem)).
Proof.
  intros Hlen. destruct (slice_four mem off Hlen) as [b0 [b1 [b2 [b3 H]]]].
  exists (store mem off [b3; b2; b1; b0]).
  assert (slice (store mem off [b3; b2; b1; b0]) off 4 = Done [b3; b2; b1; b0])
    as Hs by (apply (slice_store_same mem off [b3; b2; b1; b0]); exact Hlen).
  split; [apply SwapU32_bytes; exact H|].
  split.
  { rewrite (nativeU32_bytes _ _ _ _ _ _ Hs). f_equal.
    apply slice_Done in H. destruct H as [_ H].
    unfold bigEndianAt. rewrite <- H. unfold bigEndian. cbn [fold_left]. lia. }
  split; [apply length_store_within; exact Hlen|].
  intros off' n Ho. apply firstn_skipn_store_outside; [exact Hlen | exact Ho].
Qed.

Lemma SwapU16_read (mem : list byte) (off : nat) :
  (off + 2 <= length mem)%nat ->
  exists mem',
    SwapU16 mem off = Done mem'
    /\ nativeU16 mem' off = Done (bigEndianAt mem off 2)
    /\ length mem' = length mem
    /\ (forall off' n, (off' + n <= off \/ off + 2 <= off')%nat ->
          firstn n (skipn off' mem') = firstn n (skipn off' mem)).
Proof.
  intros Hlen. destruct (slice_two mem off Hlen) as [b0 [b1 H]].
  exists (store mem off [b1; b0]).
  assert (slice (store mem off [b1; b0]) off 2 = Done [b1; b0])
    as Hs by (apply (slice_store_same mem off [b1; b0]); exact Hlen).
  split; [apply SwapU16_bytes; exact H|].
  split.
  { rewrite (nativeU16_bytes _ _ _ _ Hs). f_equal.
    apply slice_Done in H. destruct H as [_ H].
    unfold bigEndianAt. rewrite <- H. unfold bigEndian. cbn [fold_left]. lia. }
  split; [apply length_store_within; exact Hlen|].
  intros off' n Ho. apply firstn_skipn_store_outside; [exact Hlen | exact Ho].
Qed.

Lemma SwapU32_short (mem : list byte) (off : nat) :
  (length mem < off + 4)%nat -> SwapU32 mem off = Undefined.
Proof.
  intros H. unfold SwapU32, nativeU32. rewrite slice_beyond by exact H.
  reflexivity.
Qed.

(** Lines 552-554 turn the raw record headers into the big-endian
    numbers of their first four bytes. *)
Lemma swapOffsets_bigEndian (n : nat) (raw : list byte) (i : nat) :
  (kPdbRecordHeaderLen * (i + n) <= length raw)%nat ->
  swapOffsets raw i n
  = Done (map (fun k => bigEndianAt raw (kPdbRecordHeaderLen * k) 4) (seq i n)).
Proof.
  unfold kPdbRecordHeaderLen.
  revert raw i. induction n as [|n IH]; intros raw i Hlen; [reflexivity|].
  cbn [swapOffsets seq map]. unfold kPdbRecordHeaderLen.
  destruct (SwapU32_read raw (8 * i) ltac:(lia)) as [raw' [Hs [Hr [Hl Hf]]]].
  rewrite Hs. cbn [bind]. rewrite Hr. cbn [bind].
  rewrite IH by lia. cbn [bind]. do 2 f_equal.
  apply map_ext_in. intros k Hk. apply in_seq in Hk.
  unfold bigEndianAt. rewrite Hf by lia. reflexivity.
Qed.

Lemma offsetsValid_sorted (offs : list Z) :
  offsetsValid offs = true <->
  (forall i o1 o2, nth_error offs i = Some o1 ->
                   nth_error offs (S i) = Some o2 -> o1 <= o2).
Proof.
  induction offs as [|o1 [|o2 rest] IH].
  - split; [|reflexivity]. intros _ [|i] ? ? H; discriminate H.
  - split; [|reflexivity]. intros _ [|[|i]] ? ? H H'; discriminate H'.
  - cbn [offsetsValid]. destruct (Z.ltb_spec o2 o1) as [Hlt|Hge].
    + split; [discriminate|]. intros H.
      specialize (H 0%nat o1 o2 eq_refl eq_refl). lia.
    + rewrite IH. split.
      * intros H [|i] a b Ha Hb.
        -- cbn in Ha, Hb. injection Ha as <-. injection Hb as <-. exact Hge.
        -- exact (H i a b Ha Hb).
      * intros H i a b Ha Hb. exact (H (S i) a b Ha Hb).
Qed.

Lemma fread_Some (f : File) (off n : nat) (d : list byte) :
  fread f off n = Some d ->
  (off + n <= length (contents f))%nat
  /\ d = firstn n (skipn off (contents f))
  /\ ioError f off n = false.
Proof.
  unfold fread. destruct (ioError f off n); [discriminate|].
  destruct (Nat.leb_spec (off + n) (length (contents f))) as [Hle|Hgt];
    [|discriminate].
  intros E. injection E as <-. auto.
Qed.

Lemma firstn_skipn_firstn {A : Type} (l : list A) (n off m : nat) :
  (off + n <= m)%nat ->
  firstn n (skipn off (firstn m l)) = firstn n (skipn off l).
Proof.
  intros H. apply nth_error_ext. intros i.
  rewrite !nth_error_firstn, !nth_error_skipn, nth_error_firstn.
  destruct (Nat.ltb_spec i n); [|reflexivity].
  destruct (Nat.ltb_spec (off + i) m); [reflexivity | lia].
Qed.

Lemma type_creator_nonzero :
  Forall (fun b => val b <> 0) MOBI_TYPE_CREATOR
  /\ Forall (fun b => val b <> 0) PALMDOC_TYPE_CREATOR.
Proof. split; repeat constructor; vm_compute; discriminate. Qed.

(** What [parsePdbHeader] has established when it goes on. *)
Lemma parsePdbHeader_Go (f : File) (b b' : MobiBook) :
  parsePdbHeader f b = Done (Go b') ->
  numRecords b' = bigEndianAt (contents f) 76 2
  /\ 1 <= numRecords b'
  /\ (78 + 8 * Z.to_nat (numRecords b') <= length (contents f))%nat
  /\ recHeaders b'
     = (map (fun k => bigEndianAt (contents f) (78 + 8 * k) 4)
            (seq 0 (Z.to_nat (numRecords b')))
        ++ [u32 (Z.of_nat (length (contents f)))])%list
  /\ (forall i o1 o2,
         nth_error (recHeaders b') i = Some o1 ->
         nth_error (recHeaders b') (S i) = Some o2 -> o1 <= o2)
  /\ firstn 8 (skipn 60 (contents f))
     = (if isMobi b' then MOBI_TYPE_CREATOR else PALMDOC_TYPE_CREATOR).
Proof.
  unfold parsePdbHeader, kPdbHeaderLen, pdbTypeOffset, pdbNumRecordsOffset.
  destruct (fread f 0 78) as [hdr|] eqn:Hhdr; [|discriminate].
  apply fread_Some in Hhdr. destruct Hhdr as [Hlen [Ehdr _]].
  cbn [skipn] in Ehdr.
  assert (length hdr = 78%nat) as Lhdr
    by (subst hdr; rewrite length_firstn; lia).
  assert (firstn 8 (skipn 60 hdr) = firstn 8 (skipn 60 (contents f))) as Etc
    by (subst hdr; apply firstn_skipn_firstn; lia).
  destruct type_creator_nonzero as [NzM NzP].
  destruct (strncmp_data_literal MOBI_TYPE_CREATOR (skipn 60 hdr) NzM)
    as [rM [HrM HiffM]];
    [rewrite length_skipn, Lhdr; cbn; lia|].
  destruct (strncmp_data_literal PALMDOC_TYPE_CREATOR (skipn 60 hdr) NzP)
    as [rP [HrP HiffP]];
    [rewrite length_skipn, Lhdr; cbn; lia|].
  change (length MOBI_TYPE_CREATOR) with 8%nat in HrM, HiffM.
  change (length PALMDOC_TYPE_CREATOR) with 8%nat in HrP, HiffP.
  rewrite HrM. cbn [bind].
  assert (forall mobi : bool,
            firstn 8 (skipn 60 (contents f))
            = (if mobi then MOBI_TYPE_CREATOR else PALMDOC_TYPE_CREATOR) ->
            match
              (pdbHeader <- SwapU16 hdr 76 ;;
               n <- nativeU16 pdbHeader 76 ;;
               if n <? 1 then Done ReturnFalse else
               match fread f 78 (kPdbRecordHeaderLen * Z.to_nat n) with
               | None => Done ReturnFalse
               | Some raw =>
                   offs <- swapOffsets raw 0 (Z.to_nat n) ;;
                   let fileSize := Z.of_nat (length (contents f)) in
                   let offs := (offs ++ [u32 fileSize])%list in
                   if negb (offsetsValid offs) then Done ReturnFalse else
                   Done (Go (set_recHeaders offs
                               (set_numRecords n (set_isMobi mobi b))))
               end)
            with
            | Done (Go b'') => b'' = b'
            | _ => False
            end ->
            numRecords b' = bigEndianAt (contents f) 76 2
            /\ 1 <= numRecords b'
            /\ (78 + 8 * Z.to_nat (numRecords b') <= length (contents f))%nat
            /\ recHeaders b'
               = (map (fun k => bigEndianAt (contents f) (78 + 8 * k) 4)
                      (seq 0 (Z.to_nat (numRecords b')))
                  ++ [u32 (Z.of_nat (length (contents f)))])%list
            /\ (forall i o1 o2,
                   nth_error (recHeaders b') i = Some o1 ->
                   nth_error (recHeaders b') (S i) = Some o2 -> o1 <= o2)
            /\ firstn 8 (skipn 60 (contents f))
               = (if isMobi b' then MOBI_TYPE_CREATOR else PALMDOC_TYPE_CREATOR))
    as Tail.
  { intros mobi Htc.
    destruct (SwapU16_read hdr 76 ltac:(lia)) as [hdr' [Hs [Hr _]]].
    rewrite Hs. cbn [bind]. rewrite Hr. cbn [bind].
    assert (bigEndianAt hdr 76 2 = bigEndianAt (contents f) 76 2) as ->
      by (unfold bigEndianAt; subst hdr; rewrite firstn_skipn_firstn by lia;
          reflexivity).
    set (n := bigEndianAt (contents f) 76 2).
    destruct (Z.ltb_spec n 1) as [|Hn]; [intros []|].
    unfold kPdbRecordHeaderLen.
    destruct (fread f 78 (8 * Z.to_nat n)) as [raw|] eqn:Hraw; [|intros []].
    apply fread_Some in Hraw. destruct Hraw as [Hrl [Eraw _]].
    assert (length raw = (8 * Z.to_nat n)%nat) as Lraw
      by (subst raw; rewrite length_firstn, length_skipn; lia).
    rewrite swapOffsets_bigEndian by (unfold kPdbRecordHeaderLen; lia).
    cbn [bind]. cbv zeta. unfold kPdbRecordHeaderLen.
    assert (map (fun k => bigEndianAt raw (8 * k) 4) (seq 0 (Z.to_nat n))
            = map (fun k => bigEndianAt (contents f) (78 + 8 * k) 4)
                  (seq 0 (Z.to_nat n))) as ->.
    { apply map_ext_in. intros k Hk. apply in_seq in Hk.
      unfold bigEndianAt. subst raw.
      rewrite firstn_skipn_firstn by lia. rewrite skipn_skipn.
      replace (8 * k + 78)%nat with (78 + 8 * k)%nat by lia. reflexivity. }
    match goal with
    | |- context [offsetsValid ?l] =>
        destruct (offsetsValid l) eqn:Hv; cbn [negb]; [|intros []]
    end.
    intros <-. unfold set_recHeaders, set_numRecords, set_isMobi.
    cbn [numRecords recHeaders isMobi].
    split; [reflexivity|]. split; [exact Hn|]. split; [exact Hrl|].
    split; [reflexivity|]. split; [|exact Htc].
    apply offsetsValid_sorted. exact Hv. }
  destruct (Z.eqb_spec rM 0) as [EM|NM].
  - cbn [bind]. intros Hrun. apply (Tail true).
    + rewrite <- Etc. apply HiffM. exact EM.
    + cbv zeta. cbv zeta in Hrun. rewrite Hrun. reflexivity.
  - rewrite HrP. cbn [bind].
    destruct (Z.eqb_spec rP 0) as [EP|NP]; [|discriminate].
    intros Hrun. apply (Tail false).
    + rewrite <- Etc. apply HiffP. exact EP.
    + cbv zeta. cbv zeta in Hrun. rewrite Hrun. reflexivity.
Qed.

(** X9.  When the first stage of [parseHeader] goes on, the book holds the
    record table of the file: the record count is the big-endian number in
    bytes 76-77 and is at least one, the table lies inside the file, its
    entries are the big-endian numbers at the start of the 8-byte record
    headers followed by the file size as a sentinel, the entries never
    decrease, and bytes 60-67 are "BOOKMOBI" or "TEXtREAd" as [isMobi]
    says. *)
Theorem parsePdbHeader_table (f : File) (b b' : MobiBook) :
  parsePdbHeader f b = Done (Go b') ->
  numRecords b' = bigEndianAt (contents f) 76 2
  /\ 1 <= numRecords b'
  /\ (78 + 8 * Z.to_nat (numRecords b') <= length (contents f))%nat
  /\ recHeaders b'
     = (map (fun k => bigEndianAt (contents f) (78 + 8 * k) 4)
            (seq 0 (Z.to_nat (numRecords b')))
        ++ [u32 (Z.of_nat (length (contents f)))])%list
  /\ (forall i o1 o2,
         nth_error (recHeaders b') i = Some o1 ->
         nth_error (recHeaders b') (S i) = Some o2 -> o1 <= o2)
  /\ firstn 8 (skipn 60 (contents f))
     = (if isMobi b' then MOBI_TYPE_CREATOR else PALMDOC_TYPE_CREATOR).
Proof. exact (parsePdbHeader_Go f b b'). Qed.

Lemma parsePdbHeader_table_witness :
  exists b',
    parsePdbHeader shortBodyFile newMobiBook = Done (Go b')
    /\ numRecords b' = 2
    /\ recHeaders b' = [94; 110; 115]
    /\ isMobi b' = false.
Proof.
  destruct (parsePdbHeader shortBodyFile newMobiBook) as [[b'| |]| | |] eqn:E;
    try (exfalso; vm_compute in E; discriminate E).
  exists b'. split; [reflexivity|].
  destruct (parsePdbHeader_table shortBodyFile newMobiBook b' E)
    as [Hn [_ [_ [Ht [_ Hm]]]]].
  assert (numRecords b' = 2) as Hn2 by (rewrite Hn; vm_compute; reflexivity).
  split; [exact Hn2|]. split.
  - rewrite Ht, Hn2. vm_compute. reflexivity.
  - destruct (isMobi b'); [vm_compute in Hm; discriminate Hm | reflexivity].
Defined.

Lemma sorted_le (offs : list Z) :
  (forall i o1 o2, nth_error offs i = Some o1 ->
                   nth_error offs (S i) = Some o2 -> o1 <= o2) ->
  forall d i o1 o2, nth_error offs i = Some o1 ->
                    nth_error offs (d + i) = Some o2 -> o1 <= o2.
Proof.
  intros Hs d. induction d as [|d IH]; intros i o1 o2 H1 H2.
  - cbn in H2. rewrite H1 in H2. injection H2 as <-. lia.
  - cbn [Nat.add] in H2.
    destruct (nth_error offs (d + i)) as [o|] eqn:Ho.
    + specialize (IH i o1 o H1 Ho).
      specialize (Hs (d + i)%nat o o2 Ho H2). lia.
    + assert (nth_error offs (S (d + i)) = None) as Hn.
      { apply nth_error_None. apply nth_error_None in Ho. lia. }
      rewrite Hn in H2. discriminate H2.
Qed.

(** X10.  Once the record table has been accepted, every record of a file
    shorter than 4 GiB lies inside the file: for a record number below
    [numRecords], [getRecordSize] is the distance to the next entry of
    the table, and [readRecord], if the read itself does not fail,
    returns exactly the bytes of the file between the two entries. *)
Theorem readRecord_in_table (f : File) (b0 b b2 : MobiBook) (recNo : Z) :
  parsePdbHeader f b0 = Done (Go b) ->
  recHeaders b2 = recHeaders b ->
  Z.of_nat (length (contents f)) < 2 ^ 32 ->
  (forall off n, ioError f off n = false) ->
  0 <= recNo < numRecords b ->
  exists this next,
    nth_error (recHeaders b) (Z.to_nat recNo) = Some this
    /\ nth_error (recHeaders b) (S (Z.to_nat recNo)) = Some next
    /\ 0 <= this <= next
    /\ next <= Z.of_nat (length (contents f))
    /\ getRecordSize b2 recNo = Done (next - this)
    /\ readRecord f b2 recNo
       = Done (Some (firstn (Z.to_nat (next - this))
                            (skipn (Z.to_nat this) (contents f)))).
Proof.
  intros Hp Hb2 Hsize Hio Hrec.
  destruct (parsePdbHeader_Go f b0 b Hp) as [_ [_ [_ [Ht [Hs _]]]]].
  set (n := Z.to_nat (numRecords b)) in *.
  set (k := Z.to_nat recNo).
  assert (k < n)%nat as Hk by (unfold k, n; lia).
  set (g := fun j => bigEndianAt (contents f) (78 + 8 * j) 4) in *.
  assert (length (map g (seq 0 n)) = n) as Lm
    by (rewrite length_map, length_seq; reflexivity).
  assert (u32 (Z.of_nat (length (contents f))) = Z.of_nat (length (contents f)))
    as Hu by (apply wrap_small; lia).
  assert (nth_error (recHeaders b) n = Some (Z.of_nat (length (contents f))))
    as Hlast.
  { rewrite Ht, nth_error_app2 by lia. rewrite Lm, Nat.sub_diag.
    cbn [nth_error]. rewrite Hu. reflexivity. }
  assert (forall j, (j < n)%nat ->
            nth_error (recHeaders b) j = Some (g j)) as Hentry.
  { intros j Hj. rewrite Ht, nth_error_app1 by lia.
    rewrite nth_error_map, nth_error_seq.
    destruct (Nat.ltb_spec j n); [reflexivity | lia]. }
  assert (exists next, nth_error (recHeaders b) (S k) = Some next) as [next Hnext].
  { destruct (Nat.eq_dec (S k) n) as [E|E].
    - rewrite E. eauto.
    - rewrite Hentry by lia. eauto. }
  exists (g k), next.
  pose proof (Hentry k Hk) as Hthis.
  assert (0 <= g k) as Hpos by (unfold g, bigEndianAt; apply bigEndian_range).
  pose proof (Hs k (g k) next Hthis Hnext) as Hle.
  assert (next <= Z.of_nat (length (contents f))) as Hin.
  { apply (sorted_le _ Hs (n - S k) (S k) next _ Hnext).
    replace (n - S k + S k)%nat with n by lia. exact Hlast. }
  split; [exact Hthis|]. split; [exact Hnext|]. split; [lia|].
  split; [exact Hin|].
  assert (getRecordSize b2 recNo = Done (next - g k)) as Hsz.
  { unfold getRecordSize. rewrite Hb2.
    replace (Z.to_nat (recNo + 1)) with (S k) by (unfold k; lia).
    rewrite (load_Some _ _ _ Hnext). cbn [bind]. fold k.
    rewrite (load_Some _ _ _ Hthis). cbn [bind].
    f_equal. apply wrap_small. lia. }
  split; [exact Hsz|].
  unfold readRecord. rewrite Hsz, Hb2. fold k.
  rewrite (load_Some _ _ _ Hthis). cbn [bind]. f_equal.
  unfold fread. rewrite Hio.
  destruct (Nat.leb_spec (Z.to_nat (g k) + Z.to_nat (next - g k))
                         (length (contents f))); [reflexivity | lia].
Qed.

Lemma readRecord_in_table_witness :
  readRecord shortBodyFile
    (set_recHeaders [94; 110; 115] newMobiBook) 1
  = Done (Some Hello).
Proof.
  destruct (parsePdbHeader shortBodyFile newMobiBook) as [[b| |]| | |] eqn:E;
    try (exfalso; vm_compute in E; discriminate E).
  assert (recHeaders b = [94; 110; 115]) as Hb
    by (vm_compute in E; injection E as <-; reflexivity).
  assert (numRecords b = 2) as Hn
    by (vm_compute in E; injection E as <-; reflexivity).
  destruct (readRecord_in_table shortBodyFile newMobiBook b
              (set_recHeaders [94; 110; 115] newMobiBook) 1 E)
    as [this [next [Hthis [Hnext [_ [_ [_ Hr]]]]]]].
  - rewrite Hb. reflexivity.
  - vm_compute. reflexivity.
  - intros off n. reflexivity.
  - rewrite Hn. lia.
  - rewrite Hb in Hthis, Hnext. cbn in Hthis, Hnext.
    injection Hthis as <-. injection Hnext as <-.
    rewrite Hr. vm_compute. reflexivity.
Defined.

(** * The trailer count *)

Lemma land_2 (a : Z) : Z.land a 2 = if Z.testbit a 1 then 2 else 0.
Proof.
  apply Z.bits_inj'. intros n Hn. rewrite Z.land_spec.
  change 2 with (2 ^ 1) at 1. rewrite Z.pow2_bits_eqb by lia.
  destruct (Z.eqb_spec 1 n) as [<-|Hne].
  - rewrite andb_true_r. destruct (Z.testbit a 1); reflexivity.
  - rewrite andb_false_r. destruct (Z.testbit a 1).
    + change 2 with (2 ^ 1). rewrite Z.pow2_bits_eqb by lia.
      symmetry. apply Z.eqb_neq. exact Hne.
    + rewrite Z.bits_0. reflexivity.
Qed.

Lemma bitsSet_small (lo n : nat) (z : Z) :
  0 <= z <= 1 -> (1 <= lo)%nat -> bitsSet lo n z = 0.
Proof.
  intros Hz Hlo. unfold bitsSet.
  replace (filter (fun i => Z.testbit z (Z.of_nat i)) (seq lo n))
    with (@nil nat); [reflexivity|].
  symmetry. revert lo Hlo. induction n as [|n IH]; intros lo Hlo; [reflexivity|].
  cbn [seq filter]. rewrite Z.bits_above_log2.
  - apply IH. lia.
  - lia.
  - assert (z = 0 \/ z = 1) as [-> | ->] by lia; cbn; lia.
Qed.

Lemma bitsSet_step (n : nat) (z : Z) :
  bitsSet 1 (S n) z
  = (if Z.testbit z 1 then 1 else 0) + bitsSet 1 n (Z.shiftr z 1).
Proof.
  unfold bitsSet. cbn [seq filter]. change (Z.of_nat 1) with 1.
  rewrite <- seq_shift, filter_map_swap.
  rewrite (filter_ext (fun a => Z.testbit z (Z.of_nat (S a)))
                      (fun i => Z.testbit (Z.shiftr z 1) (Z.of_nat i))).
  - destruct (Z.testbit z 1); cbn [length]; rewrite length_map; lia.
  - intros a. rewrite Z.shiftr_spec by lia. f_equal. lia.
Qed.

Lemma countTrailers_bits (trips : nat) (flags count : Z) :
  0 <= flags < 2 ^ Z.of_nat trips ->
  countTrailers trips flags count = count + bitsSet 1 (trips - 1) flags.
Proof.
  revert flags count. induction trips as [|t IH]; intros flags count Hf.
  - cbn [countTrailers]. rewrite bitsSet_small; [lia | | lia].
    change (2 ^ Z.of_nat 0) with 1 in Hf. lia.
  - cbn [countTrailers]. replace (S t - 1)%nat with t by lia.
    destruct (Z.ltb_spec 1 flags) as [Hgt|Hle].
    + destruct t as [|t'].
      { change (2 ^ Z.of_nat 1) with 2 in Hf. lia. }
      rewrite IH.
      * replace (S t' - 1)%nat with t' by lia.
        rewrite bitsSet_step, land_2.
        destruct (Z.testbit flags 1); cbn [Z.eqb negb]; lia.
      * rewrite Z.shiftr_div_pow2 by lia. change (2 ^ 1) with 2.
        rewrite Nat2Z.inj_succ, Z.pow_succ_r in Hf by lia.
        split; [apply Z.div_pos; lia|].
        apply Z.div_lt_upper_bound; lia.
    + rewrite bitsSet_small; [lia | lia | lia].
Qed.

(** X11.  The number of trailers that [parseHeader] counts is the number
    of set bits among bits 1 to 15 of the 16-bit [extraDataFlags]; bit 0
    (the multibyte flag) is not counted. *)
Theorem countTrailers_counts_bits (flags count : Z) :
  0 <= flags < 65536 ->
  countTrailers 16 flags count = count + bitsSet 1 15 flags.
Proof.
  intros H. apply (countTrailers_bits 16 flags count).
  change (2 ^ Z.of_nat 16) with 65536. exact H.
Qed.

Lemma countTrailers_counts_bits_witness :
  countTrailers 16 7 0 = 2 /\ countTrailers 16 32769 0 = 1.
Proof.
  split.
  - rewrite (countTrailers_counts_bits 7 0) by lia. reflexivity.
  - rewrite (countTrailers_counts_bits 32769 0) by lia. reflexivity.
Defined.

(** * Image slots *)



Lemma readRecord_recHeaders (f : File) (b1 b2 : MobiBook) (recNo : Z) :
  recHeaders b1 = recHeaders b2 -> readRecord f b1 recNo = readRecord f b2 recNo.
Proof.
  intros H. unfold readRecord, getRecordSize. rewrite H. reflexivity.
Qed.







(** The extension of a record shorter than four bytes depends on what
    was read before it: the three bytes "GIF" come after the record
    "GIF89a" in the read buffer, [ImageType] finds "GIF8" there, and the
    slot gets the extension ".gif".  After a JPEG the same record gets
    ".bin". *)
Example short_image_record :
  (exists b,
      createFromFile true 64 shortImageFile 0 = Done (Some b)
      /\ images b
         = Some [mkImageData (Some (GIF_MAGIC ++ [x39; x61])) 6 (Some gif);
                 mkImageData (Some [x47; x49; x46]) 3 (Some gif)])
  /\ (exists b',
         loadImage shortImageFile
           (readInto jpegBytes
              (set_images (Some [emptyImage; emptyImage])
                 (stagedBook shortImageFile))) 1
         = Done (true, b')
         /\ imageSlot b' 1
            = Some (mkImageData (Some [x47; x49; x46]) 3 (Some bin))).
Proof.
  split.
  - eexists. split; [vm_compute; reflexivity | reflexivity].
  - eexists. split; [vm_compute; reflexivity | reflexivity].
Qed.

(** * HUFF/CDIC decompression: the destination *)

Lemma DecodeOne_room (ndebug : bool)
    (D : list byte -> nat -> nat -> nat -> outcome Uncompressed)
    (hd : HuffDicDecompressor) (code : Z) (out out' : list byte)
    (dstLeft dstLeft' : nat) :
  (forall d p n size bytes,
      D d p n size = Done (Count bytes) -> (length bytes <= size)%nat) ->
  DecodeOne ndebug D hd code out dstLeft = Done (true, out', dstLeft') ->
  (length out' + dstLeft' <= length out + dstLeft)%nat.
Proof.
  intros HD. unfold DecodeOne.
  destruct (shiftr32 code (code_length hd)) as [d| | |]; cbn [bind];
    try discriminate.
  destruct (dictsCount hd <? u16 d); [discriminate|].
  destruct (shl1 (code_length hd)) as [m| | |]; cbn [bind]; try discriminate.
  destruct (load (dicts hd) (Z.to_nat (u16 d))) as [dic| | |]; cbn [bind];
    try discriminate.
  destruct (ReadBeU16 dic _) as [offset| | |]; cbn [bind]; try discriminate.
  destruct (u32 (Z.of_nat (length dic)) <? offset); [discriminate|].
  destruct (ReadBeU16 dic (Z.to_nat offset)) as [symLen| | |]; cbn [bind];
    try discriminate.
  destruct (Z.land symLen 32768 =? 0).
  - destruct (D dic (Z.to_nat (offset + 2)) (Z.to_nat symLen) dstLeft)
      as [[bytes|]| | |] eqn:ED; cbn [bind]; try discriminate.
    apply HD in ED.
    destruct (assert ndebug (length bytes <=? dstLeft)%nat); cbn [bind];
      try discriminate.
    intros E. injection E as <- <-. rewrite length_app. lia.
  - destruct (Z.ltb_spec 127 (Z.land symLen 32767)) as [|Hs];
      [discriminate|].
    destruct (Z.ltb_spec (Z.of_nat dstLeft) (Z.land symLen 32767)) as [|Hd];
      [discriminate|].
    destruct (slice dic (Z.to_nat (offset + 2))
                (Z.to_nat (Z.land symLen 32767))) as [bytes| | |] eqn:Es;
      cbn [bind]; try discriminate.
    apply slice_Done in Es. destruct Es as [Hl ->].
    intros E. injection E as <- <-.
    rewrite length_app, length_firstn, length_skipn. lia.
Qed.

Lemma DecompressLoop_room (ndebug : bool) (hd : HuffDicDecompressor)
    (fuel : nat) :
  forall (br : BitReader) (bitsConsumed : Z) (out : list byte) (dstLeft : nat)
         (out' : list byte),
    DecompressLoop ndebug fuel hd br bitsConsumed out dstLeft
    = Done (Count out') ->
    (length out' <= length out + dstLeft)%nat.
Proof.
  induction fuel as [|fuel IH]; intros br bc out dstLeft out';
    cbn [DecompressLoop]; [discriminate|].
  destruct (Z.of_nat (BitsLeft br) <? bc); [discriminate|].
  cbv zeta.
  destruct (BitsLeft (Eat br (Z.to_nat bc)) =? 0)%nat.
  { intros H. injection H as <-. lia. }
  destruct (Peek (Eat br (Z.to_nat bc)) 32) as [bits| | |]; cbn [bind];
    try discriminate.
  destruct ((BitsLeft (Eat br (Z.to_nat bc)) <? 8)%nat && (bits =? 0)).
  { intros H. injection H as <-. lia. }
  destruct (cacheTable hd (Z.shiftr bits 24)) as [v| | |]; cbn [bind];
    try discriminate.
  destruct (Z.land v 31 =? 0); [discriminate|].
  match goal with
  | |- bind ?m _ = _ -> _ => destruct m as [[[code codeLen]|]| | |]
  end; cbn [bind]; try discriminate.
  match goal with
  | |- bind ?m _ = _ -> _ =>
      destruct m as [[[[|] out1] dstLeft1]| | |] eqn:ED
  end; cbn [bind]; try discriminate.
  apply DecodeOne_room in ED.
  - intros H. apply IH in H. lia.
  - intros d p n size bytes H. apply IH in H. cbn [length] in H. lia.
Qed.

(** X13.  The HUFF/CDIC decompressor never returns more bytes than the
    destination holds: a count that [Decompress] returns is at most
    [dstSize], whatever the tables, the dictionaries and the source. *)
Theorem Decompress_count_within (ndebug : bool) (fuel : nat)
    (hd : HuffDicDecompressor) (src : list byte) (srcSize dstSize : nat)
    (out : list byte) :
  Decompress ndebug fuel hd src srcSize dstSize = Done (Count out) ->
  (length out <= dstSize)%nat.
Proof.
  unfold Decompress. intros H. apply DecompressLoop_room in H.
  cbn [length] in H. lia.
Qed.

Lemma Decompress_count_within_witness :
  exists hd out,
    scenario4Decoder = Done (Some hd)
    /\ Decompress true 8 hd [x00; x00] 2 16 = Done (Count out)
    /\ (length out <= 16)%nat.
Proof.
  eexists. eexists. split; [vm_compute; reflexivity|].
  match goal with
  | |- Decompress _ _ ?h _ _ _ = _ /\ _ => set (hd := h)
  end.
  assert (Decompress true 8 hd [x00; x00] 2 16 = Done (Count [x41; x41])) as H
    by (vm_compute; reflexivity).
  split; [exact H|].
  apply (Decompress_count_within true 8 hd [x00; x00] 2 16 [x41; x41] H).
Defined.

(** * Configuring the HUFF/CDIC decompressor *)

Lemma SwapU32_Done (mem mem' : list byte) (off : nat) :
  SwapU32 mem off = Done mem' ->
  (off + 4 <= length mem)%nat
  /\ length mem' = length mem
  /\ nativeU32 mem' off = Done (bigEndianAt mem off 4)
  /\ (forall off' n, (off' + n <= off \/ off + 4 <= off')%nat ->
        firstn n (skipn off' mem') = firstn n (skipn off' mem)).
Proof.
  intros H. destruct (le_lt_dec (off + 4) (length mem)) as [Hle|Hgt].
  - destruct (SwapU32_read mem off Hle) as [m [Hs [Hr [Hl Hf]]]].
    rewrite Hs in H. injection H as <-. auto.
  - rewrite SwapU32_short in H by exact Hgt. discriminate H.
Qed.

Lemma nativeU32_frame (m m' : list byte) (off : nat) :
  length m' = length m ->
  firstn 4 (skipn off m') = firstn 4 (skipn off m) ->
  nativeU32 m' off = nativeU32 m off.
Proof.
  intros Hl Hf. unfold nativeU32, slice. rewrite Hl, Hf. reflexivity.
Qed.

Lemma shl1_pow2 (s r : Z) : shl1 s = Done r -> 0 <= s < 31 /\ r = 2 ^ s.
Proof.
  unfold shl1. destruct (Z.leb_spec 0 s); destruct (Z.ltb_spec s 31);
    cbn [andb]; try discriminate.
  intros Hrun. injection Hrun as <-. split; [lia|].
  rewrite Z.shiftl_1_l. reflexivity.
Qed.

(** X14.  [AddCdicData] on a record shorter than 4 GiB: the code length
    becomes the big-endian number in bytes 12-15 of the record whether or
    not the record is accepted, and the Huffman tables are not touched.  An
    accepted record has header length 16 and more than [2 ^ codeLen]
    bytes after the header, all of which are appended as the next
    dictionary, and there were fewer than 32 dictionaries; a rejected
    record leaves the dictionaries as they were. *)
Theorem AddCdicData_result (ndebug : bool) (hd hd' : HuffDicDecompressor)
    (cdicData : list byte) (ok : bool) :
  Z.of_nat (length cdicData) < 2 ^ 32 ->
  AddCdicData ndebug hd cdicData = Done (ok, hd') ->
  huffmanData hd' = huffmanData hd
  /\ code_length hd' = bigEndianAt cdicData 12 4
  /\ (if ok
      then dicts hd' = (dicts hd ++ [skipn 16 cdicData])%list
           /\ bigEndianAt cdicData 4 4 = 16
           /\ 2 ^ code_length hd' < Z.of_nat (length cdicData) - 16
           /\ dictsCount hd < 32
      else dicts hd' = dicts hd).
Proof.
  intros Hlen. rewrite AddCdicData_unfold. cbv zeta.
  destruct (SwapU32 cdicData 4) as [m1| | |] eqn:E1; cbn [bind];
    try discriminate.
  destruct (SwapU32 m1 12) as [m2| | |] eqn:E2; cbn [bind]; try discriminate.
  apply SwapU32_Done in E1. destruct E1 as [_ [L1 [R1 F1]]].
  apply SwapU32_Done in E2. destruct E2 as [B2 [L2 [R2 F2]]].
  rewrite (nativeU32_frame m1 m2 4 L2 (F2 4 4 ltac:(lia)))%nat, R1.
  cbn [bind]. rewrite R2. cbn [bind].
  assert (bigEndianAt m1 12 4 = bigEndianAt cdicData 12 4) as ->
    by (unfold bigEndianAt; rewrite F1 by lia; reflexivity).
  set (hdrLen := bigEndianAt cdicData 4 4).
  set (codeLen := bigEndianAt cdicData 12 4).
  destruct (assert ndebug _); cbn [bind]; try discriminate.
  cbv zeta. cbn [huffmanData dicts code_length].
  destruct (strncmp (literal CDIC) m2 4) as [cmp| | |]; cbn [bind];
    try discriminate.
  destruct (cmp =? 0).
  { intros Hrun. injection Hrun as <- <-. cbn. auto. }
  destruct (assert ndebug (hdrLen =? kCdicHeaderLen)); cbn [bind];
    try discriminate.
  unfold kCdicHeaderLen.
  destruct (Z.eqb_spec hdrLen 16) as [Eh|Nh]; cbn [negb].
  2: { intros Hrun. injection Hrun as <- <-. cbn. auto. }
  rewrite Eh.
  assert (u32 (u32 (Z.of_nat (length cdicData)) - 16)
          = Z.of_nat (length cdicData) - 16) as ->.
  { unfold u32 at 2. rewrite wrap_small by lia. apply wrap_small. lia. }
  destruct (shl1 codeLen) as [maxSize| | |] eqn:Em; cbn [bind];
    try discriminate.
  apply shl1_pow2 in Em. destruct Em as [Hc ->].
  destruct (Z.leb_spec (Z.of_nat (length cdicData) - 16) (2 ^ codeLen))
    as [|Hsz].
  { intros Hrun. injection Hrun as <- <-. cbn. auto. }
  destruct (slice m2 (Z.to_nat 16) _) as [d| | |] eqn:Es; cbn [bind];
    try discriminate.
  unfold kCdicsMax.
  destruct (Z.leb_spec 32 (dictsCount
              {| huffmanData := huffmanData hd; dicts := dicts hd;
                 code_length := codeLen |})) as [|Hd]; [discriminate|].
  intros Hrun. injection Hrun as <- <-. cbn [huffmanData dicts code_length].
  split; [reflexivity|]. split; [reflexivity|].
  split; [|split; [reflexivity|split; [exact Hsz | exact Hd]]].
  do 2 f_equal. apply slice_Done in Es. destruct Es as [_ ->].
  change (Z.to_nat 16) with 16%nat.
  replace (Z.to_nat (Z.of_nat (length cdicData) - 16))
    with (length cdicData - 16)%nat by lia.
  rewrite (F2 16 _ ltac:(lia))%nat, (F1 16 _ ltac:(lia))%nat.
  apply firstn_all2. rewrite length_skipn. lia.
Qed.

Lemma AddCdicData_result_witness :
  exists hd',
    AddCdicData true newHuffDic scenario4Cdic = Done (true, hd')
    /\ dicts hd' = [skipn 16 scenario4Cdic]
    /\ 2 ^ code_length hd' < Z.of_nat (length scenario4Cdic) - 16.
Proof.
  destruct (AddCdicData true newHuffDic scenario4Cdic) as [[ok hd']| | |] eqn:E;
    try (exfalso; vm_compute in E; discriminate E).
  assert (ok = true) as -> by (vm_compute in E; injection E as <- _; reflexivity).
  exists hd'. split; [reflexivity|].
  destruct (AddCdicData_result true newHuffDic hd' scenario4Cdic true)
    as [_ [_ [Hd [_ [Hs _]]]]].
  - vm_compute. reflexivity.
  - exact E.
  - split; [exact Hd | exact Hs].
Defined.

Lemma swapTable_Done (n : nat) :
  forall (mem mem' : list byte) (off : nat),
    swapTable mem off n = Done mem' ->
    length mem' = length mem
    /\ (forall k, (k < n)%nat ->
          nativeU32 mem' (off + 4 * k) = Done (bigEndianAt mem (off + 4 * k) 4))
    /\ (forall off' m, (off' + m <= off \/ off + 4 * n <= off')%nat ->
          firstn m (skipn off' mem') = firstn m (skipn off' mem)).
Proof.
  induction n as [|n IH]; intros mem mem' off; cbn [swapTable].
  - intros E. injection E as <-. split; [reflexivity|].
    split; [intros k Hk; lia | reflexivity].
  - destruct (SwapU32 mem off) as [m1| | |] eqn:E1; cbn [bind];
      try discriminate.
    intros E. apply SwapU32_Done in E1. destruct E1 as [_ [L1 [R1 F1]]].
    apply IH in E. destruct E as [L [R F]].
    split; [congruence|]. split.
    + intros [|k] Hk.
      * rewrite Nat.mul_0_r, Nat.add_0_r.
        rewrite (nativeU32_frame m1 mem' off L (F off 4%nat ltac:(lia))).
        exact R1.
      * replace (off + 4 * S k)%nat with (off + 4 + 4 * k)%nat by lia.
        rewrite R by lia. unfold bigEndianAt. rewrite F1 by lia. reflexivity.
    + intros off' m Ho. rewrite F by lia. apply F1. lia.
Qed.

(** X15.  A HUFF record that [SetHuffData] accepts has at least 1304
    bytes and the big-endian header fields 24, 24 and 1048; afterwards
    entry [i] of the cache table is the big-endian number at offset
    [24 + 4 i] of the record (256 entries) and entry [i] of the base table
    the one at offset [1048 + 4 i] (64 entries).  The dictionaries and the
    code length are not touched. *)
Theorem SetHuffData_tables (ndebug : bool) (hd hd' : HuffDicDecompressor)
    (huffData : list byte) :
  SetHuffData ndebug hd huffData = Done (true, hd') ->
  (1304 <= length huffData)%nat
  /\ bigEndianAt huffData 4 4 = 24
  /\ bigEndianAt huffData 8 4 = 24
  /\ bigEndianAt huffData 12 4 = 1048
  /\ (forall i, (i < 256)%nat ->
        cacheTable hd' (Z.of_nat i)
        = Done (bigEndianAt huffData (24 + 4 * i) 4))
  /\ (forall i, (i < 64)%nat ->
        baseTable hd' (Z.of_nat i)
        = Done (bigEndianAt huffData (1048 + 4 * i) 4))
  /\ dicts hd' = dicts hd
  /\ code_length hd' = code_length hd.
Proof.
  unfold SetHuffData. cbv zeta.
  destruct (assert ndebug _); cbn [bind]; try discriminate.
  unfold kHuffRecordMinLen, kHuffHeaderLen, kCacheDataLen, kBaseTableDataLen.
  destruct (Z.ltb_spec (Z.of_nat (length huffData)) (24 + 256 * 4 + 64 * 4))
    as [|Hmin]; [discriminate|].
  destruct (SwapU32 huffData 4) as [m1| | |] eqn:E1; cbn [bind];
    try discriminate.
  destruct (SwapU32 m1 8) as [m2| | |] eqn:E2; cbn [bind]; try discriminate.
  destruct (SwapU32 m2 12) as [m3| | |] eqn:E3; cbn [bind]; try discriminate.
  apply SwapU32_Done in E1. destruct E1 as [_ [L1 [R1 F1]]].
  apply SwapU32_Done in E2. destruct E2 as [_ [L2 [R2 F2]]].
  apply SwapU32_Done in E3. destruct E3 as [_ [L3 [R3 F3]]].
  destruct (strncmp (literal HUFF) m3 4) as [cmp| | |]; cbn [bind];
    try discriminate.
  destruct (cmp =? 0); [discriminate|].
  assert (nativeU32 m3 4 = Done (bigEndianAt huffData 4 4)) as ->.
  { rewrite (nativeU32_frame m2 m3 4 L3 (F3 4 4 ltac:(lia)))%nat.
    rewrite (nativeU32_frame m1 m2 4 L2 (F2 4 4 ltac:(lia)))%nat.
    exact R1. }
  assert (nativeU32 m3 8 = Done (bigEndianAt huffData 8 4)) as ->.
  { rewrite (nativeU32_frame m2 m3 8 L3 (F3 8 4 ltac:(lia)))%nat.
    rewrite R2. unfold bigEndianAt. rewrite F1 by lia. reflexivity. }
  assert (nativeU32 m3 12 = Done (bigEndianAt huffData 12 4)) as ->.
  { rewrite R3. unfold bigEndianAt. rewrite F2, F1 by lia. reflexivity. }
  cbn [bind].
  destruct (assert ndebug _); cbn [bind]; try discriminate.
  destruct (Z.eqb_spec (bigEndianAt huffData 4 4) 24) as [H4|]; cbn [negb];
    [|discriminate].
  destruct (Z.eqb_spec (bigEndianAt huffData 8 4) 24) as [H8|]; cbn [negb];
    [|discriminate].
  rewrite H8. change (u32 (24 + 256 * 4)) with 1048.
  destruct (Z.eqb_spec (bigEndianAt huffData 12 4) 1048) as [H12|]; cbn [negb];
    [|discriminate].
  rewrite H12.
  destruct (assert ndebug _); cbn [bind]; try discriminate.
  change (Z.to_nat 24) with 24%nat. change (Z.to_nat 1048) with 1048%nat.
  destruct (swapTable m3 24 256) as [m4| | |] eqn:E4; cbn [bind];
    try discriminate.
  destruct (swapTable m4 1048 64) as [m5| | |] eqn:E5; cbn [bind];
    try discriminate.
  apply swapTable_Done in E4. destruct E4 as [L4 [R4 F4]].
  apply swapTable_Done in E5. destruct E5 as [L5 [R5 F5]].
  intros E. injection E as <-.
  split; [lia|]. split; [exact H4|]. split; [reflexivity|].
  split; [reflexivity|].
  split; [|split; [|split; reflexivity]].
  - intros i Hi. unfold cacheTable. cbn [huffmanData].
    unfold kHuffHeaderLen.
    replace (Z.to_nat (24 + 4 * Z.of_nat i)) with (24 + 4 * i)%nat by lia.
    rewrite (nativeU32_frame m4 m5 (24 + 4 * i) L5
               (F5 (24 + 4 * i) 4 ltac:(lia)))%nat.
    rewrite R4 by exact Hi. unfold bigEndianAt.
    rewrite F3, F2, F1 by lia. reflexivity.
  - intros i Hi. unfold baseTable. cbn [huffmanData].
    unfold kHuffHeaderLen, kCacheDataLen.
    replace (Z.to_nat (24 + 256 * 4 + 4 * Z.of_nat i))
      with (1048 + 4 * i)%nat by lia.
    rewrite R5 by exact Hi. unfold bigEndianAt.
    rewrite F4, F3, F2, F1 by lia. reflexivity.
Qed.

Lemma SetHuffData_tables_witness :
  exists hd',
    SetHuffData true newHuffDic scenario4Huff = Done (true, hd')
    /\ cacheTable hd' 0 = Done (bigEndianAt scenario4Huff 24 4)
    /\ dicts hd' = [].
Proof.
  destruct (SetHuffData true newHuffDic scenario4Huff) as [[ok hd']| | |] eqn:E;
    try (exfalso; vm_compute in E; discriminate E).
  assert (ok = true) as -> by (vm_compute in E; injection E as <- _; reflexivity).
  exists hd'. split; [reflexivity|].
  destruct (SetHuffData_tables true newHuffDic hd' scenario4Huff E)
    as [_ [_ [_ [_ [Hc [_ [Hd _]]]]]]].
  split; [exact (Hc 0%nat ltac:(lia)) | exact Hd].
Defined.

(** * Loading the text *)

Lemma set_doc_nil (b : MobiBook) : set_doc (doc b ++ []) b = b.
Proof. destruct b. unfold set_doc. cbn. rewrite app_nil_r. reflexivity. Qed.

Lemma set_doc_twice (b : MobiBook) (v t : list byte) :
  set_doc (doc (set_doc v b) ++ t) (set_doc v b) = set_doc (v ++ t) b.
Proof. destruct b. reflexivity. Qed.

Lemma set_readBuf_same (b : MobiBook) : set_readBuf (readBuf b) b = b.
Proof. destruct b. reflexivity. Qed.

(** A change of the text and of the read buffers after another one. *)
Lemma set_doc_readBuf_twice (b : MobiBook) (v t : list byte)
    (rb rb' : ReadBuffer) :
  set_readBuf rb'
    (set_doc (doc (set_readBuf rb (set_doc v b)) ++ t)
       (set_readBuf rb (set_doc v b)))
  = set_readBuf rb' (set_doc (v ++ t) b).
Proof. destruct b. reflexivity. Qed.

Lemma set_doc_readInto (b : MobiBook) (v d : list byte) :
  set_doc v (readInto d b)
  = set_readBuf (readBuf (readInto d b)) (set_doc v b).
Proof. destruct b. reflexivity. Qed.

(** One record: the text grows by what the record gives and the read
    buffers change, nothing else of the book does.  A record of a
    HUFF/CDIC text gives at most the 6000 bytes of the buffer, and so
    does a record of a PalmDOC text when assertions are compiled in. *)
Lemma loadDocRecordIntoBuffer_appends (ndebug : bool) (size_bits : Z) (f : File)
    (fuel : nat) (b b' : MobiBook) (recNo : Z) (ok : bool) :
  loadDocRecordIntoBuffer ndebug size_bits f fuel b recNo = Done (ok, b') ->
  exists tail rb,
    b' = set_readBuf rb (set_doc (doc b ++ tail) b)
    /\ (compressionType b <> COMPRESSION_NONE ->
        (compressionType b = COMPRESSION_PALM -> ndebug = false) ->
        Z.of_nat (length tail) <= 6000).
Proof.
  unfold loadDocRecordIntoBuffer.
  destruct (readRecord f b recNo) as [[record|]| | |]; cbn [bind];
    try discriminate.
  2: { intros E. injection E as <- <-. exists [], (readBuf b).
       rewrite set_doc_nil, set_readBuf_same.
       split; [reflexivity | cbn; lia]. }
  cbv zeta.
  change (trailersCount (readInto record b)) with (trailersCount b).
  change (multibyte (readInto record b)) with (multibyte b).
  change (compressionType (readInto record b)) with (compressionType b).
  change (huffDic (readInto record b)) with (huffDic b).
  change (doc (readInto record b)) with (doc b).
  set (rb := readBuf (readInto record b)).
  assert (exists tail rb0,
            readInto record b = set_readBuf rb0 (set_doc (doc b ++ tail) b)
            /\ (compressionType b <> COMPRESSION_NONE ->
                (compressionType b = COMPRESSION_PALM -> ndebug = false) ->
                Z.of_nat (length tail) <= 6000)) as Same.
  { exists [], rb. rewrite set_doc_nil.
    split; [destruct b; reflexivity | cbn; lia]. }
  destruct (ExtraDataSize _ _ _ _ _ _) as [extraSize| | |]; cbn [bind];
    try discriminate.
  destruct (Z.eqb_spec COMPRESSION_NONE (compressionType b)) as [Ec|Nc].
  { destruct (slice _ 0 _) as [bytes| | |]; cbn [bind]; try discriminate.
    intros E. injection E as <- <-. exists bytes, rb.
    split; [apply set_doc_readInto|]. intros Hne. congruence. }
  destruct (Z.eqb_spec COMPRESSION_PALM (compressionType b)) as [Ep|Np].
  { destruct (PalmdocUncompress _ _ _ _) as [[bytes|]| | |] eqn:Eu;
      cbn [bind]; try discriminate.
    - intros E. injection E as <- <-. exists bytes, rb.
      split; [apply set_doc_readInto|]. intros _ Hp.
      unfold PalmdocUncompress in Eu. apply PalmdocLoop_guarded in Eu.
      + unfold bufSize in Eu. lia.
      + left. apply Hp. symmetry. exact Ep.
      + cbn [written length]. lia.
    - intros E. injection E as <- <-. exact Same. }
  destruct (COMPRESSION_HUFF =? compressionType b).
  { destruct (assert ndebug _); cbn [bind]; try discriminate.
    destruct (huffDic b) as [hd|].
    - destruct (Decompress _ _ _ _ _ _) as [[bytes|]| | |] eqn:Eu;
        cbn [bind]; try discriminate.
      + intros E. injection E as <- <-. exists bytes, rb.
        split; [apply set_doc_readInto|]. intros _ _.
        unfold Decompress in Eu. apply DecompressLoop_room in Eu.
        cbn [length] in Eu. unfold bufSize in Eu. lia.
      + intros E. injection E as <- <-. exact Same.
    - intros E. injection E as <- <-. exact Same. }
  destruct (assert ndebug false); cbn [bind]; try discriminate.
  intros E. injection E as <- <-. exact Same.
Qed.

(** X16.  Loading the records of the text only appends to the text and
    changes the read buffers; nothing else of the book changes, whether
    or not the loading succeeds.  Each record of a HUFF/CDIC text adds at
    most 6000 bytes, and so does each record of a PalmDOC text when
    assertions are compiled in (without them nothing bounds the copy of a
    back-reference, lines 210-215). *)
Theorem loadDocRecords_appends (ndebug : bool) (size_bits : Z) (f : File)
    (fuel n : nat) (i : Z) (b b' : MobiBook) (ok : bool) :
  loadDocRecords ndebug size_bits f fuel n i b = Done (ok, b') ->
  exists tail rb,
    b' = set_readBuf rb (set_doc (doc b ++ tail) b)
    /\ (compressionType b <> COMPRESSION_NONE ->
        (compressionType b = COMPRESSION_PALM -> ndebug = false) ->
        Z.of_nat (length tail) <= 6000 * Z.of_nat n).
Proof.
  revert i b. induction n as [|n IH]; intros i b; cbn [loadDocRecords].
  - intros E. injection E as <- <-. exists [], (readBuf b).
    rewrite set_doc_nil, set_readBuf_same.
    split; [reflexivity | cbn; lia].
  - destruct (loadDocRecordIntoBuffer ndebug size_bits f fuel b i)
      as [[ok1 b1]| | |] eqn:E1; cbn [bind]; try discriminate.
    apply loadDocRecordIntoBuffer_appends in E1.
    destruct E1 as [t1 [rb1 [-> H1]]].
    destruct ok1.
    + intros E. apply IH in E. destruct E as [t2 [rb2 [-> H2]]].
      exists (t1 ++ t2)%list, rb2.
      rewrite set_doc_readBuf_twice, app_assoc.
      split; [reflexivity|]. intros Hc Hp. rewrite length_app.
      specialize (H1 Hc Hp).
      assert (compressionType (set_readBuf rb1 (set_doc (doc b ++ t1) b))
              = compressionType b) as Hsame by (destruct b; reflexivity).
      rewrite Hsame in H2. specialize (H2 Hc Hp). lia.
    + intros E. injection E as <- <-. exists t1, rb1.
      split; [reflexivity|]. intros Hc Hp. specialize (H1 Hc Hp). lia.
Qed.

Lemma loadDocRecords_appends_witness :
  exists b' tail,
    loadDocRecords false 64 shortBodyFile 0 1 1
      (set_recHeaders [94; 110; 115] (set_compressionType 2 newMobiBook))
    = Done (true, b')
    /\ doc b' = tail /\ Z.of_nat (length tail) <= 6000 * Z.of_nat 1.
Proof.
  destruct (loadDocRecords false 64 shortBodyFile 0 1 1
              (set_recHeaders [94; 110; 115]
                 (set_compressionType 2 newMobiBook)))
    as [[ok b']| | |] eqn:E; try (exfalso; vm_compute in E; discriminate E).
  assert (ok = true) as -> by (vm_compute in E; injection E as <- _; reflexivity).
  destruct (loadDocRecords_appends false 64 shortBodyFile 0 1 1 _ b' true E)
    as [tail [rb [Hb Hl]]].
  exists b', tail. split; [reflexivity|]. split.
  - rewrite Hb. reflexivity.
  - apply Hl; [vm_compute; discriminate | reflexivity].
Defined.

(** A run of literals that is longer than what is left of its record
    goes on in the read buffer: the second byte of the run of
    [shortRunFile] is byte 2 of record 0, which was read before and is
    zero, and the text is "A" and a NUL. *)
Example literal_run_past_record :
  exists b,
    createFromFile true 64 shortRunFile 0 = Done (Some b)
    /\ doc b = [x41; x00].
Proof.
  eexists. split; [vm_compute; reflexivity | reflexivity].
Qed.

Lemma ExtraDataSize_none (ndebug : bool) (size_bits : Z) (recData : list byte)
    (recLen : Z) :
  ExtraDataSize ndebug size_bits recData recLen 0 false = Done 0.
Proof.
  unfold ExtraDataSize. cbn [Z.to_nat stripTrailers bind].
  rewrite Z.sub_diag. unfold size_t, wrap. rewrite Zmod_0_l. reflexivity.
Qed.

Lemma readAll_set_doc (recs : list (list byte)) (b : MobiBook) (v : list byte) :
  readAll recs (set_doc v b) = set_doc v (readAll recs b).
Proof.
  revert b. induction recs as [|d recs IH]; intros b; [reflexivity|].
  unfold readAll in *. cbn [fold_left]. rewrite <- IH. reflexivity.
Qed.

Lemma readAll_doc (recs : list (list byte)) (b : MobiBook) :
  doc (readAll recs b) = doc b.
Proof.
  revert b. induction recs as [|d recs IH]; intros b; [reflexivity|].
  unfold readAll in *. cbn [fold_left]. rewrite IH. reflexivity.
Qed.

(** X17.  A text stored without compression, trailers or multibyte
    padding is the concatenation of its records: when the records
    [i .. i+n-1] load, the text has grown by exactly their bytes, in
    order, the read buffers are as reading those records leaves them,
    and nothing else of the book has changed. *)
Theorem loadDocRecords_raw (ndebug : bool) (size_bits : Z) (f : File)
    (fuel n : nat) (i : Z) (b b' : MobiBook) :
  compressionType b = COMPRESSION_NONE ->
  trailersCount b = 0 -> multibyte b = false ->
  Z.of_nat (length (contents f)) < 2 ^ size_bits ->
  loadDocRecords ndebug size_bits f fuel n i b = Done (true, b') ->
  exists recs,
    length recs = n
    /\ (forall k, (k < n)%nat ->
          readRecord f b (i + Z.of_nat k) = Done (Some (nth k recs [])))
    /\ b' = set_doc (doc b ++ concat recs) (readAll recs b).
Proof.
  intros Hc Ht Hm Hsz. revert i b Hc Ht Hm.
  induction n as [|n IH]; intros i b Hc Ht Hm; cbn [loadDocRecords].
  - intros E. injection E as <-. exists [].
    split; [reflexivity|]. split; [intros k Hk; lia|].
    symmetry. apply set_doc_nil.
  - unfold loadDocRecordIntoBuffer.
    destruct (readRecord f b i) as [[recData|]| | |] eqn:Er; cbn [bind];
      try discriminate.
    cbv zeta.
    change (trailersCount (readInto recData b)) with (trailersCount b).
    change (multibyte (readInto recData b)) with (multibyte b).
    change (compressionType (readInto recData b)) with (compressionType b).
    change (doc (readInto recData b)) with (doc b).
    rewrite Ht, Hm, ExtraDataSize_none. cbn [bind].
    rewrite Hc, Z.eqb_refl.
    assert (Z.of_nat (length recData) <= Z.of_nat (length (contents f)))
      as Hrl.
    { unfold readRecord in Er.
      destruct (load (recHeaders b) (Z.to_nat i)) as [off| | |]; cbn [bind] in Er;
        try discriminate.
      destruct (getRecordSize b i) as [toRead| | |]; cbn [bind] in Er;
        try discriminate.
      injection Er as Er. apply fread_Some in Er.
      destruct Er as [Hle [-> _]].
      rewrite length_firstn, length_skipn. lia. }
    rewrite Z.sub_0_r. unfold size_t. rewrite wrap_small by lia.
    rewrite Nat2Z.id.
    destruct (recordBuffer_readInto recData b) as [stale ->].
    unfold slice. cbn [Nat.add skipn].
    rewrite length_app.
    destruct (Nat.leb_spec (length recData) (length recData + length stale))
      as [_|]; [|lia].
    rewrite firstn_app, Nat.sub_diag, firstn_all. cbn [firstn].
    rewrite app_nil_r. cbn [bind].
    intros E. apply IH in E; [|destruct b; assumption..].
    destruct E as [recs [Hl [Hread ->]]].
    exists (recData :: recs). split; [cbn [length]; lia|]. split.
    + intros [|k] Hk.
      * rewrite Z.add_0_r. exact Er.
      * cbn [nth]. rewrite <- (Hread k) by lia.
        replace (i + Z.of_nat (S k)) with (i + 1 + Z.of_nat k) by lia.
        apply readRecord_recHeaders. destruct b; reflexivity.
    + change (doc (set_doc (doc b ++ recData) (readInto recData b)))
        with (doc b ++ recData)%list.
      rewrite readAll_set_doc. cbn [concat]. rewrite app_assoc.
      unfold readAll. cbn [fold_left].
      destruct (fold_left _ recs (readInto recData b)); reflexivity.
Qed.

Lemma loadDocRecords_raw_witness :
  exists b',
    loadDocRecords true 64 shortBodyFile 0 1 1
      (set_recHeaders [94; 110; 115] (set_compressionType 1 newMobiBook))
    = Done (true, b')
    /\ doc b' = Hello.
Proof.
  destruct (loadDocRecords true 64 shortBodyFile 0 1 1
              (set_recHeaders [94; 110; 115]
                 (set_compressionType 1 newMobiBook)))
    as [[ok b']| | |] eqn:E; try (exfalso; vm_compute in E; discriminate E).
  assert (ok = true) as -> by (vm_compute in E; injection E as <- _; reflexivity).
  exists b'. split; [reflexivity|].
  destruct (loadDocRecords_raw true 64 shortBodyFile 0 1 1
              (set_recHeaders [94; 110; 115]
                 (set_compressionType 1 newMobiBook)) b'
              eq_refl eq_refl eq_refl eq_refl E) as [recs [Hl [Hr ->]]].
  destruct recs as [|r [|r' recs]]; try discriminate Hl.
  specialize (Hr 0%nat ltac:(lia)). cbn [nth] in Hr.
  vm_compute in Hr. injection Hr as <-. reflexivity.
Defined.

(** * The PalmDOC header *)

Lemma SwapU16_Done (mem mem' : list byte) (off : nat) :
  SwapU16 mem off = Done mem' ->
  (off + 2 <= length mem)%nat
  /\ length mem' = length mem
  /\ nativeU16 mem' off = Done (bigEndianAt mem off 2)
  /\ (forall off' n, (off' + n <= off \/ off + 2 <= off')%nat ->
        firstn n (skipn off' mem') = firstn n (skipn off' mem)).
Proof.
  intros H. destruct (le_lt_dec (off + 2) (length mem)) as [Hle|Hgt].
  - destruct (SwapU16_read mem off Hle) as [m [Hs [Hr [Hl Hf]]]].
    rewrite Hs in H. injection H as <-. auto.
  - unfold SwapU16, nativeU16 in H. rewrite slice_beyond in H by exact Hgt.
    discriminate H.
Qed.

Lemma nativeU16_frame (m m' : list byte) (off : nat) :
  length m' = length m ->
  firstn 2 (skipn off m') = firstn 2 (skipn off m) ->
  nativeU16 m' off = nativeU16 m off.
Proof.
  intros Hl Hf. unfold nativeU16, slice. rewrite Hl, Hf. reflexivity.
Qed.

Lemma palmDoc_book_fields (b : MobiBook) (c u n : Z) (mem : list byte) :
  let b1 := set_compressionType c
              (set_docUncompressedSize u
                 (set_docRecCount n (set_firstRecData mem b))) in
  compressionType b1 = c /\ docUncompressedSize b1 = u /\ docRecCount b1 = n.
Proof. destruct b. repeat split; reflexivity. Qed.

(** X18.  When the PalmDOC stage of [parseHeader] does not return false,
    the compression type, the text size and the number of text records of
    the book are the big-endian numbers at offsets 0, 4 and 8 of record 0,
    the compression type is one of the three supported ones and, for a
    MOBI file, the encryption field at offset 12 is zero.  The stage
    returns true at once exactly when the record is used up by the
    16-byte header, and goes on only if at least 8 bytes are left. *)
Theorem parsePalmDocHeader_fields (ndebug : bool) (size_bits : Z) (f : File)
    (b : MobiBook) (rec0 : list byte) (s : Stage) (recLeft : Z) :
  readRecord f b 0 = Done (Some rec0) ->
  parsePalmDocHeader ndebug size_bits f b = Done (s, recLeft) ->
  forall b', s = Go b' \/ s = ReturnTrue b' ->
    compressionType b' = bigEndianAt rec0 0 2
    /\ IsValidCompression (compressionType b') = true
    /\ docUncompressedSize b' = bigEndianAt rec0 4 4
    /\ docRecCount b' = bigEndianAt rec0 8 2
    /\ (isMobi b = true -> nativeU16 rec0 12 = Done ENCRYPTION_NONE)
    /\ recLeft = size_t size_bits (Z.of_nat (length rec0) - 16)
    /\ (s = ReturnTrue b' <-> recLeft = 0)
    /\ (s = Go b' -> 8 <= recLeft).
Proof.
  intros Hread. unfold parsePalmDocHeader. rewrite Hread. cbn [bind].
  cbv zeta.
  change (firstRecData (readInto rec0 b)) with (firstRecData b).
  change (isMobi (readInto rec0 b)) with (isMobi b).
  set (b0 := readInto rec0 b).
  destruct (assert ndebug _); cbn [bind]; try discriminate.
  unfold kPalmDocHeaderLen.
  set (left := size_t size_bits (Z.of_nat (length rec0) - 16)).
  destruct (SwapU16 rec0 0) as [m1| | |] eqn:E1; cbn [bind]; try discriminate.
  destruct (SwapU32 m1 4) as [m2| | |] eqn:E2; cbn [bind]; try discriminate.
  destruct (SwapU16 m2 8) as [m3| | |] eqn:E3; cbn [bind]; try discriminate.
  destruct (SwapU16 m3 10) as [m4| | |] eqn:E4; cbn [bind]; try discriminate.
  apply SwapU16_Done in E1. destruct E1 as [_ [L1 [R1 F1]]].
  apply SwapU32_Done in E2. destruct E2 as [_ [L2 [R2 F2]]].
  apply SwapU16_Done in E3. destruct E3 as [_ [L3 [R3 F3]]].
  apply SwapU16_Done in E4. destruct E4 as [_ [L4 [R4 F4]]].
  assert (nativeU16 m4 0 = Done (bigEndianAt rec0 0 2)) as ->.
  { rewrite (nativeU16_frame m3 m4 0 L4 (F4 0 2 ltac:(lia)))%nat.
    rewrite (nativeU16_frame m2 m3 0 L3 (F3 0 2 ltac:(lia)))%nat.
    rewrite (nativeU16_frame m1 m2 0 L2 (F2 0 2 ltac:(lia)))%nat.
    exact R1. }
  assert (nativeU16 m4 12 = nativeU16 rec0 12) as ->.
  { rewrite (nativeU16_frame m3 m4 12 L4 (F4 12 2 ltac:(lia)))%nat.
    rewrite (nativeU16_frame m2 m3 12 L3 (F3 12 2 ltac:(lia)))%nat.
    rewrite (nativeU16_frame m1 m2 12 L2 (F2 12 2 ltac:(lia)))%nat.
    apply nativeU16_frame; [exact L1 | apply F1; lia]. }
  assert (nativeU16 m4 8 = Done (bigEndianAt rec0 8 2)) as ->.
  { rewrite (nativeU16_frame m3 m4 8 L4 (F4 8 2 ltac:(lia)))%nat.
    rewrite R3. unfold bigEndianAt. rewrite F2, F1 by lia. reflexivity. }
  assert (nativeU32 m4 4 = Done (bigEndianAt rec0 4 4)) as ->.
  { rewrite (nativeU32_frame m3 m4 4 L4 (F4 4 4 ltac:(lia)))%nat.
    rewrite (nativeU32_frame m2 m3 4 L3 (F3 4 4 ltac:(lia)))%nat.
    rewrite R2. unfold bigEndianAt. rewrite F1 by lia. reflexivity. }
  cbn [bind].
  destruct (IsValidCompression (bigEndianAt rec0 0 2)) eqn:Ev; cbn [negb].
  2: { intros E. injection E as <- _. intros b' [Hs|Hs]; discriminate Hs. }
  assert (forall encrypted : bool,
            (encrypted = false ->
             isMobi b = true -> nativeU16 rec0 12 = Done ENCRYPTION_NONE) ->
            (if encrypted then Done (ReturnFalse, 0) else
             recordsCount <- Done (bigEndianAt rec0 8 2) ;;
             uncompressedDocSize <- Done (bigEndianAt rec0 4 4) ;;
             (if 0 =? left
              then
                assert ndebug
                  (negb (isMobi
                     (set_compressionType (bigEndianAt rec0 0 2)
                        (set_docUncompressedSize uncompressedDocSize
                           (set_docRecCount recordsCount
                              (set_firstRecData m4 b0)))))) ;;;
                Done (ReturnTrue
                        (set_compressionType (bigEndianAt rec0 0 2)
                           (set_docUncompressedSize uncompressedDocSize
                              (set_docRecCount recordsCount
                                 (set_firstRecData m4 b0)))), left)
              else if left <? 8 then Done (ReturnFalse, left)
              else Done (Go (set_compressionType (bigEndianAt rec0 0 2)
                           (set_docUncompressedSize uncompressedDocSize
                              (set_docRecCount recordsCount
                                 (set_firstRecData m4 b0)))), left)))
            = Done (s, recLeft) ->
            forall b', s = Go b' \/ s = ReturnTrue b' ->
              compressionType b' = bigEndianAt rec0 0 2
              /\ IsValidCompression (compressionType b') = true
              /\ docUncompressedSize b' = bigEndianAt rec0 4 4
              /\ docRecCount b' = bigEndianAt rec0 8 2
              /\ (isMobi b = true -> nativeU16 rec0 12 = Done ENCRYPTION_NONE)
              /\ recLeft = left
              /\ (s = ReturnTrue b' <-> recLeft = 0)
              /\ (s = Go b' -> 8 <= recLeft)) as Tail.
  { intros [|] Henc; [intros E; injection E as <- _;
                      intros b' [Hs|Hs]; discriminate Hs|].
    specialize (Henc eq_refl). cbn [bind].
    destruct (Z.eqb_spec 0 left) as [Hz|Hnz].
    - destruct (assert ndebug _); cbn [bind]; try discriminate.
      intros E. injection E as <- <-. intros b' [Hs|Hs]; [discriminate Hs|].
      injection Hs as <-.
      destruct (palmDoc_book_fields b0 (bigEndianAt rec0 0 2)
                  (bigEndianAt rec0 4 4) (bigEndianAt rec0 8 2) m4)
        as [-> [-> ->]].
      repeat (split; [first [reflexivity | assumption]|]).
      split; [split; [intros _; symmetry; exact Hz | reflexivity]|].
      intros Hs. discriminate Hs.
    - destruct (Z.ltb_spec left 8) as [Hlt|Hge].
      + intros E. injection E as <- _. intros b' [Hs|Hs]; discriminate Hs.
      + intros E. injection E as <- <-. intros b' [Hs|Hs]; [|discriminate Hs].
        injection Hs as <-.
        destruct (palmDoc_book_fields b0 (bigEndianAt rec0 0 2)
                    (bigEndianAt rec0 4 4) (bigEndianAt rec0 8 2) m4)
          as [-> [-> ->]].
        repeat (split; [first [reflexivity | assumption]|]).
        split; [split; [intros Hs; discriminate Hs | intros Hz; lia]|].
        intros _. exact Hge. }
  destruct (isMobi b) eqn:Em.
  - destruct (nativeU16 rec0 12) as [encrType| | |]; cbn [bind];
      try discriminate.
    intros E. apply (Tail (negb (encrType =? ENCRYPTION_NONE))); [|exact E].
    intros He _.
    apply negb_false_iff, Z.eqb_eq in He. rewrite He. reflexivity.
  - cbn [bind]. intros E. apply (Tail false); [|exact E].
    intros _ Hm. discriminate Hm.
Qed.

Lemma parsePalmDocHeader_fields_witness :
  exists b',
    parsePalmDocHeader true 64 shortBodyFile
      (set_recHeaders [94; 110; 115] newMobiBook)
    = Done (ReturnTrue b', 0)
    /\ compressionType b' = 1
    /\ docUncompressedSize b' = 100
    /\ docRecCount b' = 1.
Proof.
  destruct (parsePalmDocHeader true 64 shortBodyFile
              (set_recHeaders [94; 110; 115] newMobiBook))
    as [[s recLeft]| | |] eqn:E; try (exfalso; vm_compute in E; discriminate E).
  destruct s as [b'|b'|]; try (exfalso; vm_compute in E; discriminate E).
  assert (recLeft = 0) as ->
    by (vm_compute in E; injection E as _ <-; reflexivity).
  exists b'. split; [reflexivity|].
  destruct (parsePalmDocHeader_fields true 64 shortBodyFile
              (set_recHeaders [94; 110; 115] newMobiBook)
              (palmDocHeader COMPRESSION_NONE 100 1) (ReturnTrue b') 0)
    with (b' := b') as [Hc [_ [Hu [Hn _]]]].
  - vm_compute. reflexivity.
  - exact E.
  - right. reflexivity.
  - rewrite Hc, Hu, Hn. vm_compute. auto.
Defined.

(** * Files that are not opened *)

(** The first stage of [parseHeader] is defined on every file: it goes
    on or returns false. *)
Lemma parsePdbHeader_total (f : File) (b : MobiBook) :
  parsePdbHeader f b = Done ReturnFalse
  \/ exists b', parsePdbHeader f b = Done (Go b').
Proof.
  unfold parsePdbHeader, kPdbHeaderLen, pdbTypeOffset, pdbNumRecordsOffset.
  destruct (fread f 0 78) as [hdr|] eqn:Hhdr; [|left; reflexivity].
  apply fread_Some in Hhdr. destruct Hhdr as [Hlen [Ehdr _]].
  cbn [skipn] in Ehdr.
  assert (length hdr = 78%nat) as Lhdr
    by (subst hdr; rewrite length_firstn; lia).
  destruct type_creator_nonzero as [NzM NzP].
  destruct (strncmp_data_literal MOBI_TYPE_CREATOR (skipn 60 hdr) NzM)
    as [rM [HrM _]];
    [rewrite length_skipn, Lhdr; cbn; lia|].
  destruct (strncmp_data_literal PALMDOC_TYPE_CREATOR (skipn 60 hdr) NzP)
    as [rP [HrP _]];
    [rewrite length_skipn, Lhdr; cbn; lia|].
  change (length MOBI_TYPE_CREATOR) with 8%nat in HrM.
  change (length PALMDOC_TYPE_CREATOR) with 8%nat in HrP.
  rewrite HrM. cbn [bind].
  assert (exists known,
            (if rM =? 0 then Done (Some true)
             else isP <- strncmp (skipn 60 hdr) (literal PALMDOC_TYPE_CREATOR) 8 ;;
                  Done (if isP =? 0 then Some false else None))
            = Done known) as [known ->].
  { destruct (rM =? 0); [eauto|]. rewrite HrP. cbn [bind]. eauto. }
  cbn [bind]. destruct known as [mobi|]; [|left; reflexivity].
  destruct (SwapU16_read hdr 76 ltac:(lia)) as [hdr' [Hs [Hr _]]].
  rewrite Hs. cbn [bind]. rewrite Hr. cbn [bind].
  set (n := bigEndianAt hdr 76 2).
  destruct (n <? 1); [left; reflexivity|].
  unfold kPdbRecordHeaderLen.
  destruct (fread f 78 (8 * Z.to_nat n)) as [raw|] eqn:Hraw;
    [|left; reflexivity].
  apply fread_Some in Hraw. destruct Hraw as [Hrl [Eraw _]].
  assert (length raw = (8 * Z.to_nat n)%nat) as Lraw
    by (subst raw; rewrite length_firstn, length_skipn; lia).
  rewrite swapOffsets_bigEndian by (unfold kPdbRecordHeaderLen; lia).
  cbn [bind]. cbv zeta.
  match goal with
  | |- context [offsetsValid ?l] => destruct (offsetsValid l)
  end; cbn [negb]; [right; eauto | left; reflexivity].
Qed.

(** X19.  [createFromFile] returns NULL, without reading outside any
    buffer, for a file that is shorter than the 78-byte PalmDB header,
    whose type and creator are neither "BOOKMOBI" nor "TEXtREAd", whose
    record count is zero, or that is too short to hold its record
    headers. *)
Theorem createFromFile_rejects (ndebug : bool) (size_bits : Z) (f : File)
    (fuel : nat) :
  (length (contents f) < 78)%nat
  \/ (firstn 8 (skipn 60 (contents f)) <> MOBI_TYPE_CREATOR
      /\ firstn 8 (skipn 60 (contents f)) <> PALMDOC_TYPE_CREATOR)
  \/ bigEndianAt (contents f) 76 2 = 0
  \/ (length (contents f)
      < 78 + 8 * Z.to_nat (bigEndianAt (contents f) 76 2))%nat ->
  createFromFile ndebug size_bits f fuel = Done None.
Proof.
  intros Hbad.
  assert (parsePdbHeader f newMobiBook = Done ReturnFalse) as Hp.
  { destruct (parsePdbHeader_total f newMobiBook) as [Hf|[b' Hgo]];
      [exact Hf|].
    exfalso. apply parsePdbHeader_Go in Hgo.
    destruct Hgo as [Hn [H1 [Hfit [_ [_ Htc]]]]].
    destruct Hbad as [Hs | [[HM HP] | [Hz | Hs]]].
    - lia.
    - destruct (isMobi b'); [apply HM | apply HP]; exact Htc.
    - lia.
    - rewrite <- Hn in Hs. lia. }
  unfold createFromFile, parseHeader, headerStages.
  rewrite Hp. reflexivity.
Qed.

Lemma createFromFile_rejects_witness :
  createFromFile true 64 (mkFile (zeros 77) noError) 0 = Done None
  /\ createFromFile true 64 (mkFile (zeros 200) noError) 0 = Done None.
Proof.
  split.
  - apply (createFromFile_rejects true 64 (mkFile (zeros 77) noError) 0).
    left. vm_compute. lia.
  - apply (createFromFile_rejects true 64 (mkFile (zeros 200) noError) 0).
    right. left. split; vm_compute; discriminate.
Defined.

(** * The byte-order macros *)

Lemma BEtoHs_swap (x : Z) :
  0 <= x < 65536 -> BEtoHs x = x / 256 + 256 * (x mod 256).
Proof.
  intros H.
  assert (0 <= x mod 256 < 256) by (apply Z.mod_pos_bound; lia).
  assert (0 <= x / 256 < 256)
    by (split; [apply Z.div_pos; lia | apply Z.div_lt_upper_bound; lia]).
  rewrite (Z.div_mod x 256) at 1 by lia.
  rewrite (Z.add_comm (256 * (x / 256))). apply BEtoHs_bytes; assumption.
Qed.

(** X20.  The macros [BEtoHs] and [BEtoHl] of BaseUtil.h are their own
    inverses: on a 16-bit (32-bit) value they give a 16-bit (32-bit)
    value, and applied twice they give the value back. *)
Theorem BEtoH_involutive (x : Z) :
  (0 <= x < 2 ^ 16 ->
   0 <= BEtoHs x < 2 ^ 16 /\ BEtoHs (BEtoHs x) = x)
  /\ (0 <= x < 2 ^ 32 ->
      0 <= BEtoHl x < 2 ^ 32 /\ BEtoHl (BEtoHl x) = x).
Proof.
  split.
  - change (2 ^ 16) with 65536. intros H.
    assert (0 <= x mod 256 < 256) by (apply Z.mod_pos_bound; lia).
    assert (0 <= x / 256 < 256)
      by (split; [apply Z.div_pos; lia | apply Z.div_lt_upper_bound; lia]).
    rewrite (BEtoHs_swap x H). split; [lia|].
    rewrite BEtoHs_bytes by assumption.
    rewrite (Z.div_mod x 256) at 3 by lia. lia.
  - change (2 ^ 32) with 4294967296. intros H.
    set (c0 := x mod 256). set (c1 := (x / 256) mod 256).
    set (c2 := (x / 65536) mod 256). set (c3 := x / 16777216).
    assert (0 <= c0 < 256) by (apply Z.mod_pos_bound; lia).
    assert (0 <= c1 < 256) by (apply Z.mod_pos_bound; lia).
    assert (0 <= c2 < 256) by (apply Z.mod_pos_bound; lia).
    assert (0 <= c3 < 256)
      by (split; [apply Z.div_pos; lia | apply Z.div_lt_upper_bound; lia]).
    assert (x = c0 + 256 * c1 + 65536 * c2 + 16777216 * c3) as Ex.
    { unfold c0, c1, c2, c3.
      pose proof (Z.div_mod x 256 ltac:(lia)) as E0.
      pose proof (Z.div_mod (x / 256) 256 ltac:(lia)) as E1.
      pose proof (Z.div_mod (x / 65536) 256 ltac:(lia)) as E2.
      rewrite Z.div_div in E1 by lia. change (256 * 256) with 65536 in E1.
      rewrite Z.div_div in E2 by lia. change (65536 * 256) with 16777216 in E2.
      lia. }
    rewrite Ex. rewrite BEtoHl_bytes by assumption. split; [lia|].
    rewrite BEtoHl_bytes by assumption. reflexivity.
Qed.

Lemma BEtoH_involutive_witness :
  BEtoHs (BEtoHs 4660) = 4660 /\ BEtoHl (BEtoHl 305419896) = 305419896.
Proof.
  split.
  - apply (proj1 (BEtoH_involutive 4660)). lia.
  - apply (proj2 (BEtoH_involutive 305419896)). lia.
Defined.

(** X21.  [GetUpToFour] on a buffer of at least one byte returns the
    big-endian number of its first four bytes, or of all of them if there
    are fewer: the shifts never lose a bit. *)
Theorem GetUpToFour_value (s : list byte) :
  s <> [] -> GetUpToFour s = Done (bigEndian (firstn 4 s)).
Proof.
  intros Hs. destruct s as [|b0 rest]; [contradiction|].
  apply GetUpToFour_bigEndian.
Qed.

Lemma GetUpToFour_value_witness :
  GetUpToFour [x46; x4c] = Done 17996
  /\ GetUpToFour flisBytes = Done FLIS_REC.
Proof.
  split.
  - rewrite (GetUpToFour_value [x46; x4c]) by discriminate. reflexivity.
  - rewrite (GetUpToFour_value flisBytes) by discriminate.
    vm_compute. reflexivity.
Defined.

(** * The MOBI header *)

Lemma swapFields32_Done (offs : list nat) :
  forall (mem mem' : list byte) (base : nat),
    fieldsApart offs ->
    swapFields32 mem base offs = Done mem' ->
    length mem' = length mem
    /\ (forall o, In o offs ->
          nativeU32 mem' (base + o) = Done (bigEndianAt mem (base + o) 4))
    /\ (forall off' n,
          Forall (fun o => (off' + n <= base + o \/ base + o + 4 <= off')%nat)
                 offs ->
          firstn n (skipn off' mem') = firstn n (skipn off' mem)).
Proof.
  induction offs as [|o offs IH]; intros mem mem' base Hap;
    cbn [swapFields32].
  - intros E. injection E as <-. split; [reflexivity|].
    split; [intros o [] | reflexivity].
  - destruct Hap as [Ho Hap].
    destruct (SwapU32 mem (base + o)) as [m1| | |] eqn:E1; cbn [bind];
      try discriminate.
    intros E. apply SwapU32_Done in E1. destruct E1 as [_ [L1 [R1 F1]]].
    apply IH in E; [|exact Hap]. destruct E as [L [R F]].
    split; [congruence|]. split.
    + intros o' [<-|Hin].
      * rewrite (nativeU32_frame m1 mem' (base + o) L); [exact R1|].
        apply F. eapply Forall_impl; [|exact Ho].
        intros o' H. cbn beta in H. lia.
      * rewrite (R o' Hin). unfold bigEndianAt.
        rewrite F1; [reflexivity|].
        rewrite Forall_forall in Ho. specialize (Ho o' Hin). lia.
    + intros off' n Hall. inversion Hall as [|? ? H1 H2]; subst.
      rewrite F by exact H2. apply F1. lia.
Qed.

Lemma mobiSwapped32_apart : fieldsApart mobiSwapped32.
Proof.
  unfold mobiSwapped32. cbn [fieldsApart].
  repeat split;
    apply Forall_forall; intros o Hin; cbn [In] in Hin;
    repeat (destruct Hin as [<-|Hin]; [lia|]); contradiction.
Qed.

Lemma land_1 (a : Z) : negb (Z.land a 1 =? 0) = Z.testbit a 0.
Proof.
  change 1 with (Z.ones 1) at 1. rewrite Z.land_ones by lia.
  change (2 ^ 1) with 2. rewrite <- Z.bit0_mod.
  destruct (Z.testbit a 0); reflexivity.
Qed.

Lemma bigEndianAt_16 (d : list byte) (off : nat) :
  0 <= bigEndianAt d off 2 < 65536.
Proof.
  unfold bigEndianAt.
  pose proof (bigEndian_range (firstn 2 (skipn off d))) as R.
  assert (length (firstn 2 (skipn off d)) <= 2)%nat as Hl
    by (rewrite length_firstn; lia).
  assert (256 ^ Z.of_nat (length (firstn 2 (skipn off d))) <= 256 ^ 2)
    by (apply Z.pow_le_mono_r; lia).
  change (256 ^ 2) with 65536 in *. lia.
Qed.

(** The MOBI header after the swaps of lines 617-633: every swapped
    field reads as the big-endian number of the record, and what lies
    behind the header is as it was. *)
Lemma mobiHeader_swapped (d mem1 mem2 mem3 : list byte) :
  swapFields32 d 16 mobiSwapped32 = Done mem1 ->
  SwapU16 mem1 192 = Done mem2 ->
  SwapU16 mem2 194 = Done mem3 ->
  length mem3 = length d
  /\ (forall o, In o mobiSwapped32 ->
        nativeU32 mem3 (16 + o) = Done (bigEndianAt d (16 + o) 4))
  /\ nativeU16 mem3 194 = Done (bigEndianAt d 194 2)
  /\ (forall off' n, (196 <= off')%nat ->
        firstn n (skipn off' mem3) = firstn n (skipn off' d)).
Proof.
  intros E1 E2 E3.
  apply swapFields32_Done in E1; [|exact mobiSwapped32_apart].
  destruct E1 as [L1 [R1 F1]].
  apply SwapU16_Done in E2. destruct E2 as [_ [L2 [R2 F2]]].
  apply SwapU16_Done in E3. destruct E3 as [_ [L3 [R3 F3]]].
  assert (forall off' n, (132 <= off')%nat ->
            firstn n (skipn off' mem1) = firstn n (skipn off' d)) as F1'.
  { intros off' n Ho. apply F1. apply Forall_forall. intros o Hin.
    unfold mobiSwapped32 in Hin. cbn [In] in Hin.
    repeat (destruct Hin as [<-|Hin]; [lia|]). contradiction. }
  split; [congruence|]. split; [|split].
  - intros o Hin.
    assert (o + 4 <= 116)%nat as Ho.
    { unfold mobiSwapped32 in Hin. cbn [In] in Hin.
      repeat (destruct Hin as [<-|Hin]; [lia|]). contradiction. }
    rewrite (nativeU32_frame mem2 mem3 (16 + o) L3
               (F3 (16 + o)%nat 4%nat ltac:(lia))).
    rewrite (nativeU32_frame mem1 mem2 (16 + o) L2
               (F2 (16 + o)%nat 4%nat ltac:(lia))).
    apply R1. exact Hin.
  - rewrite R3. unfold bigEndianAt. rewrite F2 by lia. rewrite F1' by lia.
    reflexivity.
  - intros off' n Ho. rewrite F3, F2 by lia. apply F1'. lia.
Qed.

Lemma Done_Go_inj (x y : MobiBook) (p q : nat) :
  @Done (Stage * nat) (Go x, p) = Done (Go y, q) -> x = y /\ p = q.
Proof. intros H. injection H as -> ->. split; reflexivity. Qed.

(** X22.  When the MOBI stage of [parseHeader] goes on, record 0 has
    "MOBI" at offset 16 and the book holds the big-endian fields of the
    header: the locale (offset 92), the text encoding (28), the first
    image record (108) with the image count [last - first + 1] if the
    file has more records than that, and, for a header of at least 228
    bytes, the multibyte flag (bit 0 of the flags at offset 242) and one
    more trailer per set bit among bits 1 to 15.  The header length (20)
    does not exceed what is left of the record, and the stage ends behind
    the header.  A full name that lies behind the swapped fields is
    appended to the title byte for byte. *)
Theorem parseMobiHeader_fields (b b' : MobiBook) (recLeft : Z) (pos : nat) :
  parseMobiHeader b recLeft = Done (Go b', pos) ->
  let d := firstRecData b in
  let hdrLen := bigEndianAt d 20 4 in
  let first := bigEndianAt d 108 4 in
  let flags := bigEndianAt d 242 2 in
  let nameOff := bigEndianAt d 84 4 in
  let nameLen := bigEndianAt d 88 4 in
  firstn 4 (skipn 16 d) = MOBI
  /\ hdrLen <= recLeft
  /\ pos = (16 + Z.to_nat hdrLen)%nat
  /\ locale b' = bigEndianAt d 92 4
  /\ textEncoding b' = bigEndianAt d 28 4
  /\ (if first <? numRecords b
      then imageFirstRec b' = first
           /\ imagesCount b'
              = (if 0 =? first then 0
                 else u32 (bigEndianAt d 194 2 - first + 1))
      else imageFirstRec b' = imageFirstRec b
           /\ imagesCount b' = imagesCount b)
  /\ (if 228 <=? hdrLen
      then trailersCount b' = trailersCount b + bitsSet 1 15 flags
           /\ multibyte b' = Z.testbit flags 0
      else trailersCount b' = trailersCount b
           /\ multibyte b' = multibyte b)
  /\ (196 <= nameOff ->
      title b' = (title b
                  ++ firstn (Z.to_nat nameLen) (skipn (Z.to_nat nameOff) d))%list).
Proof.
  destruct b as [nR rH d iM dRC cT dUS dc mb tC iFR iC im cI hD tE lc tt au pb].
  unfold parseMobiHeader. cbv zeta.
  change (Z.to_nat kPalmDocHeaderLen) with 16%nat.
  unfold mobi_firstContentRecord, mobi_lastContentRecord, mobi_locale,
    mobi_fullNameOffset, mobi_fullNameLen, mobi_textEncoding,
    mobi_imageFirstRec, mobi_hdrLen, mobi_extraDataFlags.
  cbn [Nat.add firstRecData title numRecords trailersCount multibyte
       imageFirstRec imagesCount].
  destruct (strncmp (literal MOBI) (skipn 16 d) 4) as [cmp| | |] eqn:Ecmp;
    cbn [bind]; try discriminate.
  destruct (Z.eqb_spec cmp 0) as [Hcmp|]; cbn [negb]; [|discriminate].
  destruct (swapFields32 d 16 mobiSwapped32) as [mem1| | |] eqn:E1;
    cbn [bind]; try discriminate.
  destruct (SwapU16 mem1 192) as [mem2| | |] eqn:E2; cbn [bind];
    try discriminate.
  destruct (SwapU16 mem2 194) as [mem3| | |] eqn:E3; cbn [bind];
    try discriminate.
  destruct (mobiHeader_swapped d mem1 mem2 mem3 E1 E2 E3)
    as [L3 [R [R194 F]]].
  assert (194 + 2 <= length d)%nat as Hlen.
  { apply SwapU16_Done in E3. apply SwapU16_Done in E2.
    apply swapFields32_Done in E1; [|exact mobiSwapped32_apart].
    destruct E3 as [H3 _]. destruct E2 as [_ [H2 _]]. destruct E1 as [H1 _].
    lia. }
  assert (firstn 4 (skipn 16 d) = MOBI) as Hmobi.
  { destruct (strncmp_literal_data MOBI (skipn 16 d)) as [r [Hr Hiff]].
    - repeat constructor; vm_compute; discriminate.
    - rewrite length_skipn. cbn [length MOBI]. lia.
    - change (length MOBI) with 4%nat in Hr, Hiff.
      rewrite Hr in Ecmp. injection Ecmp as ->. apply Hiff. exact Hcmp. }
  assert (nativeU32 mem3 92 = Done (bigEndianAt d 92 4)) as R92
    by (apply (R 76%nat); unfold mobiSwapped32; cbn [In]; tauto).
  assert (nativeU32 mem3 84 = Done (bigEndianAt d 84 4)) as R84
    by (apply (R 68%nat); unfold mobiSwapped32; cbn [In]; tauto).
  assert (nativeU32 mem3 88 = Done (bigEndianAt d 88 4)) as R88
    by (apply (R 72%nat); unfold mobiSwapped32; cbn [In]; tauto).
  assert (nativeU32 mem3 28 = Done (bigEndianAt d 28 4)) as R28
    by (apply (R 12%nat); unfold mobiSwapped32; cbn [In]; tauto).
  assert (nativeU32 mem3 108 = Done (bigEndianAt d 108 4)) as R108
    by (apply (R 92%nat); unfold mobiSwapped32; cbn [In]; tauto).
  assert (nativeU32 mem3 20 = Done (bigEndianAt d 20 4)) as R20
    by (apply (R 4%nat); unfold mobiSwapped32; cbn [In]; tauto).
  rewrite R92, R84, R88. cbn [bind].
  destruct (slice mem3 _ _) as [name| | |] eqn:Ename; cbn [bind];
    try discriminate.
  rewrite R28, R108, R194, R20. cbn [bind].
  set (hdrLen := bigEndianAt d 20 4).
  set (first := bigEndianAt d 108 4).
  set (nameOff := bigEndianAt d 84 4) in *.
  set (nameLen := bigEndianAt d 88 4) in *.
  assert (196 <= nameOff ->
          name = firstn (Z.to_nat nameLen) (skipn (Z.to_nat nameOff) d))
    as Hname.
  { intros Ho. apply slice_Done in Ename. destruct Ename as [_ ->].
    apply F. lia. }
  destruct (Z.ltb_spec recLeft hdrLen) as [|Hfit]; [discriminate|].
  cbv [set_textEncoding set_title set_locale set_firstRecData
       set_imagesCount set_imageFirstRec set_trailersCount set_multibyte
       numRecords recHeaders firstRecData isMobi docRecCount compressionType
       docUncompressedSize doc multibyte trailersCount imageFirstRec
       imagesCount images coverImage huffDic textEncoding locale title
       author publisher].
  destruct (first <? nR);
    (destruct (228 <=? hdrLen);
     [ destruct (SwapU16 mem3 242) as [mem4| | |] eqn:E4; cbn [bind];
         try discriminate;
       apply SwapU16_Done in E4; destruct E4 as [_ [L4 [R4 F4]]];
       rewrite R4; cbn [bind];
       assert (bigEndianAt mem3 242 2 = bigEndianAt d 242 2) as ->
         by (unfold bigEndianAt; rewrite F by lia; reflexivity);
       intros E; apply Done_Go_inj in E; destruct E as [<- <-];
       cbn [multibyte trailersCount imageFirstRec imagesCount textEncoding
            locale title];
       rewrite countTrailers_bits
         by (change (2 ^ Z.of_nat 16) with 65536; apply bigEndianAt_16);
       rewrite land_1
     | intros E; apply Done_Go_inj in E; destruct E as [<- <-];
       cbn [multibyte trailersCount imageFirstRec imagesCount textEncoding
            locale title] ]);
    (split; [exact Hmobi|]; split; [exact Hfit|]; split; [reflexivity|];
     split; [reflexivity|]; split; [reflexivity|];
     split; [split; reflexivity|]; split; [split; reflexivity|];
     intros Ho; rewrite (Hname Ho); reflexivity).
Qed.

Lemma parseMobiHeader_fields_witness :
  exists b' pos,
    parseMobiHeader (fst (palmDocStaged longTrailerFile))
      (snd (palmDocStaged longTrailerFile))
    = Done (Go b', pos)
    /\ pos = 248%nat
    /\ locale b' = 1033
    /\ trailersCount b' = 1
    /\ title b' = Title.
Proof.
  set (b := fst (palmDocStaged longTrailerFile)).
  set (rl := snd (palmDocStaged longTrailerFile)).
  destruct (parseMobiHeader b rl) as [[[b'| |] pos]| | |] eqn:E;
    try (exfalso; vm_compute in E; discriminate E).
  exists b', pos. split; [reflexivity|].
  pose proof (parseMobiHeader_fields b b' rl pos E) as H. cbv zeta in H.
  destruct H as [_ [_ [Hpos [Hloc [_ [_ [Htr Htitle]]]]]]].
  assert ((228 <=? bigEndianAt (firstRecData b) 20 4) = true) as Hc
    by (vm_compute; reflexivity).
  rewrite Hc in Htr. destruct Htr as [Htr _].
  split; [rewrite Hpos; vm_compute; reflexivity|].
  split; [rewrite Hloc; vm_compute; reflexivity|].
  split; [rewrite Htr; vm_compute; reflexivity|].
  rewrite Htitle by (vm_compute; discriminate). vm_compute. reflexivity.
Defined.

(** * The book that is returned *)

Lemma keeps_refl (b : MobiBook) : keepsTable b b.
Proof. repeat split. Qed.

Lemma keeps_trans (b b1 b2 : MobiBook) :
  keepsTable b b1 -> keepsTable b1 b2 -> keepsTable b b2.
Proof.
  unfold keepsTable. intros [H1 [H2 [H3 H4]]] [G1 [G2 [G3 G4]]].
  repeat split; congruence.
Qed.

Lemma keeps_set_firstRecData (b b1 : MobiBook) (v : list byte) :
  keepsTable b b1 -> keepsTable b (set_firstRecData v b1).
Proof. intros H. apply (keeps_trans b b1); [exact H|]. destruct b1. repeat split. Qed.

Lemma keeps_set_textEncoding (b b1 : MobiBook) (v : Z) :
  keepsTable b b1 -> keepsTable b (set_textEncoding v b1).
Proof. intros H. apply (keeps_trans b b1); [exact H|]. destruct b1. repeat split. Qed.

Lemma keeps_set_title (b b1 : MobiBook) (v : list byte) :
  keepsTable b b1 -> keepsTable b (set_title v b1).
Proof. intros H. apply (keeps_trans b b1); [exact H|]. destruct b1. repeat split. Qed.

Lemma keeps_set_locale (b b1 : MobiBook) (v : Z) :
  keepsTable b b1 -> keepsTable b (set_locale v b1).
Proof. intros H. apply (keeps_trans b b1); [exact H|]. destruct b1. repeat split. Qed.

Lemma keeps_set_imagesCount (b b1 : MobiBook) (v : Z) :
  keepsTable b b1 -> keepsTable b (set_imagesCount v b1).
Proof. intros H. apply (keeps_trans b b1); [exact H|]. destruct b1. repeat split. Qed.

Lemma keeps_set_imageFirstRec (b b1 : MobiBook) (v : Z) :
  keepsTable b b1 -> keepsTable b (set_imageFirstRec v b1).
Proof. intros H. apply (keeps_trans b b1); [exact H|]. destruct b1. repeat split. Qed.

Lemma keeps_set_trailersCount (b b1 : MobiBook) (v : Z) :
  keepsTable b b1 -> keepsTable b (set_trailersCount v b1).
Proof. intros H. apply (keeps_trans b b1); [exact H|]. destruct b1. repeat split. Qed.

Lemma keeps_set_multibyte (b b1 : MobiBook) (v : bool) :
  keepsTable b b1 -> keepsTable b (set_multibyte v b1).
Proof. intros H. apply (keeps_trans b b1); [exact H|]. destruct b1. repeat split. Qed.

Lemma keeps_set_author (b b1 : MobiBook) (v : list byte) :
  keepsTable b b1 -> keepsTable b (set_author v b1).
Proof. intros H. apply (keeps_trans b b1); [exact H|]. destruct b1. repeat split. Qed.

Lemma keeps_set_publisher (b b1 : MobiBook) (v : list byte) :
  keepsTable b b1 -> keepsTable b (set_publisher v b1).
Proof. intros H. apply (keeps_trans b b1); [exact H|]. destruct b1. repeat split. Qed.

Lemma keeps_set_coverImage (b b1 : MobiBook) (v : Z) :
  keepsTable b b1 -> keepsTable b (set_coverImage v b1).
Proof. intros H. apply (keeps_trans b b1); [exact H|]. destruct b1. repeat split. Qed.

Lemma keeps_set_huffDic (b b1 : MobiBook) (v : option HuffDicDecompressor) :
  keepsTable b b1 -> keepsTable b (set_huffDic v b1).
Proof. intros H. apply (keeps_trans b b1); [exact H|]. destruct b1. repeat split. Qed.

Lemma keeps_set_images (b b1 : MobiBook) (v : option (list ImageData)) :
  keepsTable b b1 -> keepsTable b (set_images v b1).
Proof. intros H. apply (keeps_trans b b1); [exact H|]. destruct b1. repeat split. Qed.

Lemma keeps_set_doc (b b1 : MobiBook) (v : list byte) :
  keepsTable b b1 -> keepsTable b (set_doc v b1).
Proof. intros H. apply (keeps_trans b b1); [exact H|]. destruct b1. repeat split. Qed.

Lemma keeps_set_readBuf (b b1 : MobiBook) (v : ReadBuffer) :
  keepsTable b b1 -> keepsTable b (set_readBuf v b1).
Proof. intros H. apply (keeps_trans b b1); [exact H|]. destruct b1. repeat split. Qed.

Lemma keeps_readInto (b b1 : MobiBook) (d : list byte) :
  keepsTable b b1 -> keepsTable b (readInto d b1).
Proof. apply keeps_set_readBuf. Qed.

Lemma keeps_set_recordBuffer (b b1 : MobiBook) (size : nat) (mem : list byte) :
  keepsTable b b1 -> keepsTable b (set_recordBuffer size mem b1).
Proof. apply keeps_set_readBuf. Qed.

Ltac keeps :=
  repeat first
    [ assumption
    | apply keeps_refl
    | apply keeps_set_readBuf | apply keeps_readInto
    | apply keeps_set_recordBuffer
    | apply keeps_set_firstRecData | apply keeps_set_textEncoding
    | apply keeps_set_title | apply keeps_set_locale
    | apply keeps_set_imagesCount | apply keeps_set_imageFirstRec
    | apply keeps_set_trailersCount | apply keeps_set_multibyte
    | apply keeps_set_author | apply keeps_set_publisher
    | apply keeps_set_coverImage | apply keeps_set_huffDic
    | apply keeps_set_images | apply keeps_set_doc ].

(** The PalmDOC stage keeps the record table and the kind of the file,
    and leaves a supported compression type. *)
Lemma parsePalmDocHeader_keeps (ndebug : bool) (size_bits : Z) (f : File)
    (b b' : MobiBook) (s : Stage) (recLeft : Z) :
  parsePalmDocHeader ndebug size_bits f b = Done (s, recLeft) ->
  s = Go b' \/ s = ReturnTrue b' ->
  numRecords b' = numRecords b /\ recHeaders b' = recHeaders b
  /\ isMobi b' = isMobi b
  /\ IsValidCompression (compressionType b') = true.
Proof.
  unfold parsePalmDocHeader.
  destruct (readRecord f b 0) as [[buf|]| | |]; cbn [bind]; try discriminate.
  2: { intros E. injection E as <- _. intros [Hs|Hs]; discriminate Hs. }
  cbv zeta.
  destruct (assert ndebug _); cbn [bind]; try discriminate.
  destruct (SwapU16 buf 0) as [m1| | |]; cbn [bind]; try discriminate.
  destruct (SwapU32 m1 4) as [m2| | |]; cbn [bind]; try discriminate.
  destruct (SwapU16 m2 8) as [m3| | |]; cbn [bind]; try discriminate.
  destruct (SwapU16 m3 10) as [m4| | |]; cbn [bind]; try discriminate.
  destruct (nativeU16 m4 0) as [compression| | |]; cbn [bind];
    try discriminate.
  destruct (IsValidCompression compression) eqn:Ev; cbn [negb].
  2: { intros E. injection E as <- _. intros [Hs|Hs]; discriminate Hs. }
  match goal with
  | |- bind ?m _ = _ -> _ => destruct m as [[|]| | |]
  end; cbn [bind]; try discriminate.
  { intros E. injection E as <- _. intros [Hs|Hs]; discriminate Hs. }
  destruct (nativeU16 m4 8) as [recordsCount| | |]; cbn [bind];
    try discriminate.
  destruct (nativeU32 m4 4) as [size| | |]; cbn [bind]; try discriminate.
  assert (forall b1,
            b1 = set_compressionType compression
                   (set_docUncompressedSize size
                      (set_docRecCount recordsCount
                         (set_firstRecData m4 (readInto buf b)))) ->
            numRecords b1 = numRecords b /\ recHeaders b1 = recHeaders b
            /\ isMobi b1 = isMobi b
            /\ IsValidCompression (compressionType b1) = true) as Hb.
  { intros b1 ->. destruct b. repeat split. exact Ev. }
  match goal with
  | |- context [0 =? ?l] => destruct (0 =? l); [|destruct (l <? 8)]
  end.
  - destruct (assert ndebug _); cbn [bind]; try discriminate.
    intros E. injection E as <- _. intros [Hs|Hs]; [discriminate Hs|].
    injection Hs as Hs. apply Hb. symmetry. exact Hs.
  - intros E. injection E as <- _. intros [Hs|Hs]; discriminate Hs.
  - intros E. injection E as <- _. intros [Hs|Hs]; [|discriminate Hs].
    injection Hs as Hs. apply Hb. symmetry. exact Hs.
Qed.

Lemma parseMobiHeader_keeps (b b' : MobiBook) (recLeft : Z) (pos : nat) :
  parseMobiHeader b recLeft = Done (Go b', pos) -> keepsTable b b'.
Proof.
  unfold parseMobiHeader. cbv zeta.
  destruct (strncmp _ _ _); cbn [bind]; try discriminate.
  destruct (negb _); [discriminate|].
  destruct (swapFields32 _ _ _) as [m1| | |]; cbn [bind]; try discriminate.
  destruct (SwapU16 m1 _) as [m2| | |]; cbn [bind]; try discriminate.
  destruct (SwapU16 m2 _) as [m3| | |]; cbn [bind]; try discriminate.
  destruct (nativeU32 m3 _) as [loc| | |]; cbn [bind]; try discriminate.
  destruct (nativeU32 m3 _) as [off| | |]; cbn [bind]; try discriminate.
  destruct (nativeU32 m3 _) as [len| | |]; cbn [bind]; try discriminate.
  destruct (slice m3 _ _) as [name| | |]; cbn [bind]; try discriminate.
  destruct (nativeU32 m3 _) as [enc| | |]; cbn [bind]; try discriminate.
  destruct (nativeU32 m3 _) as [first| | |]; cbn [bind]; try discriminate.
  destruct (nativeU16 m3 _) as [last| | |]; cbn [bind]; try discriminate.
  destruct (nativeU32 m3 _) as [hdrLen| | |]; cbn [bind]; try discriminate.
  destruct (recLeft <? hdrLen); [discriminate|].
  set (b1 := set_textEncoding enc
               (set_title (title b ++ name)
                  (set_locale loc (set_firstRecData m3 b)))).
  assert (keepsTable b b1) as H1 by (unfold b1; keeps).
  set (b2 := if first <? numRecords b1 then _ else b1).
  assert (keepsTable b b2) as H2
    by (unfold b2; destruct (first <? numRecords b1); keeps).
  clearbody b2. clearbody b1.
  destruct (228 <=? hdrLen).
  - destruct (SwapU16 m3 _) as [m4| | |]; cbn [bind]; try discriminate.
    destruct (nativeU16 m4 _) as [flags| | |]; cbn [bind]; try discriminate.
    intros E. apply Done_Go_inj in E. destruct E as [<- _]. keeps.
  - intros E. apply Done_Go_inj in E. destruct E as [<- _]. exact H2.
Qed.

Lemma exthRecords_keeps (n : nat) :
  forall (pos : nat) (b b' : MobiBook),
    exthRecords n pos b = Done b' -> keepsTable b b'.
Proof.
  induction n as [|n IH]; intros pos b b'; cbn [exthRecords].
  - intros E. injection E as <-. apply keeps_refl.
  - destruct (SwapU32 (firstRecData b) _) as [m1| | |]; cbn [bind];
      try discriminate.
    destruct (SwapU32 m1 pos) as [m2| | |]; cbn [bind]; try discriminate.
    destruct (nativeU32 m2 pos) as [recType| | |]; cbn [bind];
      try discriminate.
    destruct (nativeU32 m2 (pos + 4)) as [recLen| | |]; cbn [bind];
      try discriminate.
    cbv zeta.
    set (b1 := set_firstRecData m2 b).
    assert (keepsTable b b1) as H1 by (unfold b1; keeps).
    clearbody b1.
    match goal with
    | |- bind ?m _ = _ -> _ =>
        assert (forall b2, m = Done b2 -> keepsTable b b2) as H2;
        [|destruct m as [b2| | |]; cbn [bind]; try discriminate]
    end.
    { intros b2.
      destruct (recType =? 100).
      { destruct (cstring m2 _); cbn [bind]; try discriminate.
        intros E. injection E as <-. keeps. }
      destruct (recType =? 101).
      { destruct (cstring m2 _); cbn [bind]; try discriminate.
        intros E. injection E as <-. keeps. }
      destruct (recType =? 201).
      { destruct (nativeU32 m2 _); cbn [bind]; try discriminate.
        intros E. injection E as <-. keeps. }
      destruct (recType =? 503).
      { destruct (cstring m2 _); cbn [bind]; try discriminate.
        intros E. injection E as <-. keeps. }
      intros E. injection E as <-. exact H1. }
    intros E. apply IH in E.
    apply (keeps_trans b b2); [apply H2; reflexivity | exact E].
Qed.

Lemma parseExth_keeps (b b' : MobiBook) (pos : nat) :
  parseExth b pos = Done (Go b') -> keepsTable b b'.
Proof.
  unfold parseExth. cbv zeta.
  destruct (nativeU32 _ _) as [flags| | |]; cbn [bind]; try discriminate.
  destruct (Z.land flags 64 =? 0).
  { intros E. injection E as <-. apply keeps_refl. }
  destruct (strncmp _ _ _); cbn [bind]; try discriminate.
  destruct (negb _); [discriminate|].
  destruct (SwapU32 _ _) as [m1| | |]; cbn [bind]; try discriminate.
  destruct (SwapU32 m1 _) as [m2| | |]; cbn [bind]; try discriminate.
  destruct (nativeU32 m2 _) as [recCount| | |]; cbn [bind]; try discriminate.
  destruct (exthRecords _ _ _) as [b1| | |] eqn:E1; cbn [bind];
    try discriminate.
  intros E. injection E as <-. apply exthRecords_keeps in E1.
  apply (keeps_trans b (set_firstRecData m2 b)); [keeps | exact E1].
Qed.

Lemma addCdics_keeps (ndebug : bool) (f : File) (n : nat) :
  forall (recNo : Z) (b b' : MobiBook) (hd hd' : HuffDicDecompressor),
    addCdics ndebug f n recNo b hd = Done (Some (hd', b')) -> keepsTable b b'.
Proof.
  induction n as [|n IH]; intros recNo b b' hd hd'; cbn [addCdics].
  - intros E. injection E as _ <-. apply keeps_refl.
  - destruct (readRecord f b recNo) as [[recData|]| | |]; cbn [bind];
      try discriminate.
    cbv zeta.
    destruct (AddCdicDataIn _ _ _ _) as [[[ok hd1] mem]| | |]; cbn [bind];
      try discriminate.
    destruct ok; [|discriminate].
    intros E. apply IH in E. eapply keeps_trans; [|exact E]. keeps.
Qed.

Lemma loadHuffDic_keeps (ndebug : bool) (f : File) (b b' : MobiBook) :
  loadHuffDic ndebug f b = Done (Go b') -> keepsTable b b'.
Proof.
  unfold loadHuffDic. cbv zeta.
  destruct (nativeU16 _ _) as [compression| | |]; cbn [bind];
    try discriminate.
  destruct (negb _).
  { intros E. injection E as <-. apply keeps_refl. }
  destruct (assert ndebug _); cbn [bind]; try discriminate.
  destruct (nativeU32 _ _) as [first| | |]; cbn [bind]; try discriminate.
  destruct (readRecord f b first) as [[recData|]| | |]; cbn [bind];
    try discriminate.
  destruct (nativeU32 _ _) as [count| | |]; cbn [bind]; try discriminate.
  destruct (assert ndebug _); cbn [bind]; try discriminate.
  destruct (kCdicsMax <? _); [discriminate|].
  destruct (assert ndebug _); cbn [bind]; try discriminate.
  destruct (SetHuffData ndebug newHuffDic recData) as [[ok hd]| | |];
    cbn [bind]; try discriminate.
  destruct (negb ok); [discriminate|].
  destruct (swapFields32 _ _ _) as [mem| | |]; cbn [bind]; try discriminate.
  destruct (addCdics _ _ _ _ _ _) as [[[hd' b1]|]| | |] eqn:Ea; cbn [bind];
    try discriminate.
  intros E. injection E as <-. apply addCdics_keeps in Ea.
  apply keeps_set_huffDic. eapply keeps_trans; [|exact Ea]. keeps.
Qed.

Lemma loadImagesFrom_keeps (f : File) (n : nat) :
  forall (i : Z) (b b' : MobiBook),
    loadImagesFrom f n i b = Done b' -> keepsTable b b'.
Proof.
  induction n as [|n IH]; intros i b b'; cbn [loadImagesFrom].
  - intros E. injection E as <-. apply keeps_refl.
  - assert (forall more b1, loadImage f b i = Done (more, b1) ->
                            keepsTable b b1) as H1.
    { intros more b1. unfold loadImage.
      destruct (readRecord f b _) as [[d|]| | |]; cbn [bind];
        try discriminate.
      2: { intros E. injection E as _ <-. apply keeps_refl. }
      cbv zeta.
      destruct (length d =? 0)%nat.
      { intros E. injection E as _ <-. keeps. }
      destruct (IsEofRecord d) as [[|]| | |]; cbn [bind]; try discriminate.
      { intros E. injection E as _ <-. keeps. }
      destruct (KnownNonImageRec d) as [[|]| | |]; cbn [bind];
        try discriminate.
      { intros E. injection E as _ <-. keeps. }
      destruct (images _) as [arr|]; [|discriminate].
      destruct (_ <? _)%nat; [|discriminate].
      destruct (ImageType _) as [ext|]; [|discriminate].
      intros E. injection E as _ <-. keeps. }
    destruct (loadImage f b i) as [[more b1]| | |]; cbn [bind];
      try discriminate.
    specialize (H1 more b1 eq_refl).
    destruct more.
    + intros E. apply IH in E. apply (keeps_trans b b1); assumption.
    + intros E. injection E as <-. exact H1.
Qed.

Lemma loadImages_keeps (f : File) (b b' : MobiBook) :
  loadImages f b = Done b' -> keepsTable b b'.
Proof.
  unfold loadImages. destruct (0 =? imagesCount b).
  - intros E. injection E as <-. apply keeps_refl.
  - cbv zeta. intros E. apply loadImagesFrom_keeps in E.
    eapply keeps_trans; [|exact E]. keeps.
Qed.

Lemma loadDocRecords_keeps (ndebug : bool) (size_bits : Z) (f : File)
    (fuel n : nat) :
  forall (i : Z) (b b' : MobiBook) (ok : bool),
    loadDocRecords ndebug size_bits f fuel n i b = Done (ok, b') ->
    keepsTable b b'.
Proof.
  induction n as [|n IH]; intros i b b' ok; cbn [loadDocRecords].
  - intros E. injection E as _ <-. apply keeps_refl.
  - destruct (loadDocRecordIntoBuffer ndebug size_bits f fuel b i)
      as [[ok1 b1]| | |] eqn:E1; cbn [bind]; try discriminate.
    apply loadDocRecordIntoBuffer_appends in E1.
    destruct E1 as [t [rb [-> _]]].
    destruct ok1.
    + intros E. apply IH in E. eapply keeps_trans; [|exact E]. keeps.
    + intros E. injection E as _ <-. keeps.
Qed.

(** X23.  Every book that [createFromFile] returns has the record table
    of its file: at least one record, the offsets of the record headers
    followed by the file size, never decreasing, and the kind that the
    type and creator of the file say; and its compression type is one of
    the three supported ones. *)
Theorem createFromFile_book (ndebug : bool) (size_bits : Z) (f : File)
    (fuel : nat) (b : MobiBook) :
  createFromFile ndebug size_bits f fuel = Done (Some b) ->
  1 <= numRecords b
  /\ numRecords b = bigEndianAt (contents f) 76 2
  /\ recHeaders b
     = (map (fun k => bigEndianAt (contents f) (78 + 8 * k) 4)
            (seq 0 (Z.to_nat (numRecords b)))
        ++ [u32 (Z.of_nat (length (contents f)))])%list
  /\ (forall i o1 o2,
         nth_error (recHeaders b) i = Some o1 ->
         nth_error (recHeaders b) (S i) = Some o2 -> o1 <= o2)
  /\ firstn 8 (skipn 60 (contents f))
     = (if isMobi b then MOBI_TYPE_CREATOR else PALMDOC_TYPE_CREATOR)
  /\ IsValidCompression (compressionType b) = true.
Proof.
  unfold createFromFile, parseHeader, headerStages.
  destruct (parsePdbHeader f newMobiBook) as [[b0|b0|]| | |] eqn:E0;
    cbn [bind]; try discriminate.
  2: { exfalso.
       destruct (parsePdbHeader_total f newMobiBook) as [Hf|[b1 Hg]];
         [rewrite Hf in E0 | rewrite Hg in E0]; discriminate E0. }
  apply parsePdbHeader_Go in E0.
  destruct E0 as [Hn [H1 [_ [Ht [Hs Htc]]]]].
  assert (forall b1,
            numRecords b1 = numRecords b0 /\ recHeaders b1 = recHeaders b0
            /\ isMobi b1 = isMobi b0
            /\ IsValidCompression (compressionType b1) = true ->
            forall b2, keepsTable b1 b2 ->
            1 <= numRecords b2
            /\ numRecords b2 = bigEndianAt (contents f) 76 2
            /\ recHeaders b2
               = (map (fun k => bigEndianAt (contents f) (78 + 8 * k) 4)
                      (seq 0 (Z.to_nat (numRecords b2)))
                  ++ [u32 (Z.of_nat (length (contents f)))])%list
            /\ (forall i o1 o2,
                   nth_error (recHeaders b2) i = Some o1 ->
                   nth_error (recHeaders b2) (S i) = Some o2 -> o1 <= o2)
            /\ firstn 8 (skipn 60 (contents f))
               = (if isMobi b2 then MOBI_TYPE_CREATOR
                  else PALMDOC_TYPE_CREATOR)
            /\ IsValidCompression (compressionType b2) = true) as Fin.
  { intros b1 [A1 [A2 [A3 A4]]] b2 [K1 [K2 [K3 K4]]].
    rewrite K1, K2, K3, K4, A1, A2, A3. auto 10. }
  assert (forall mb b1,
            numRecords b1 = numRecords b0 /\ recHeaders b1 = recHeaders b0
            /\ isMobi b1 = isMobi b0
            /\ IsValidCompression (compressionType b1) = true ->
            keepsTable b1 mb ->
            (r <- loadDocument ndebug size_bits f fuel mb ;;
             let '(ok, mb') := r in
             if ok : bool then Done (Some mb') else Done None)
            = Done (Some b) ->
            1 <= numRecords b
            /\ numRecords b = bigEndianAt (contents f) 76 2
            /\ recHeaders b
               = (map (fun k => bigEndianAt (contents f) (78 + 8 * k) 4)
                      (seq 0 (Z.to_nat (numRecords b)))
                  ++ [u32 (Z.of_nat (length (contents f)))])%list
            /\ (forall i o1 o2,
                   nth_error (recHeaders b) i = Some o1 ->
                   nth_error (recHeaders b) (S i) = Some o2 -> o1 <= o2)
            /\ firstn 8 (skipn 60 (contents f))
               = (if isMobi b then MOBI_TYPE_CREATOR
                  else PALMDOC_TYPE_CREATOR)
            /\ IsValidCompression (compressionType b) = true) as Doc.
  { intros mb b1 Hb1 Hk. unfold loadDocument.
    destruct (assert ndebug _); cbn [bind]; try discriminate.
    destruct (loadDocRecords _ _ _ _ _ _ _) as [[ok b2]| | |] eqn:Ed;
      cbn [bind]; try discriminate.
    apply loadDocRecords_keeps in Ed.
    destruct ok; cbn [negb bind]; [|discriminate].
    destruct (assert ndebug _); cbn [bind]; try discriminate.
    intros E. injection E as <-.
    apply (Fin b1 Hb1). apply (keeps_trans b1 mb); assumption. }
  destruct (parsePalmDocHeader ndebug size_bits f b0)
    as [[s1 recLeft]| | |] eqn:E1; cbn [bind]; try discriminate.
  destruct s1 as [b1|b1|]; cbn [bind]; try discriminate.
  - pose proof (parsePalmDocHeader_keeps _ _ _ _ b1 _ _ E1 (or_introl eq_refl))
      as Hb1.
    destruct (parseMobiHeader b1 recLeft) as [[s2 pos]| | |] eqn:E2;
      cbn [bind]; try discriminate.
    destruct s2 as [b2|b2|]; cbn [bind]; try discriminate.
    + apply parseMobiHeader_keeps in E2.
      destruct (parseExth b2 pos) as [s3| | |] eqn:E3; cbn [bind];
        try discriminate.
      destruct s3 as [b3|b3|]; cbn [bind]; try discriminate.
      * apply parseExth_keeps in E3.
        destruct (loadHuffDic ndebug f b3) as [s4| | |] eqn:E4; cbn [bind];
          try discriminate.
        destruct s4 as [b4|b4|]; cbn [bind]; try discriminate.
        -- apply loadHuffDic_keeps in E4.
           destruct (loadImages f b4) as [b5| | |] eqn:E5; cbn [bind];
             try discriminate.
           apply loadImages_keeps in E5.
           apply (Doc b5 b1 Hb1).
           apply (keeps_trans b1 b2); [exact E2|].
           apply (keeps_trans b2 b3); [exact E3|].
           apply (keeps_trans b3 b4); [exact E4 | exact E5].
        -- exfalso. unfold loadHuffDic in E4. revert E4. cbv zeta.
           repeat match goal with
             | |- bind ?m _ = _ -> _ =>
                 destruct m as [?| | |]; cbn [bind]; try discriminate
             | |- (if ?c then _ else _) = _ -> _ => destruct c
             | |- match ?x with _ => _ end = _ -> _ =>
                 destruct x; cbn [bind]; try discriminate
             end; discriminate.
      * exfalso. unfold parseExth in E3. revert E3. cbv zeta.
        repeat match goal with
          | |- bind ?m _ = _ -> _ =>
              destruct m as [?| | |]; cbn [bind]; try discriminate
          | |- (if ?c then _ else _) = _ -> _ => destruct c
          end; discriminate.
    + exfalso. unfold parseMobiHeader in E2. revert E2. cbv zeta.
      repeat match goal with
        | |- bind ?m _ = _ -> _ =>
            destruct m as [?| | |]; cbn [bind]; try discriminate
        | |- (if ?c then _ else _) = _ -> _ => destruct c
        end; discriminate.
  - pose proof (parsePalmDocHeader_keeps _ _ _ _ b1 _ _ E1 (or_intror eq_refl))
      as Hb1.
    apply (Doc b1 b1 Hb1). apply keeps_refl.
Qed.

Lemma createFromFile_book_witness :
  exists b,
    createFromFile true 64 shortBodyFile 0 = Done (Some b)
    /\ numRecords b = 2
    /\ recHeaders b = [94; 110; 115]
    /\ isMobi b = false.
Proof.
  destruct (createFromFile true 64 shortBodyFile 0) as [[b|]| | |] eqn:E;
    try (exfalso; vm_compute in E; discriminate E).
  exists b. split; [reflexivity|].
  destruct (createFromFile_book true 64 shortBodyFile 0 b E)
    as [_ [Hn [Ht [_ [Hm _]]]]].
  assert (numRecords b = 2) as Hn2 by (rewrite Hn; vm_compute; reflexivity).
  split; [exact Hn2|]. split.
  - rewrite Ht, Hn2. vm_compute. reflexivity.
  - destruct (isMobi b); [vm_compute in Hm; discriminate Hm | reflexivity].
Defined.

(** * HUFF/CDIC files *)

(** X24.  A file with HUFF/CDIC compression whose Huffman record begins
    with "HUFF", as the format has it, is not opened: the HUFF/CDIC stage
    of [parseHeader] does not go on, because [SetHuffData] returns false
    for that record. *)
Theorem loadHuffDic_rejects_tagged (ndebug : bool) (f : File) (b : MobiBook)
    (first : Z) (recData : list byte) (s : Stage) :
  nativeU16 (firstRecData b) 0 = Done COMPRESSION_HUFF ->
  nativeU32 (firstRecData b) 112 = Done first ->
  readRecord f b first = Done (Some recData) ->
  firstn 4 recData = HUFF ->
  loadHuffDic ndebug f b = Done s ->
  s = ReturnFalse.
Proof.
  intros Hc Hfirst Hread Htag. unfold loadHuffDic. cbv zeta.
  rewrite Hc. cbn [bind]. rewrite Z.eqb_refl. cbn [negb].
  destruct (assert ndebug _); cbn [bind]; try discriminate.
  change (Z.to_nat kPalmDocHeaderLen + mobi_huffmanFirstRec)%nat with 112%nat.
  rewrite Hfirst. cbn [bind]. rewrite Hread. cbn [bind].
  change (firstRecData (readInto recData b)) with (firstRecData b).
  destruct (nativeU32 (firstRecData b)
              (Z.to_nat kPalmDocHeaderLen + mobi_huffmanRecCount))
    as [count| | |]; cbn [bind]; try discriminate.
  destruct (assert ndebug _); cbn [bind]; try discriminate.
  destruct (kCdicsMax <? _).
  { intros E. injection E as <-. reflexivity. }
  destruct (assert ndebug _); cbn [bind]; try discriminate.
  destruct (SetHuffData ndebug newHuffDic recData) as [[ok hd]| | |] eqn:Es;
    cbn [bind]; try discriminate.
  apply (SetHuffData_rejects_HUFF ndebug newHuffDic hd recData ok Htag) in Es.
  subst ok. cbn [negb]. intros E. injection E as <-. reflexivity.
Qed.

Lemma loadHuffDic_rejects_tagged_witness :
  loadHuffDic true huffFile huffBook = Done ReturnFalse.
Proof.
  destruct (loadHuffDic true huffFile huffBook) as [s| | |] eqn:E;
    try (exfalso; vm_compute in E; discriminate E).
  f_equal.
  apply (loadHuffDic_rejects_tagged true huffFile huffBook 1 wellFormedHuff s);
    try (vm_compute; reflexivity).
  exact E.
Defined.
